(** * PS4Mapping: the input-interpretation pipeline of the DualShock 4 remapper

    A shallow embedding of the Python sources

      - [controller/data_parser.py]   (report decoder, edge detector)
      - [gui/tabs/rumble_tab.py]      (haptic threshold detector)
      - [gui/main_window.py]          (polling loop, rumble call-backs)
      - [gui/tabs/visualization_tab.py] (orientation estimator)
      - [network/udp_manager.py]      (inbound command channel, outbound events)
      - [gui/mapping_dialog.py]       (profiles, button labels)

    Python dictionaries keyed by strings are finite maps ([gmap string _]),
    [bytes] is a list of bytes, Python integers are [Z], exceptions are an
    explicit error result, call-backs and device writes are collected in
    effect lists.  Python floats are idealised: the normalised stick and
    trigger values are exact rationals, the orientation filter runs on the
    real numbers. *)

From Stdlib Require Import ZArith QArith Reals Lra Lia Bool.
From stdpp Require Import gmap strings list fin_maps pretty.

Local Open Scope Z_scope.

(** ** Exceptions *)

(** The Python exceptions that the modelled code can meet. *)
Inductive exception : Type :=
  | IndexError
  | StructError
  | UnicodeDecodeError
  | JSONDecodeError
  | AttributeError
  | BlockingIOError
  | ZeroDivisionError
  | OtherException (what : string).

Inductive result (A : Type) : Type :=
  | Ok (a : A)
  | Raise (e : exception).
Arguments Ok {A} a.
Arguments Raise {A} e.

#[global] Instance result_ret : MRet result := fun A a => Ok a.
#[global] Instance result_bind : MBind result := fun A B f m =>
  match m with
  | Ok a => f a
  | Raise e => Raise e
  end.

(** [bool(x)] for a Python integer. *)
Definition truthy (z : Z) : bool := negb (z =? 0).

(** ** controller/data_parser.py *)

Module DS4DataParser.

Record Stick := { stick_x : Q; stick_y : Q; raw_x : Z; raw_y : Z }.
Record Trigger := { value : Q; raw : Z }.
Record Vec3 := { vec_x : Z; vec_y : Z; vec_z : Z }.
Record Touchpad := { active : bool; id : Z; touch_x : Z; touch_y : Z }.

(** The dictionary built by [parse_controller_data]. *)
Record ControllerData := {
  left_stick : Stick;
  right_stick : Stick;
  l2 : Trigger;
  r2 : Trigger;
  buttons : gmap string bool;
  dpad : string;
  dpad_raw : Z;
  ps_button : bool;
  touchpad_pressed : bool;
  gyro : Vec3;
  accelerometer : Vec3;
  touchpad : Touchpad;
  battery : Z
}.

(** [DPAD_STATES] *)
Definition DPAD_STATES : gmap Z string :=
  list_to_map
    [ (8, "none"); (0, "up"); (1, "ne"); (2, "right"); (3, "se");
      (4, "down"); (5, "sw"); (6, "left"); (7, "nw") ]%string.

Definition byte_val (b : Byte.byte) : Z := Z.of_N (Byte.to_N b).

(** [report[i]]: raises [IndexError] past the end. *)
Definition getitem (report : list Byte.byte) (i : nat) : result Z :=
  match report !! i with
  | Some b => Ok (byte_val b)
  | None => Raise IndexError
  end.

(** [report[a:b]] for [0 <= a <= b]: never raises, may come out short. *)
Definition slice (report : list Byte.byte) (a b : nat) : list Byte.byte :=
  take (b - a) (drop a report).

(** [struct.unpack('<h', bs)[0]]: little-endian signed 16-bit; raises
    [struct.error] unless [bs] has exactly two bytes. *)
Definition unpack_h (bs : list Byte.byte) : result Z :=
  match bs with
  | [lo; hi] =>
      let u := Z.lor (byte_val lo) (Z.shiftl (byte_val hi) 8) in
      Ok (if Z.testbit u 15 then u - 65536 else u)
  | _ => Raise StructError
  end.

Definition normalize_stick (v : Z) : Q := ((v - 128) # 128)%Q.
Definition normalize_trigger (v : Z) : Q := (v # 255)%Q.

Definition parse_controller_data (report : list Byte.byte) : result ControllerData :=
  lx ← getitem report 1;
  ly ← getitem report 2;
  rx ← getitem report 3;
  ry ← getitem report 4;
  l2v ← getitem report 8;
  r2v ← getitem report 9;
  button_byte1 ← getitem report 5;
  button_byte2 ← getitem report 6;
  let btns : gmap string bool :=
    list_to_map
      [ ("square", truthy (Z.land button_byte1 0x10));
        ("cross", truthy (Z.land button_byte1 0x20));
        ("circle", truthy (Z.land button_byte1 0x40));
        ("triangle", truthy (Z.land button_byte1 0x80));
        ("l1", truthy (Z.land button_byte2 0x01));
        ("r1", truthy (Z.land button_byte2 0x02));
        ("l2_pressed", truthy (Z.land button_byte2 0x04));
        ("r2_pressed", truthy (Z.land button_byte2 0x08));
        ("share", truthy (Z.land button_byte2 0x10));
        ("options", truthy (Z.land button_byte2 0x20));
        ("l3", truthy (Z.land button_byte2 0x40));
        ("r3", truthy (Z.land button_byte2 0x80)) ]%string in
  let dpad_code := Z.land button_byte1 0x0F in
  b7 ← getitem report 7;
  gx ← unpack_h (slice report 13 15);
  gy ← unpack_h (slice report 15 17);
  gz ← unpack_h (slice report 17 19);
  ax ← unpack_h (slice report 19 21);
  ay ← unpack_h (slice report 21 23);
  az ← unpack_h (slice report 23 25);
  tp ← (if decide (35 < length report)%nat then
          b35 ← getitem report 35;
          b35' ← getitem report 35;
          tx ← unpack_h (slice report 36 38);
          ty ← unpack_h (slice report 38 40);
          mret {| active := truthy (Z.land b35 0x80);
                  id := Z.land b35' 0x7F;
                  touch_x := tx;
                  touch_y := ty |}
        else
          mret {| active := false; id := 0; touch_x := 0; touch_y := 0 |});
  bat ← (if decide (30 < length report)%nat then
           b30 ← getitem report 30;
           mret (Z.land b30 0x0F)
         else mret 0);
  mret {| left_stick := {| stick_x := normalize_stick lx;
                           stick_y := normalize_stick ly;
                           raw_x := lx; raw_y := ly |};
          right_stick := {| stick_x := normalize_stick rx;
                            stick_y := normalize_stick ry;
                            raw_x := rx; raw_y := ry |};
          l2 := {| value := normalize_trigger l2v; raw := l2v |};
          r2 := {| value := normalize_trigger r2v; raw := r2v |};
          buttons := btns;
          dpad := default "none"%string (DPAD_STATES !! dpad_code);
          dpad_raw := dpad_code;
          ps_button := truthy (Z.land b7 0x01);
          touchpad_pressed := truthy (Z.land b7 0x02);
          gyro := {| vec_x := gx; vec_y := gy; vec_z := gz |};
          accelerometer := {| vec_x := ax; vec_y := ay; vec_z := az |};
          touchpad := tp;
          battery := bat |}.

(** [validate_report] *)
Definition validate_report (report : list Byte.byte) : bool :=
  if decide (length report < 25)%nat then false else true.

(** *** The edge detector *)

(** [self.previous_digital_state]: the only mutable attribute of a
    [DS4DataParser]. *)
Record DigitalState := {
  prev_buttons : gmap string bool;
  prev_dpad : string
}.

(** The dictionary [changes] of [check_digital_changes]. *)
Record Changes := {
  changed_buttons : gmap string bool;
  changed_dpad : option string
}.

(** [__init__] *)
Definition __init__ : DigitalState :=
  {| prev_buttons := ∅; prev_dpad := "none" |}.

(** [reset_digital_state] *)
Definition reset_digital_state (self : DigitalState) : DigitalState :=
  {| prev_buttons := ∅; prev_dpad := "none" |}.

(** One turn of the loop over [new_data['buttons'].items()]; the
    accumulator is the pair [(changes['buttons'], has_changes)]. *)
Definition button_step (self : DigitalState) (button : string) (is_pressed : bool)
    (acc : gmap string bool * bool) : gmap string bool * bool :=
  let was_pressed := default false (prev_buttons self !! button) in
  if is_pressed && negb was_pressed
  then (<[button := true]> acc.1, true)
  else acc.

(** [check_digital_changes]: the returned value ([None] or the change
    dictionary) and the parser after the call. *)
Definition check_digital_changes (self : DigitalState) (new_data : ControllerData)
    : option Changes * DigitalState :=
  let '(btn_changes, has_changes) :=
    map_fold (button_step self) (∅, false) (buttons new_data) in
  let current_dpad := dpad new_data in
  let previous_dpad := prev_dpad self in
  let '(dpad_change, has_changes) :=
    if bool_decide (current_dpad ≠ "none") && bool_decide (current_dpad ≠ previous_dpad)
    then (Some current_dpad, true)
    else (None, has_changes) in
  let self' := {| prev_buttons := buttons new_data; prev_dpad := dpad new_data |} in
  (if has_changes
   then Some {| changed_buttons := btn_changes; changed_dpad := dpad_change |}
   else None,
   self').

(** Feeding a sequence of snapshots to one parser, collecting what each
    call returns. *)
Fixpoint run (self : DigitalState) (snapshots : list ControllerData)
    : list (option Changes) * DigitalState :=
  match snapshots with
  | [] => ([], self)
  | d :: rest =>
      let '(out, self') := check_digital_changes self d in
      let '(outs, self'') := run self' rest in
      (out :: outs, self'')
  end.

(** The test of the button loop: [is_pressed and not was_pressed]. *)
Definition rising_edge (self : DigitalState) (new_buttons : gmap string bool)
    (button : string) : bool :=
  match new_buttons !! button with
  | Some is_pressed => is_pressed && negb (default false (prev_buttons self !! button))
  | None => false
  end.

(** The test of the d-pad:
    [current_dpad != 'none' and current_dpad != previous_dpad]. *)
Definition dpad_edge (self : DigitalState) (current_dpad : string) : bool :=
  bool_decide (current_dpad ≠ "none"%string) && bool_decide (current_dpad ≠ prev_dpad self).

(** "A press of [button] is reported" by a returned value. *)
Definition reports_press (out : option Changes) (button : string) : Prop :=
  ∃ c, out = Some c ∧ changed_buttons c !! button = Some true.

(** "A d-pad press of direction [d] is reported". *)
Definition reports_dpad (out : option Changes) (d : string) : Prop :=
  ∃ c, out = Some c ∧ changed_dpad c = Some d.

(** *** The order of the keys *)

(** A Python dictionary lists its keys in the order of their insertion.
    The keys of [data['buttons']], in the order of the dictionary display
    in [parse_controller_data]. *)
Definition button_keys : list string :=
  [ "square"; "cross"; "circle"; "triangle"; "l1"; "r1"; "l2_pressed"; "r2_pressed";
    "share"; "options"; "l3"; "r3" ]%string.

(** The keys of [changes['buttons']] in their order after the loop of
    [check_digital_changes], [keys] being those of [new_data['buttons']]
    in theirs: the loop visits the buttons in that order and inserts the
    ones that pass its test. *)
Definition changed_keys (keys : list string) (self : DigitalState) (new_data : ControllerData)
    : list string :=
  filter (λ button, rising_edge self (buttons new_data) button = true) keys.

(** *** The query helpers *)

(** [is_button_pressed]: [data['buttons'].get(button_name, False)] *)
Definition is_button_pressed (data : ControllerData) (button_name : string) : bool :=
  default false (buttons data !! button_name).

(** [is_any_button_pressed]: [any(data['buttons'].values())] *)
Definition is_any_button_pressed (data : ControllerData) : bool :=
  existsb (λ kv, kv.2) (map_to_list (buttons data)).

(** [get_pressed_buttons]: the names whose value is true, here in the
    order in which the finite map enumerates its keys (Python lists them
    in insertion order). *)
Definition get_pressed_buttons (data : ControllerData) : list string :=
  (List.filter (λ kv, kv.2) (map_to_list (buttons data))).*1.

(** [is_dpad_pressed] *)
Definition is_dpad_pressed (data : ControllerData) : bool :=
  bool_decide (dpad data ≠ "none"%string).

(** [get_dpad_direction] *)
Definition get_dpad_direction (data : ControllerData) : string := dpad data.

(** The dictionary returned by [get_report_info]. *)
Record ReportInfo := {
  info_length : nat;
  is_valid : bool;
  has_touchpad : bool;
  has_battery : bool
}.

(** [get_report_info] *)
Definition get_report_info (report : list Byte.byte) : ReportInfo :=
  {| info_length := length report;
     is_valid := validate_report report;
     has_touchpad := bool_decide (35 < length report)%nat;
     has_battery := bool_decide (30 < length report)%nat |}.

(** The byte and the bit that [parse_controller_data] tests for each
    button: the masks 0x10 .. 0x80 of byte 5 and 0x01 .. 0x80 of byte 6. *)
Definition button_bits : list (string * (nat * Z)) :=
  [ ("square", (5%nat, 4)); ("cross", (5%nat, 5)); ("circle", (5%nat, 6));
    ("triangle", (5%nat, 7));
    ("l1", (6%nat, 0)); ("r1", (6%nat, 1)); ("l2_pressed", (6%nat, 2));
    ("r2_pressed", (6%nat, 3)); ("share", (6%nat, 4)); ("options", (6%nat, 5));
    ("l3", (6%nat, 6)); ("r3", (6%nat, 7)) ]%string.

(** The direction names in the order of their d-pad codes 0 .. 7. *)
Definition dpad_names : list string :=
  [ "up"; "ne"; "right"; "se"; "down"; "sw"; "left"; "nw" ]%string.

(** *** The decoded snapshot in closed form *)

(** Byte [i] of the report as a number (0 past the end), and the signed
    16-bit number whose two's complement is stored low byte first at
    offsets [i], [i + 1]. *)
Definition byte_at (report : list Byte.byte) (i : nat) : Z :=
  default 0 (byte_val <$> report !! i).

Definition int16_at (report : list Byte.byte) (i : nat) : Z :=
  let u := byte_at report i + 256 * byte_at report (S i) in
  if bool_decide (32768 ≤ u) then u - 65536 else u.

(** What [parse_controller_data] returns when no subscript and no
    [struct.unpack] raises, every field written as arithmetic on the
    report's bytes ([parse_controller_data_decoded] below). *)
Definition decoded (report : list Byte.byte) : ControllerData :=
  {| left_stick := {| stick_x := normalize_stick (byte_at report 1);
                      stick_y := normalize_stick (byte_at report 2);
                      raw_x := byte_at report 1; raw_y := byte_at report 2 |};
     right_stick := {| stick_x := normalize_stick (byte_at report 3);
                       stick_y := normalize_stick (byte_at report 4);
                       raw_x := byte_at report 3; raw_y := byte_at report 4 |};
     l2 := {| value := normalize_trigger (byte_at report 8); raw := byte_at report 8 |};
     r2 := {| value := normalize_trigger (byte_at report 9); raw := byte_at report 9 |};
     buttons :=
       list_to_map
         ((λ '(name, (i, k)), (name, Z.testbit (byte_at report i) k)) <$> button_bits);
     dpad := default "none"%string
               (dpad_names !! Z.to_nat (byte_at report 5 `mod` 16));
     dpad_raw := byte_at report 5 `mod` 16;
     ps_button := Z.testbit (byte_at report 7) 0;
     touchpad_pressed := Z.testbit (byte_at report 7) 1;
     gyro := {| vec_x := int16_at report 13; vec_y := int16_at report 15;
                vec_z := int16_at report 17 |};
     accelerometer := {| vec_x := int16_at report 19; vec_y := int16_at report 21;
                         vec_z := int16_at report 23 |};
     touchpad :=
       if bool_decide (35 < length report)%nat
       then {| active := Z.testbit (byte_at report 35) 7;
               id := byte_at report 35 `mod` 128;
               touch_x := int16_at report 36;
               touch_y := int16_at report 38 |}
       else {| active := false; id := 0; touch_x := 0; touch_y := 0 |};
     battery :=
       if bool_decide (30 < length report)%nat
       then byte_at report 30 `mod` 16 else 0 |}.

(** The ranges of the decoded numbers. *)
Definition is_byte (z : Z) : Prop := 0 ≤ z ≤ 255.
Definition is_int16 (z : Z) : Prop := -32768 ≤ z ≤ 32767.

End DS4DataParser.

Import DS4DataParser.


(** ** gui/tabs/rumble_tab.py *)

Module RumbleTab.

(** The dictionary returned by [get_tactile_settings]; the attributes of
    the same names hold the values. *)
Record TactileSettings := {
  enabled : bool;
  threshold1_enabled : bool;
  threshold1_value : Z;
  threshold2_enabled : bool;
  threshold2_value : Z;
  threshold3_enabled : bool;
  threshold3_value : Z;
  duration : Z;
  intensity : Z
}.

(** The attributes of a [RumbleTab] that the tactile feedback reads and
    writes.  [rumble_callbacks] is the set of keys of the call-back
    dictionary. *)
Record t := {
  tactile : TactileSettings;
  prev_l2_value : Z;
  prev_r2_value : Z;
  l2_last_rumble_threshold : option Z;
  r2_last_rumble_threshold : option Z;
  hysteresis_margin : Z;
  rumble_callbacks : gset string
}.

(** [__init__], given the call-back dictionary's keys. *)
Definition __init__ (callbacks : gset string) : t :=
  {| tactile := {| enabled := false;
                   threshold1_enabled := true; threshold1_value := 64;
                   threshold2_enabled := true; threshold2_value := 128;
                   threshold3_enabled := true; threshold3_value := 192;
                   duration := 50; intensity := 255 |};
     prev_l2_value := 0;
     prev_r2_value := 0;
     l2_last_rumble_threshold := None;
     r2_last_rumble_threshold := None;
     hysteresis_margin := 2;
     rumble_callbacks := callbacks |}.

Definition get_tactile_settings (self : t) : TactileSettings := tactile self.

Definition set_prev_l2_value (v : Z) (self : t) : t :=
  {| tactile := tactile self;
     prev_l2_value := v;
     prev_r2_value := prev_r2_value self;
     l2_last_rumble_threshold := l2_last_rumble_threshold self;
     r2_last_rumble_threshold := r2_last_rumble_threshold self;
     hysteresis_margin := hysteresis_margin self;
     rumble_callbacks := rumble_callbacks self |}.

Definition set_prev_r2_value (v : Z) (self : t) : t :=
  {| tactile := tactile self;
     prev_l2_value := prev_l2_value self;
     prev_r2_value := v;
     l2_last_rumble_threshold := l2_last_rumble_threshold self;
     r2_last_rumble_threshold := r2_last_rumble_threshold self;
     hysteresis_margin := hysteresis_margin self;
     rumble_callbacks := rumble_callbacks self |}.

(** The same tab with another value of [self.hysteresis_margin]. *)
Definition with_hysteresis_margin (margin : Z) (self : t) : t :=
  {| tactile := tactile self;
     prev_l2_value := prev_l2_value self;
     prev_r2_value := prev_r2_value self;
     l2_last_rumble_threshold := l2_last_rumble_threshold self;
     r2_last_rumble_threshold := r2_last_rumble_threshold self;
     hysteresis_margin := margin;
     rumble_callbacks := rumble_callbacks self |}.

(** [_on_toggle_tactile_feedback], [checked] being the check box's value. *)
Definition _on_toggle_tactile_feedback (checked : bool) (self : t) : t :=
  {| tactile := {| enabled := checked;
                   threshold1_enabled := threshold1_enabled (tactile self);
                   threshold1_value := threshold1_value (tactile self);
                   threshold2_enabled := threshold2_enabled (tactile self);
                   threshold2_value := threshold2_value (tactile self);
                   threshold3_enabled := threshold3_enabled (tactile self);
                   threshold3_value := threshold3_value (tactile self);
                   duration := duration (tactile self);
                   intensity := intensity (tactile self) |};
     prev_l2_value := prev_l2_value self;
     prev_r2_value := prev_r2_value self;
     l2_last_rumble_threshold := l2_last_rumble_threshold self;
     r2_last_rumble_threshold := r2_last_rumble_threshold self;
     hysteresis_margin := hysteresis_margin self;
     rumble_callbacks := rumble_callbacks self |}.

(** [_on_threshold2_enabled], [checked] being the check box's value. *)
Definition _on_threshold2_enabled (checked : bool) (self : t) : t :=
  {| tactile := {| enabled := enabled (tactile self);
                   threshold1_enabled := threshold1_enabled (tactile self);
                   threshold1_value := threshold1_value (tactile self);
                   threshold2_enabled := checked;
                   threshold2_value := threshold2_value (tactile self);
                   threshold3_enabled := threshold3_enabled (tactile self);
                   threshold3_value := threshold3_value (tactile self);
                   duration := duration (tactile self);
                   intensity := intensity (tactile self) |};
     prev_l2_value := prev_l2_value self;
     prev_r2_value := prev_r2_value self;
     l2_last_rumble_threshold := l2_last_rumble_threshold self;
     r2_last_rumble_threshold := r2_last_rumble_threshold self;
     hysteresis_margin := hysteresis_margin self;
     rumble_callbacks := rumble_callbacks self |}.

(** [self.l2_last_rumble_threshold if trigger == 'l2' else
    self.r2_last_rumble_threshold] *)
Definition last_rumble_threshold (self : t) (trigger : string) : option Z :=
  if String.eqb trigger "l2"
  then l2_last_rumble_threshold self
  else r2_last_rumble_threshold self.

(** The assignment under [if trigger == 'l2': ... else: ...]. *)
Definition set_last_rumble_threshold (trigger : string) (v : option Z) (self : t) : t :=
  if String.eqb trigger "l2" then
    {| tactile := tactile self;
       prev_l2_value := prev_l2_value self;
       prev_r2_value := prev_r2_value self;
       l2_last_rumble_threshold := v;
       r2_last_rumble_threshold := r2_last_rumble_threshold self;
       hysteresis_margin := hysteresis_margin self;
       rumble_callbacks := rumble_callbacks self |}
  else
    {| tactile := tactile self;
       prev_l2_value := prev_l2_value self;
       prev_r2_value := prev_r2_value self;
       l2_last_rumble_threshold := l2_last_rumble_threshold self;
       r2_last_rumble_threshold := v;
       hysteresis_margin := hysteresis_margin self;
       rumble_callbacks := rumble_callbacks self |}.

(** The list [thresholds] of enabled [(number, value)] pairs. *)
Definition thresholds (self : t) : list (Z * Z) :=
  (if threshold1_enabled (tactile self) then [(1, threshold1_value (tactile self))] else []) ++
  (if threshold2_enabled (tactile self) then [(2, threshold2_value (tactile self))] else []) ++
  (if threshold3_enabled (tactile self) then [(3, threshold3_value (tactile self))] else []).

(** The body of the loop of [_check_threshold_crossing].  The first
    component of the accumulator lists the calls
    [self._trigger_tactile_feedback(trigger, threshold_num)] made so far. *)
Definition crossing_step (trigger : string) (current_value prev_value : Z)
    (acc : list (string * Z) * t) (th : Z * Z) : list (string * Z) * t :=
  let '(fired, self) := acc in
  let '(threshold_num, threshold_value) := th in
  if (prev_value <? threshold_value) && (threshold_value <=? current_value) then
    let last_threshold := last_rumble_threshold self trigger in
    if bool_decide (last_threshold ≠ Some threshold_num)
    then (fired ++ [(trigger, threshold_num)],
          set_last_rumble_threshold trigger (Some threshold_num) self)
    else (fired, self)
  else if (current_value <? threshold_value) && (threshold_value <=? prev_value) then
    (fired, set_last_rumble_threshold trigger None self)
  else (fired, self).

(** [_check_threshold_crossing] *)
Definition _check_threshold_crossing (self : t) (trigger : string)
    (current_value prev_value : Z) : list (string * Z) * t :=
  foldl (crossing_step trigger current_value prev_value) ([], self) (thresholds self).

(** [check_tactile_feedback] *)
Definition check_tactile_feedback (self : t) (l2_value r2_value : Z)
    : list (string * Z) * t :=
  if negb (enabled (tactile self)) then ([], self)
  else
    let '(fired_l2, self) :=
      _check_threshold_crossing self "l2" l2_value (prev_l2_value self) in
    let self := set_prev_l2_value l2_value self in
    let '(fired_r2, self) :=
      _check_threshold_crossing self "r2" r2_value (prev_r2_value self) in
    let self := set_prev_r2_value r2_value self in
    (fired_l2 ++ fired_r2, self).

(** [_trigger_tactile_feedback]: the arguments handed to the call-back
    registered under ['trigger_tactile_feedback'], if there is one. *)
Definition _trigger_tactile_feedback (self : t) (trigger : string) (threshold_num : Z)
    : list string :=
  if bool_decide ("trigger_tactile_feedback"%string ∈ rumble_callbacks self)
  then [trigger]
  else [].

(** What a scan for [trigger] leaves alone: the settings, the call-backs,
    both previous values and the other trigger's last-fired threshold; and
    it fires requests for [trigger] only. *)
Definition scan_frame (trigger : string) (acc r : list (string * Z) * t) : Prop :=
  tactile r.2 = tactile acc.2
  ∧ rumble_callbacks r.2 = rumble_callbacks acc.2
  ∧ prev_l2_value r.2 = prev_l2_value acc.2
  ∧ prev_r2_value r.2 = prev_r2_value acc.2
  ∧ (Forall (λ p, p.1 = trigger) acc.1 → Forall (λ p, p.1 = trigger) r.1)
  ∧ (if String.eqb trigger "l2"
     then r2_last_rumble_threshold r.2 = r2_last_rumble_threshold acc.2
     else l2_last_rumble_threshold r.2 = l2_last_rumble_threshold acc.2).

(** The crossing test and the hysteresis rule in the words of the
    specification (section 4.4), to compare the code with:
    [crossed = (prev < T && cur >= T) || (prev > T && cur <= T)], and a
    crossing fires unless the threshold is the trigger's last-fired one and
    [|cur - T|] is below the margin. *)
Definition spec_crossed (prev_value current_value threshold_value : Z) : Prop :=
  (prev_value < threshold_value ∧ current_value >= threshold_value)
  ∨ (prev_value > threshold_value ∧ current_value <= threshold_value).

Definition spec_suppressed (last_threshold : option Z)
    (threshold_num current_value threshold_value margin : Z) : Prop :=
  last_threshold = Some threshold_num
  ∧ Z.abs (current_value - threshold_value) < margin.

(** The state in which the last-fired bookkeeping cannot hide a crossing:
    a trigger's last-fired threshold, if it is enabled, lies at or below
    the trigger's previous value, so the trigger cannot cross it upwards
    before it has gone below it (which clears the bookkeeping). *)
Definition armed (self : t) : Prop :=
  (∀ threshold_num threshold_value,
     l2_last_rumble_threshold self = Some threshold_num →
     (threshold_num, threshold_value) ∈ thresholds self →
     threshold_value ≤ prev_l2_value self)
  ∧ (∀ threshold_num threshold_value,
       r2_last_rumble_threshold self = Some threshold_num →
       (threshold_num, threshold_value) ∈ thresholds self →
       threshold_value ≤ prev_r2_value self).

(** The requests that the upward crossings of the enabled thresholds
    call for, in the order of the scan. *)
Definition upward_crossings (self : t) (trigger : string) (current_value prev_value : Z)
    : list (string * Z) :=
  (λ th : Z * Z, (trigger, th.1))
    <$> filter (λ th : Z * Z, prev_value < th.2 ≤ current_value) (thresholds self).

End RumbleTab.

(** ** gui/main_window.py *)

Module DS4ControlUI.

(** What reaches the device and the Tk scheduler. *)
Inductive effect : Type :=
  | HidWrite (report : list Z)
  | After (ms : Z) (callback : string).

(** [set_rumble_simple]: the first argument is the strong (left) motor,
    as [RumbleTab._on_apply_rumble] passes [strong_rumble, weak_rumble].
    This is the report written for motor values in 0 .. 255; for others
    [bytes(report)] raises and nothing is written, see
    [MainWindow.set_rumble_simple]. *)
Definition set_rumble_simple (left_rumble right_rumble : Z) : list effect :=
  [HidWrite ([0x05; 0xFF; 0x04; 0x00; left_rumble; right_rumble; 0; 0; 0] ++ replicate 23 0)].

(** [trigger_tactile_feedback] *)
Definition trigger_tactile_feedback (rumble_tab_modular : RumbleTab.t) (trigger : string)
    : list effect :=
  let rumble_settings := RumbleTab.get_tactile_settings rumble_tab_modular in
  (if String.eqb trigger "L2"
   then set_rumble_simple (RumbleTab.intensity rumble_settings) 0
   else set_rumble_simple 0 (RumbleTab.intensity rumble_settings))
  ++ [After (RumbleTab.duration rumble_settings) "stop_tactile_feedback"].

(** The keys of the dictionary that [create_widgets] hands to the
    [RumbleTab]. *)
Definition rumble_callbacks : gset string :=
  {[ "set_rumble_simple"; "set_rumble_0x11";
     "trigger_tactile_feedback"; "stop_tactile_feedback" ]}%string.

(** The tactile part of [update_visualizations]:
    [rumble_tab_modular.check_tactile_feedback(data['l2']['raw'],
    data['r2']['raw'])], every fired request running the call-back, for
    call-backs that return; [MainWindow.check_tactile_feedback] has the
    exceptions. *)
Definition update_tactile (rumble_tab_modular : RumbleTab.t) (data : ControllerData)
    : list effect * RumbleTab.t :=
  let '(fired, tab) :=
    RumbleTab.check_tactile_feedback rumble_tab_modular (raw (l2 data)) (raw (r2 data)) in
  (mbind (M := list)
     (λ '(trigger, threshold_num),
        mbind (M := list) (trigger_tactile_feedback tab)
          (RumbleTab._trigger_tactile_feedback tab trigger threshold_num))
     fired,
   tab).

(** The window's parser together with the profile selected in the
    mapping frame ([mapping_config_frame.active_profile_name]). *)
Record App := {
  active_profile_name : string;
  data_parser : DigitalState
}.

(** [DS4ControlUI.__init__]: a fresh parser; [MappingConfigFrame] starts
    on the profile ["Default"]. *)
Definition __init__ : App :=
  {| active_profile_name := "Default"; data_parser := DS4DataParser.__init__ |}.

(** [MappingConfigFrame.on_profile_listbox_select] *)
Definition on_profile_listbox_select (name : string) (app : App) : App :=
  {| active_profile_name := name; data_parser := data_parser app |}.

(** The line
    [digital_changes = self.data_parser.check_digital_changes(controller_data)]
    of [poll_controller]. *)
Definition poll_digital_changes (app : App) (controller_data : ControllerData)
    : option Changes * App :=
  let '(digital_changes, parser) := check_digital_changes (data_parser app) controller_data in
  (digital_changes,
   {| active_profile_name := active_profile_name app; data_parser := parser |}).

End DS4ControlUI.

(** ** gui/tabs/visualization_tab.py *)

Module VisualizationTab.

Local Open Scope R_scope.

(** A dictionary with the keys ['roll'], ['pitch'] and ['yaw']:
    [orientation] and [orientation_offset] hold angles, [axis_locks]
    holds flags. *)
Record Axes (A : Type) := { roll : A; pitch : A; yaw : A }.
Arguments roll {A} _.
Arguments pitch {A} _.
Arguments yaw {A} _.

Record t := {
  orientation : Axes R;
  orientation_offset : Axes R;
  last_time : R;
  axis_locks : Axes bool;
  alpha : R;
  gyro_sensitivity : R;
  damping_factor : R
}.

(** [__init__], created at wall-clock time [now]. *)
Definition __init__ (now : R) : t :=
  {| orientation := {| roll := 0; pitch := 0; yaw := 0 |};
     orientation_offset := {| roll := 0; pitch := 0; yaw := 0 |};
     last_time := now;
     axis_locks := {| roll := false; pitch := false; yaw := false |};
     alpha := 95 / 100;
     gyro_sensitivity := 500;
     damping_factor := 95 / 100 |}.

#[global] Instance Rlt_decision (x y : R) : Decision (x < y) := Rlt_dec x y.

(** [np.arctan2(y, x)] *)
Definition arctan2 (y x : R) : R :=
  if Rlt_dec 0 x then atan (y / x)
  else if Rlt_dec x 0 then
    if Rle_dec 0 y then atan (y / x) + PI else atan (y / x) - PI
  else if Rlt_dec 0 y then PI / 2
  else if Rlt_dec y 0 then - (PI / 2)
  else 0.

(** [np.radians] *)
Definition radians (deg : R) : R := deg * (PI / 180).

(** [x / y] for a Python integer [x] and a Python number [y]. *)
Definition py_div (x : Z) (y : R) : result R :=
  if Req_dec_T y 0 then Raise ZeroDivisionError else Ok (IZR x / y).

(** The angles handed to the drawing code by [update_gyro_triangle]:
    the orientation less the captured offset. *)
Definition update_gyro_triangle (self : t) (roll_ pitch_ yaw_ : R) : Axes R :=
  {| roll := roll_ - roll (orientation_offset self);
     pitch := pitch_ - pitch (orientation_offset self);
     yaw := yaw_ - yaw (orientation_offset self) |}.

Definition set_orientation (o : Axes R) (self : t) : t :=
  {| orientation := o;
     orientation_offset := orientation_offset self;
     last_time := last_time self;
     axis_locks := axis_locks self;
     alpha := alpha self;
     gyro_sensitivity := gyro_sensitivity self;
     damping_factor := damping_factor self |}.

Definition set_last_time (now : R) (self : t) : t :=
  {| orientation := orientation self;
     orientation_offset := orientation_offset self;
     last_time := now;
     axis_locks := axis_locks self;
     alpha := alpha self;
     gyro_sensitivity := gyro_sensitivity self;
     damping_factor := damping_factor self |}.

(** [update_orientation_with_fusion] with [update_triangle=True], the
    clock reading [time.time()] being the argument [current_time].
    Returns the tab after the call and the angles that were drawn. *)
Definition update_orientation_with_fusion (self : t)
    (gyro_x gyro_y gyro_z accel_x accel_y accel_z : Z) (current_time : R)
    : result (t * Axes R) :=
  let dt := current_time - last_time self in
  let self := set_last_time current_time self in
  let alpha_ := alpha self in
  let accel_roll := arctan2 (IZR accel_y) (IZR accel_z) in
  let accel_pitch :=
    arctan2 (IZR (- accel_x)) (sqrt (IZR (accel_y ^ 2 + accel_z ^ 2))) in
  qx ← py_div gyro_x (gyro_sensitivity self);
  let gyro_roll_rate := radians qx in
  qz ← py_div gyro_z (gyro_sensitivity self);
  let gyro_pitch_rate := radians qz in
  qy ← py_div gyro_y (gyro_sensitivity self);
  let gyro_yaw_rate := radians qy in
  let o := orientation self in
  let o :=
    if negb (roll (axis_locks self))
    then {| roll := alpha_ * (roll o + gyro_roll_rate * dt) + (1 - alpha_) * accel_roll;
            pitch := pitch o; yaw := yaw o |}
    else o in
  let o :=
    if negb (pitch (axis_locks self))
    then {| roll := roll o;
            pitch := alpha_ * (pitch o + gyro_pitch_rate * dt) + (1 - alpha_) * accel_pitch;
            yaw := yaw o |}
    else o in
  let o :=
    if negb (yaw (axis_locks self))
    then {| roll := roll o; pitch := pitch o; yaw := yaw o + gyro_yaw_rate * dt |}
    else o in
  let damping := damping_factor self in
  let o :=
    if bool_decide (Rabs gyro_roll_rate < 1 / 100) && negb (roll (axis_locks self))
    then {| roll := roll o * damping; pitch := pitch o; yaw := yaw o |}
    else o in
  let o :=
    if bool_decide (Rabs gyro_pitch_rate < 1 / 100) && negb (pitch (axis_locks self))
    then {| roll := roll o; pitch := pitch o * damping; yaw := yaw o |}
    else o in
  let self := set_orientation o self in
  mret (self, update_gyro_triangle self (roll o) (pitch o) (yaw o)).

(** [_set_neutral_orientation]: the tab after the capture and the angles
    drawn by its call of [update_gyro_triangle]. *)
Definition _set_neutral_orientation (self : t) : t * Axes R :=
  let self :=
    {| orientation := orientation self;
       orientation_offset :=
         {| roll := roll (orientation self);
            pitch := pitch (orientation self);
            yaw := yaw (orientation self) |};
       last_time := last_time self;
       axis_locks := axis_locks self;
       alpha := alpha self;
       gyro_sensitivity := gyro_sensitivity self;
       damping_factor := damping_factor self |} in
  (self,
   update_gyro_triangle self
     (roll (orientation self)) (pitch (orientation self)) (yaw (orientation self))).

(** The motion readings of one snapshot and the clock reading of the call
    of [update_orientation_with_fusion] that processes it. *)
Record Reading := {
  reading_gyro : Vec3;
  reading_accel : Vec3;
  reading_time : R
}.

(** [update_visualizations] called on one snapshot after the other: the
    tab after the last call, or the exception of the first call that
    raises. *)
Fixpoint run_fusion (self : t) (readings : list Reading) : result t :=
  match readings with
  | [] => mret self
  | reading :: rest =>
      r ← update_orientation_with_fusion self
             (vec_x (reading_gyro reading)) (vec_y (reading_gyro reading))
             (vec_z (reading_gyro reading))
             (vec_x (reading_accel reading)) (vec_y (reading_accel reading))
             (vec_z (reading_accel reading))
             (reading_time reading);
      run_fusion r.1 rest
  end.

(** [rotate_point], the local function of [update_gyro_triangle]: yaw
    about the z axis, then roll about the x axis, then pitch about the y
    axis, each only when the angle exceeds 0.001 in absolute value. *)
Definition rotate_point (point : R * R * R) (roll_ pitch_ yaw_ : R) : R * R * R :=
  let '(x, y, z) := point in
  let '(x, y) :=
    if bool_decide (1 / 1000 < Rabs yaw_)
    then (x * cos yaw_ - y * sin yaw_, x * sin yaw_ + y * cos yaw_)
    else (x, y) in
  let '(y, z) :=
    if bool_decide (1 / 1000 < Rabs roll_)
    then (y * cos roll_ - z * sin roll_, y * sin roll_ + z * cos roll_)
    else (y, z) in
  let '(x, z) :=
    if bool_decide (1 / 1000 < Rabs pitch_)
    then (x * cos pitch_ + z * sin pitch_, - x * sin pitch_ + z * cos pitch_)
    else (x, z) in
  (x, y, z).

(** *** The axis locks *)

(** The three keys of [axis_locks], which are the arguments of the three
    lock buttons. *)
Inductive Axis : Type := Roll | Pitch | Yaw.

#[global] Instance Axis_eq_dec : EqDecision Axis.
Proof. solve_decision. Defined.

(** The two attributes that [_toggle_axis_lock] writes: [self.axis_locks]
    and [self.locked_axis]. *)
Record LockState := {
  lock_flags : Axes bool;
  locked_axis : option Axis
}.

(** [__init__]: nothing is locked. *)
Definition unlocked : LockState :=
  {| lock_flags := {| roll := false; pitch := false; yaw := false |};
     locked_axis := None |}.

(** [self.axis_locks[axis]] and [self.axis_locks[axis] = value] *)
Definition get_lock (locks : Axes bool) (axis : Axis) : bool :=
  match axis with
  | Roll => roll locks
  | Pitch => pitch locks
  | Yaw => yaw locks
  end.

Definition set_lock (axis : Axis) (value : bool) (locks : Axes bool) : Axes bool :=
  match axis with
  | Roll => {| roll := value; pitch := pitch locks; yaw := yaw locks |}
  | Pitch => {| roll := roll locks; pitch := value; yaw := yaw locks |}
  | Yaw => {| roll := roll locks; pitch := pitch locks; yaw := value |}
  end.

(** [_toggle_axis_lock] *)
Definition _toggle_axis_lock (axis : Axis) (self : LockState) : LockState :=
  if get_lock (lock_flags self) axis then
    {| lock_flags := set_lock axis false (lock_flags self); locked_axis := None |}
  else
    let cleared := foldl (λ locks other_axis, set_lock other_axis false locks)
                     (lock_flags self) [Roll; Pitch; Yaw] in
    {| lock_flags := set_lock axis true cleared; locked_axis := Some axis |}.

(** [update_from_settings] with a dictionary that has the key
    ['axis_locks']: the flags are replaced, [locked_axis] is left as it
    is. *)
Definition update_from_settings (saved_axis_locks : Axes bool) (self : LockState)
    : LockState :=
  {| lock_flags := saved_axis_locks; locked_axis := locked_axis self |}.

(** At most the axis named by [locked_axis] is locked, and that one is. *)
Definition locks_consistent (self : LockState) : Prop :=
  ∀ axis, get_lock (lock_flags self) axis = bool_decide (locked_axis self = Some axis).

End VisualizationTab.

(** ** network/udp_manager.py *)

Module UDPManager.

(** The values [json.loads] can return. *)
#[local] Set Warnings "-register-all".
Inductive json : Type :=
  | JNull
  | JBool (b : bool)
  | JInt (z : Z)
  | JFloat (q : Q)
  | JString (s : string)
  | JArray (l : list json)
  | JObject (o : gmap string json).

(** What a call of [check_ipc_socket] does to the outside. *)
Inductive effect : Type :=
  | Print (what : string)
  | CallLightbar (r g b : json)
  | CallToggleWindow.

(** A computation that has effects and then returns or raises. *)
Definition io (A : Type) : Type := list effect * result A.

Definition io_ret {A} (a : A) : io A := ([], Ok a).

Definition io_bind {A B} (m : io A) (k : A → io B) : io B :=
  match m with
  | (eff, Ok a) => let '(eff', r) := k a in (eff ++ eff', r)
  | (eff, Raise e) => (eff, Raise e)
  end.

Definition io_raise {A} (e : exception) : io A := ([], Raise e).
Definition io_print (what : string) : io unit := ([Print what], Ok ()).

(** [try: body except <handles>: handler] *)
Definition try_except {A} (body : io A) (handles : exception → bool)
    (handler : exception → io A) : io A :=
  match body with
  | (eff, Raise e) =>
      if handles e then let '(eff', r) := handler e in (eff ++ eff', r)
      else (eff, Raise e)
  | done => done
  end.

(** The two call-back attributes: [None], or a callable whose call
    returns or raises. *)
Record t := {
  toggle_window_callback : option (result unit);
  _lightbar_callback : option (json → json → json → result unit)
}.

(** [value == text] for a string literal [text]. *)
Definition json_eq_str (value : json) (text : string) : bool :=
  match value with
  | JString s => String.eqb s text
  | _ => false
  end.

(** [value.get(key, default)]: only a dictionary has the method. *)
Definition json_get (value : json) (key : string) (default_ : json) : io json :=
  match value with
  | JObject o => io_ret (default default_ (o !! key))
  | _ => io_raise AttributeError
  end.

Section check_ipc_socket.

(** The library functions [bytes.decode('utf-8')] and [json.loads];
    [None] stands for [UnicodeDecodeError] and [JSONDecodeError]. *)
Variable utf8_decode : list Byte.byte → option string.
Variable json_loads : string → option json.

(** The body of the inner [try]. *)
Definition dispatch_json (self : t) (message : string) : io unit :=
  io_bind (match json_loads message with
           | Some v => io_ret v
           | None => io_raise JSONDecodeError
           end) (λ command_data,
  io_bind (json_get command_data "command" JNull) (λ command,
  if json_eq_str command "set_lightbar" then
    match _lightbar_callback self with
    | Some callback =>
        io_bind (json_get command_data "r" (JInt 0)) (λ r,
        io_bind (json_get command_data "g" (JInt 0)) (λ g,
        io_bind (json_get command_data "b" (JInt 0)) (λ b,
        io_bind ([CallLightbar r g b], callback r g b) (λ _,
        io_print "IPC: Lightbar command executed"))))
    | None => io_ret ()
    end
  else io_ret ())).

(** The handler of [except json.JSONDecodeError]. *)
Definition legacy_command (self : t) (message : string) : io unit :=
  if bool_decide (message = "toggle_window"%string) then
    match toggle_window_callback self with
    | Some callback => ([CallToggleWindow], callback)
    | None => io_ret ()
    end
  else io_ret ().

(** [check_ipc_socket], given what [self.ipc_socket.recvfrom(1024)]
    does: return the datagram's payload or raise. *)
Definition check_ipc_socket (self : t) (recvfrom : result (list Byte.byte)) : io unit :=
  try_except
    (io_bind ([], recvfrom) (λ data,
     io_bind (io_print "DEBUG: IPC raw data received") (λ _,
     io_bind (match utf8_decode data with
              | Some message => io_ret message
              | None => io_raise UnicodeDecodeError
              end) (λ message,
     try_except (dispatch_json self message)
       (λ e, match e with JSONDecodeError => true | _ => false end)
       (λ _, legacy_command self message)))))
    (λ _, true)
    (λ e, match e with
          | BlockingIOError => io_ret ()
          | _ => io_print "IPC Socket Error"
          end).

End check_ipc_socket.

(** "[value] is a dictionary whose ['command'] is ['set_lightbar']": the
    one command the JSON branch recognises. *)
Definition is_set_lightbar (value : json) : bool :=
  match value with
  | JObject o =>
      match o !! "command"%string with
      | Some command => json_eq_str command "set_lightbar"
      | None => false
      end
  | _ => false
  end.

(** The call-backs that a call invoked, in order. *)
Definition calls (eff : list effect) : list effect :=
  List.filter (λ e, match e with Print _ => false | _ => true end) eff.

(** *** The outbound events *)

(** The attributes that sending touches.  [udp_queue] lists the packets
    put on the queue and not yet taken by the sender thread, oldest
    first. *)
Record sender := {
  udp_queue : list (list Byte.byte);
  packets_sent : Z;
  packets_saved : Z
}.

(** The dictionary [event] of [send_digital_changes]. *)
Definition press_event (button : string) (timestamp : Q) : json :=
  JObject (list_to_map [ ("event_type", JString "press");
                         ("button", JString button);
                         ("timestamp", JFloat timestamp) ]%string).

(** The name under which [send_digital_changes] reports the d-pad: none
    for [None], the empty string and ['none']. *)
Definition dpad_event_names (changes : Changes) : list string :=
  match changed_dpad changes with
  | Some dpad_direction =>
      if bool_decide (dpad_direction ≠ ""%string)
         && bool_decide (dpad_direction ≠ "none"%string)
      then ["dpad_" +:+ dpad_direction]
      else []
  | None => []
  end.

Section send.

(** [json.dumps] and [str.encode('utf-8')]; neither raises on a
    dictionary of strings and a finite float. *)
Variable json_dumps : json → string.
Variable utf8_encode : string → list Byte.byte.

(** [send_packet]: [put] on the unbounded queue returns. *)
Definition send_packet (data : list Byte.byte) (self : sender) : bool * sender :=
  (true,
   {| udp_queue := udp_queue self ++ [data];
      packets_sent := packets_sent self;
      packets_saved := packets_saved self |}).

(** [send_json] *)
Definition send_json (data : json) (self : sender) : bool * sender :=
  send_packet (utf8_encode (json_dumps data)) self.

(** [d.items()] for a dictionary [d] whose keys, in the order of their
    insertion, are [keys]. *)
Definition dict_items {A : Type} (keys : list string) (d : gmap string A)
    : list (string * A) :=
  omap (λ key, (key,.) <$> d !! key) keys.

(** [send_digital_changes].  [keys] lists the keys of
    [changes['buttons']] in the order of their insertion, which is the
    order in which the loop visits them; [time_time k] is what the [k]-th
    call of [time.time()] made by the call returns.  Nothing in the [try]
    block raises, so the handler that counts [packets_saved] is not
    reached. *)
Definition send_digital_changes (self : sender) (changes : Changes) (keys : list string)
    (time_time : nat → Q) : bool * sender :=
  let '(self, readings) :=
    foldl (λ (acc : sender * nat) (item : string * bool),
             let '(self, readings) := acc in
             let '(button, pressed) := item in
             if pressed
             then ((send_json (press_event button (time_time readings)) self).2, S readings)
             else (self, readings))
      (self, 0%nat) (dict_items keys (changed_buttons changes)) in
  let self :=
    match changed_dpad changes with
    | Some dpad_direction =>
        if bool_decide (dpad_direction ≠ ""%string)
           && bool_decide (dpad_direction ≠ "none"%string)
        then (send_json (press_event ("dpad_" +:+ dpad_direction) (time_time readings))
                self).2
        else self
    | None => self
    end in
  (true,
   {| udp_queue := udp_queue self;
      packets_sent := packets_sent self + 1;
      packets_saved := packets_saved self |}).

End send.

End UDPManager.

(** ** gui/mapping_dialog.py *)

Module MappingConfigFrame.

(** [BUTTON_LABELS] *)
Definition BUTTON_LABELS : gmap string string :=
  list_to_map
    [ ("cross", "Cross"); ("circle", "Circle"); ("square", "Square");
      ("triangle", "Triangle");
      ("l1", "L1"); ("r1", "R1"); ("l2_pressed", "L2 Press"); ("r2_pressed", "R2 Press");
      ("l3", "L3"); ("r3", "R3"); ("share", "Share"); ("options", "Options");
      ("dpad_up", "D-Pad Up"); ("dpad_down", "D-Pad Down");
      ("dpad_left", "D-Pad Left"); ("dpad_right", "D-Pad Right") ]%string.

(** A stored mapping: [{'modifiers': ..., 'key': ...}] or
    [{'bttnamekey': ...}]. *)
Inductive mapping : Type :=
  | KeyMapping (modifiers : gmap string bool) (key : option string)
  | BttMapping (bttnamekey : string).

(** The dictionary of one profile; each of its three keys may be absent. *)
Record profile := {
  buttons_section : option (gmap string mapping);
  dpad_section : option (gmap string mapping);
  lightbar : option (Z * Z * Z)
}.

(** [{"buttons": {}, "dpad": {}}] and [{}] *)
Definition new_profile : profile :=
  {| buttons_section := Some ∅; dpad_section := Some ∅; lightbar := None |}.
Definition empty_profile : profile :=
  {| buttons_section := None; dpad_section := None; lightbar := None |}.

Record t := {
  mappings : gmap string profile;
  active_profile_name : string
}.

(** [__init__], [loaded] being what [load_mappings] returned. *)
Definition __init__ (loaded : gmap string profile) : t :=
  {| mappings := if decide ("Default"%string ∈ dom loaded) then loaded
                 else <["Default"%string := new_profile]> loaded;
     active_profile_name := "Default" |}.

(** [f"Profile_{n}"] *)
Definition profile_name (n : nat) : string := "Profile_" +:+ pretty n.

(** The loop [while new_name in self.mappings] of [add_profile], entered
    with the counter [i]; [fuel] bounds the number of turns. *)
Fixpoint fresh_profile_name (mappings : gmap string profile) (fuel i : nat)
    : option string :=
  let new_name := profile_name (size mappings + i) in
  if decide (new_name ∈ dom mappings) then
    match fuel with
    | O => None
    | S fuel => fresh_profile_name mappings fuel (S i)
    end
  else Some new_name.

(** [delete_profile], [confirmed] being the answer to the dialog. *)
Definition delete_profile (confirmed : bool) (self : t) : result t :=
  if bool_decide (active_profile_name self = "Default"%string) then Ok self
  else if confirmed then
    match mappings self !! active_profile_name self with
    | Some _ =>
        Ok {| mappings := delete (active_profile_name self) (mappings self);
              active_profile_name := "Default" |}
    | None => Raise (OtherException "KeyError")
    end
  else Ok self.

(** [on_profile_listbox_select], [selection] being the name of the first
    selected entry of the list box, if any. *)
Definition on_profile_listbox_select (selection : option string) (self : t) : t :=
  match selection with
  | Some name => {| mappings := mappings self; active_profile_name := name |}
  | None => self
  end.

(** [add_profile]: [None] when the loop is still running after [fuel]
    turns.  The new name is a key of the dictionary, so the closing loop
    finds it, selects its row and calls [on_profile_listbox_select] once;
    [selection] is what the list box then reports as its first selected
    entry. *)
Definition add_profile (fuel : nat) (selection : option string) (self : t) : option t :=
  new_name ← fresh_profile_name (mappings self) fuel 1;
  Some (on_profile_listbox_select selection
          {| mappings := <[new_name := new_profile]> (mappings self);
             active_profile_name := active_profile_name self |}).

(** [str.replace(old, new)] for a non-empty [old]: the occurrences are
    replaced from left to right, [skip] counting the characters of an
    occurrence still to be dropped. *)
Fixpoint str_replace_from (old new : string) (skip : nat) (s : string) : string :=
  match s with
  | EmptyString => EmptyString
  | String c rest =>
      match skip with
      | S skip => str_replace_from old new skip rest
      | O =>
          if String.prefix old s
          then new +:+ str_replace_from old new (String.length old - 1) rest
          else String c (str_replace_from old new 0 rest)
      end
  end.

Definition str_replace (old new s : string) : string := str_replace_from old new 0 s.

(** The two lines
    [section = "dpad" if btn.startswith('dpad_') else "buttons"] and
    [mapping_key = btn.replace('dpad_', '') if section == "dpad" else btn]. *)
Definition section_of (btn : string) : string :=
  if String.prefix "dpad_" btn then "dpad" else "buttons".

Definition mapping_key_of (btn : string) : string :=
  if String.eqb (section_of btn) "dpad" then str_replace "dpad_" "" btn else btn.

(** [self.mappings.setdefault(profile, {}).setdefault(section, {})[mapping_key] = value] *)
Definition store_mapping (profile_ section mapping_key : string) (value : mapping)
    (mappings : gmap string profile) : gmap string profile :=
  let p := default empty_profile (mappings !! profile_) in
  let p :=
    if String.eqb section "dpad" then
      {| buttons_section := buttons_section p;
         dpad_section := Some (<[mapping_key := value]> (default ∅ (dpad_section p)));
         lightbar := lightbar p |}
    else
      {| buttons_section := Some (<[mapping_key := value]> (default ∅ (buttons_section p)));
         dpad_section := dpad_section p;
         lightbar := lightbar p |} in
  <[profile_ := p]> mappings.


End MappingConfigFrame.

(** ** gui/main_window.py: the polling loop and the mapping flow *)

Module MainWindow.

(** What a call does to the outside: console output, device writes and
    timers, warning dialogs.  Label texts, button colours and the write
    of the mappings file are not modelled. *)
Inductive effect : Type :=
  | Print (what : string)
  | Device (e : DS4ControlUI.effect)
  | ShowWarning (title : string).

(** The attributes of the mapping flow; [key_bindings] tells whether
    [<KeyPress>] and [<KeyRelease>] are bound to [_on_key_press] and
    [_on_key_release]. *)
Record KeyCapture := {
  _controller_mapping_active : bool;
  _key_capture_active : bool;
  _key_capture_btn : option string;
  _captured_mods : gmap string bool;
  _captured_key : option string;
  _highlighted_button : option string;
  key_bindings : bool
}.

Record t := {
  data_parser : DigitalState;
  text_update_counter : Z;
  capture : KeyCapture;
  visualization_tab_modular : VisualizationTab.t;
  rumble_tab_modular : RumbleTab.t;
  udp_manager : UDPManager.sender;
  mapping_config_frame : MappingConfigFrame.t
}.

(** [__init__] and [create_widgets], given what the mappings file held
    and the two tabs as their constructors and the loaded settings left
    them. *)
Definition __init__ (loaded : gmap string MappingConfigFrame.profile)
    (visualization_tab : VisualizationTab.t) (rumble_tab : RumbleTab.t) : t :=
  {| data_parser := DS4DataParser.__init__;
     text_update_counter := 0;
     capture := {| _controller_mapping_active := false;
                   _key_capture_active := false;
                   _key_capture_btn := None;
                   _captured_mods := ∅;
                   _captured_key := None;
                   _highlighted_button := None;
                   key_bindings := false |};
     visualization_tab_modular := visualization_tab;
     rumble_tab_modular := rumble_tab;
     udp_manager := {| UDPManager.udp_queue := [];
                       UDPManager.packets_sent := 0;
                       UDPManager.packets_saved := 0 |};
     mapping_config_frame := MappingConfigFrame.__init__ loaded |}.

Definition set_capture (c : KeyCapture) (self : t) : t :=
  {| data_parser := data_parser self;
     text_update_counter := text_update_counter self;
     capture := c;
     visualization_tab_modular := visualization_tab_modular self;
     rumble_tab_modular := rumble_tab_modular self;
     udp_manager := udp_manager self;
     mapping_config_frame := mapping_config_frame self |}.

Definition set_data_parser (parser : DigitalState) (self : t) : t :=
  {| data_parser := parser;
     text_update_counter := text_update_counter self;
     capture := capture self;
     visualization_tab_modular := visualization_tab_modular self;
     rumble_tab_modular := rumble_tab_modular self;
     udp_manager := udp_manager self;
     mapping_config_frame := mapping_config_frame self |}.

Definition set_text_update_counter (counter : Z) (self : t) : t :=
  {| data_parser := data_parser self;
     text_update_counter := counter;
     capture := capture self;
     visualization_tab_modular := visualization_tab_modular self;
     rumble_tab_modular := rumble_tab_modular self;
     udp_manager := udp_manager self;
     mapping_config_frame := mapping_config_frame self |}.

Definition set_visualization_tab (tab : VisualizationTab.t) (self : t) : t :=
  {| data_parser := data_parser self;
     text_update_counter := text_update_counter self;
     capture := capture self;
     visualization_tab_modular := tab;
     rumble_tab_modular := rumble_tab_modular self;
     udp_manager := udp_manager self;
     mapping_config_frame := mapping_config_frame self |}.

Definition set_rumble_tab (tab : RumbleTab.t) (self : t) : t :=
  {| data_parser := data_parser self;
     text_update_counter := text_update_counter self;
     capture := capture self;
     visualization_tab_modular := visualization_tab_modular self;
     rumble_tab_modular := tab;
     udp_manager := udp_manager self;
     mapping_config_frame := mapping_config_frame self |}.

Definition set_udp_manager (manager : UDPManager.sender) (self : t) : t :=
  {| data_parser := data_parser self;
     text_update_counter := text_update_counter self;
     capture := capture self;
     visualization_tab_modular := visualization_tab_modular self;
     rumble_tab_modular := rumble_tab_modular self;
     udp_manager := manager;
     mapping_config_frame := mapping_config_frame self |}.

Definition set_mapping_config_frame (frame : MappingConfigFrame.t) (self : t) : t :=
  {| data_parser := data_parser self;
     text_update_counter := text_update_counter self;
     capture := capture self;
     visualization_tab_modular := visualization_tab_modular self;
     rumble_tab_modular := rumble_tab_modular self;
     udp_manager := udp_manager self;
     mapping_config_frame := frame |}.

(** *** The mapping flow *)

(** [start_controller_mapping] *)
Definition start_controller_mapping (c : KeyCapture) : KeyCapture :=
  if _key_capture_active c then c
  else
    {| _controller_mapping_active := true;
       _key_capture_active := _key_capture_active c;
       _key_capture_btn := _key_capture_btn c;
       _captured_mods := _captured_mods c;
       _captured_key := _captured_key c;
       _highlighted_button := _highlighted_button c;
       key_bindings := key_bindings c |}.

(** [start_key_capture]: the attributes after the call and the exception
    that ended it, if any.  The look-up [BUTTON_LABELS[btn]] comes after
    the assignments and before the two [bind] calls. *)
Definition start_key_capture (btn : string) (c : KeyCapture)
    : KeyCapture * option exception :=
  if _key_capture_active c then (c, None)
  else
    match MappingConfigFrame.BUTTON_LABELS !! btn with
    | None =>
        ({| _controller_mapping_active := _controller_mapping_active c;
            _key_capture_active := true;
            _key_capture_btn := Some btn;
            _captured_mods := ∅;
            _captured_key := None;
            _highlighted_button := Some btn;
            key_bindings := key_bindings c |},
         Some (OtherException "KeyError"))
    | Some _ =>
        ({| _controller_mapping_active := _controller_mapping_active c;
            _key_capture_active := true;
            _key_capture_btn := Some btn;
            _captured_mods := ∅;
            _captured_key := None;
            _highlighted_button := Some btn;
            key_bindings := true |},
         None)
    end.

(** [handle_controller_press_for_mapping] *)
Definition handle_controller_press_for_mapping (button_name : string) (c : KeyCapture)
    : KeyCapture * option exception :=
  start_key_capture button_name
    {| _controller_mapping_active := false;
       _key_capture_active := _key_capture_active c;
       _key_capture_btn := _key_capture_btn c;
       _captured_mods := _captured_mods c;
       _captured_key := _captured_key c;
       _highlighted_button := _highlighted_button c;
       key_bindings := key_bindings c |}.

(** The attributes after a call of [start_key_capture] that went
    through: the capture is active for [btn] and the key handlers are
    bound. *)
Definition capture_started (btn : string) : KeyCapture :=
  {| _controller_mapping_active := false;
     _key_capture_active := true;
     _key_capture_btn := Some btn;
     _captured_mods := ∅;
     _captured_key := None;
     _highlighted_button := Some btn;
     key_bindings := true |}.

(** [_cleanup_key_capture] *)
Definition _cleanup_key_capture (c : KeyCapture) : KeyCapture :=
  {| _controller_mapping_active := _controller_mapping_active c;
     _key_capture_active := false;
     _key_capture_btn := None;
     _captured_mods := _captured_mods c;
     _captured_key := _captured_key c;
     _highlighted_button :=
       match _highlighted_button c with
       | Some btn => if bool_decide (btn ≠ ""%string) then None else Some btn
       | None => None
       end;
     key_bindings := false |}.

(** [_cancel_key_capture] *)
Definition _cancel_key_capture (c : KeyCapture) : KeyCapture := _cleanup_key_capture c.

(** [sub in s] for strings *)
Definition contains (sub s : string) : bool :=
  match String.index 0 sub s with
  | Some _ => true
  | None => false
  end.

Definition MODS : list string :=
  [ "control_l"; "control_r"; "alt_l"; "alt_r"; "shift_l"; "shift_r";
    "meta_l"; "meta_r"; "command_l"; "command_r"; "option_l"; "option_r" ]%string.

Definition set_captured_mods (mods : gmap string bool) (c : KeyCapture) : KeyCapture :=
  {| _controller_mapping_active := _controller_mapping_active c;
     _key_capture_active := _key_capture_active c;
     _key_capture_btn := _key_capture_btn c;
     _captured_mods := mods;
     _captured_key := _captured_key c;
     _highlighted_button := _highlighted_button c;
     key_bindings := key_bindings c |}.

Definition set_captured_key (key : string) (c : KeyCapture) : KeyCapture :=
  {| _controller_mapping_active := _controller_mapping_active c;
     _key_capture_active := _key_capture_active c;
     _key_capture_btn := _key_capture_btn c;
     _captured_mods := _captured_mods c;
     _captured_key := Some key;
     _highlighted_button := _highlighted_button c;
     key_bindings := key_bindings c |}.

(** The chain [if 'control' in keysym: ... elif ...] that names the
    modifier of a key, shared by [_on_key_press] and [_on_key_release]. *)
Definition modifier_of (keysym : string) : option string :=
  if contains "control" keysym then Some "ctrl"%string
  else if contains "alt" keysym || contains "option" keysym then Some "alt"%string
  else if contains "shift" keysym then Some "shift"%string
  else if contains "meta" keysym || contains "command" keysym then Some "cmd"%string
  else None.

(** [_finish_key_capture]: the window after the call, what it showed, and
    the exception that ended it, if any. *)
Definition _finish_key_capture (self : t) : list effect * t * option exception :=
  let frame := mapping_config_frame self in
  let c := capture self in
  if bool_decide (MappingConfigFrame.active_profile_name frame = ""%string) then
    ([ShowWarning "No Profile Selected"], set_capture (_cancel_key_capture c) self, None)
  else
    match _key_capture_btn c with
    | None => ([], self, Some AttributeError)
    | Some btn =>
        let profile_ := MappingConfigFrame.active_profile_name frame in
        let section := MappingConfigFrame.section_of btn in
        let mapping_key := MappingConfigFrame.mapping_key_of btn in
        let value :=
          MappingConfigFrame.KeyMapping (_captured_mods c) (_captured_key c) in
        let frame :=
          {| MappingConfigFrame.mappings :=
               MappingConfigFrame.store_mapping profile_ section mapping_key value
                 (MappingConfigFrame.mappings frame);
             MappingConfigFrame.active_profile_name := profile_ |} in
        let self := set_mapping_config_frame frame self in
        match MappingConfigFrame.BUTTON_LABELS !! btn with
        | None => ([], self, Some (OtherException "KeyError"))
        | Some _ => ([], set_capture (_cleanup_key_capture c) self, None)
        end
    end.

(** [_on_key_press], [keysym] being [event.keysym.lower()]. *)
Definition _on_key_press (keysym : string) (self : t) : list effect * t * option exception :=
  let c := capture self in
  if bool_decide (keysym ∈ MODS) then
    match modifier_of keysym with
    | Some name => ([], set_capture (set_captured_mods (<[name := true]> (_captured_mods c)) c) self, None)
    | None => ([], self, None)
    end
  else if String.eqb keysym "escape" then
    ([], set_capture (_cancel_key_capture c) self, None)
  else
    _finish_key_capture (set_capture (set_captured_key keysym c) self).

(** [_on_key_release], [keysym] being [event.keysym.lower()]. *)
Definition _on_key_release (keysym : string) (self : t) : t :=
  let c := capture self in
  match modifier_of keysym with
  | Some name => set_capture (set_captured_mods (<[name := false]> (_captured_mods c)) c) self
  | None => self
  end.

(** *** The tactile feedback, exceptions included *)

(** [set_rumble_simple]: [bytes(report)] raises [ValueError] unless every
    entry lies in 0 .. 255, and it is evaluated before the write.  The
    write itself is taken to succeed: the polling loop runs only with an
    open device. *)
Definition set_rumble_simple (left_rumble right_rumble : Z)
    : result (list DS4ControlUI.effect) :=
  if bool_decide (0 ≤ left_rumble ≤ 255) && bool_decide (0 ≤ right_rumble ≤ 255)
  then Ok (DS4ControlUI.set_rumble_simple left_rumble right_rumble)
  else Raise (OtherException "ValueError").

(** [trigger_tactile_feedback] *)
Definition trigger_tactile_feedback (rumble_tab_modular : RumbleTab.t) (trigger : string)
    : result (list DS4ControlUI.effect) :=
  let rumble_settings := RumbleTab.get_tactile_settings rumble_tab_modular in
  eff ← (if String.eqb trigger "L2"
         then set_rumble_simple (RumbleTab.intensity rumble_settings) 0
         else set_rumble_simple 0 (RumbleTab.intensity rumble_settings));
  Ok (eff ++ [DS4ControlUI.After (RumbleTab.duration rumble_settings)
                "stop_tactile_feedback"]).

(** [RumbleTab._trigger_tactile_feedback] with the window's call-back
    under the key ['trigger_tactile_feedback']. *)
Definition _trigger_tactile_feedback (self : RumbleTab.t) (trigger : string)
    (threshold_num : Z) : result (list DS4ControlUI.effect) :=
  if bool_decide ("trigger_tactile_feedback"%string ∈ RumbleTab.rumble_callbacks self)
  then trigger_tactile_feedback self trigger
  else Ok [].

(** The body of the loop of [RumbleTab._check_threshold_crossing].  The
    accumulator holds what reached the device so far, the tab, and the
    exception that ended the loop, if any: an exception of the call-back
    leaves the loop before the last-fired threshold is assigned. *)
Definition crossing_step (trigger : string) (current_value prev_value : Z)
    (acc : list DS4ControlUI.effect * RumbleTab.t * option exception) (th : Z * Z)
    : list DS4ControlUI.effect * RumbleTab.t * option exception :=
  let '(eff, self, raised) := acc in
  match raised with
  | Some _ => acc
  | None =>
      let '(threshold_num, threshold_value) := th in
      if (prev_value <? threshold_value) && (threshold_value <=? current_value) then
        let last_threshold := RumbleTab.last_rumble_threshold self trigger in
        if bool_decide (last_threshold ≠ Some threshold_num) then
          match _trigger_tactile_feedback self trigger threshold_num with
          | Ok eff' =>
              (eff ++ eff',
               RumbleTab.set_last_rumble_threshold trigger (Some threshold_num) self,
               None)
          | Raise e => (eff, self, Some e)
          end
        else acc
      else if (current_value <? threshold_value) && (threshold_value <=? prev_value) then
        (eff, RumbleTab.set_last_rumble_threshold trigger None self, None)
      else acc
  end.

(** [RumbleTab._check_threshold_crossing] *)
Definition _check_threshold_crossing (self : RumbleTab.t) (trigger : string)
    (current_value prev_value : Z)
    : list DS4ControlUI.effect * RumbleTab.t * option exception :=
  foldl (crossing_step trigger current_value prev_value) ([], self, None)
    (RumbleTab.thresholds self).

(** [RumbleTab.check_tactile_feedback]: an exception leaves the method
    before the previous value of the trigger being scanned is stored. *)
Definition check_tactile_feedback (self : RumbleTab.t) (l2_value r2_value : Z)
    : list DS4ControlUI.effect * RumbleTab.t * option exception :=
  if negb (RumbleTab.enabled (RumbleTab.tactile self)) then ([], self, None)
  else
    let '(eff_l2, self, raised) :=
      _check_threshold_crossing self "l2" l2_value (RumbleTab.prev_l2_value self) in
    match raised with
    | Some e => (eff_l2, self, Some e)
    | None =>
        let self := RumbleTab.set_prev_l2_value l2_value self in
        let '(eff_r2, self, raised) :=
          _check_threshold_crossing self "r2" r2_value (RumbleTab.prev_r2_value self) in
        match raised with
        | Some e => (eff_l2 ++ eff_r2, self, Some e)
        | None => (eff_l2 ++ eff_r2, RumbleTab.set_prev_r2_value r2_value self, None)
        end
    end.

(** *** The polling loop *)

(** [update_visualizations]: the orientation filter, then the tactile
    feedback.  The filter stores the clock reading before it divides by
    the sensitivity.  The calls that draw are taken to return. *)
Definition update_visualizations (self : t) (data : ControllerData) (current_time : R)
    : list effect * t * option exception :=
  match VisualizationTab.update_orientation_with_fusion (visualization_tab_modular self)
          (vec_x (gyro data)) (vec_y (gyro data)) (vec_z (gyro data))
          (vec_x (accelerometer data)) (vec_y (accelerometer data))
          (vec_z (accelerometer data)) current_time with
  | Raise e =>
      ([],
       set_visualization_tab
         (VisualizationTab.set_last_time current_time (visualization_tab_modular self)) self,
       Some e)
  | Ok (tab, _) =>
      let self := set_visualization_tab tab self in
      let '(eff, rumble, raised) :=
        check_tactile_feedback (rumble_tab_modular self) (raw (l2 data)) (raw (r2 data)) in
      (Device <$> eff, set_rumble_tab rumble self, raised)
  end.

Section poll.

Variable json_dumps : UDPManager.json → string.
Variable utf8_encode : string → list Byte.byte.

(** The statements under [if is_visual_tab_active:]. *)
Definition poll_visual_part (self : t) (controller_data : ControllerData) (current_time : R)
    : list effect * t * option exception :=
  let '(eff, self, raised) := update_visualizations self controller_data current_time in
  match raised with
  | Some e => (eff, self, Some e)
  | None =>
      let counter := text_update_counter self + 1 in
      (eff, set_text_update_counter (if decide (5 ≤ counter) then 0 else counter) self, None)
  end.

(** [pressed_button] of the mapping branch: the first key of
    [digital_changes['buttons']], whose keys in the order of their
    insertion are [keys], else the d-pad direction with its prefix. *)
Definition pressed_button (keys : list string) (changes : Changes) : option string :=
  match keys with
  | button :: _ => Some button
  | [] =>
      match changed_dpad changes with
      | Some direction =>
          if bool_decide (direction ≠ ""%string) then Some ("dpad_" +:+ direction) else None
      | None => None
      end
  end.

(** From [digital_changes = self.data_parser.check_digital_changes(...)]
    to the end of the [try] block; an exception is printed by the handler
    [except Exception].  [controller_data] is what
    [parse_controller_data] returned, so the keys of its buttons come in
    the order [button_keys]. *)
Definition poll_digital_part (self : t) (controller_data : ControllerData)
    (time_time : nat → Q) : list effect * t :=
  let keys := changed_keys button_keys (data_parser self) controller_data in
  let '(digital_changes, parser) :=
    check_digital_changes (data_parser self) controller_data in
  let self := set_data_parser parser self in
  match digital_changes with
  | None => ([], self)
  | Some changes =>
      if _controller_mapping_active (capture self) then
        match pressed_button keys changes with
        | Some button_name =>
            if bool_decide (button_name ≠ ""%string) then
              let '(c, raised) :=
                handle_controller_press_for_mapping button_name (capture self) in
              (match raised with
               | Some _ => [Print "Polling error"]
               | None => []
               end,
               set_capture c self)
            else ([], self)
        | None => ([], self)
        end
      else
        ([],
         set_udp_manager
           (UDPManager.send_digital_changes json_dumps utf8_encode
              (udp_manager self) changes keys time_time).2 self)
  end.

(** The [try] statement of [poll_controller] with its two handlers.
    [get_nowait] is what [self.report_queue.get_nowait()] returns ([None]
    for [queue.Empty]), [is_visual_tab_active] what the window and the
    notebook answer, [current_time] the clock reading of the orientation
    filter and [time_time] the clock readings of the sender. *)
Definition poll_controller (self : t) (get_nowait : option (list Byte.byte))
    (is_visual_tab_active : bool) (current_time : R) (time_time : nat → Q)
    : list effect * t :=
  match get_nowait with
  | None => ([], self)
  | Some report =>
      if bool_decide (report = []) then ([], self)
      else
        match parse_controller_data report with
        | Raise _ => ([Print "Polling error"], self)
        | Ok controller_data =>
            let '(eff, self, raised) :=
              if is_visual_tab_active
              then poll_visual_part self controller_data current_time
              else ([], self, None) in
            match raised with
            | Some _ => (eff ++ [Print "Polling error"], self)
            | None =>
                let '(eff', self) := poll_digital_part self controller_data time_time in
                (eff ++ eff', self)
            end
        end
  end.

(** What reaches the window: a turn of the polling loop, a key event, a
    click on a mapping button, a click on "Map with Controller". *)
Inductive ui_event : Type :=
  | Poll (get_nowait : option (list Byte.byte)) (is_visual_tab_active : bool)
      (current_time : R) (time_time : nat → Q)
  | KeyPress (keysym : string)
  | KeyRelease (keysym : string)
  | ClickMappingButton (btn : string)
  | ClickMapWithController.

(** The window's reaction to an event.  A key event reaches its handler
    only while the handlers are bound; the mapping buttons exist for the
    names in [BUTTON_LABELS] ([place_buttons] skips the others); an
    exception of a Tk call-back ends the call-back. *)
Definition deliver (event : ui_event) (self : t) : list effect * t :=
  match event with
  | Poll get_nowait is_visual_tab_active current_time time_time =>
      poll_controller self get_nowait is_visual_tab_active current_time time_time
  | KeyPress keysym =>
      if key_bindings (capture self) then (_on_key_press keysym self).1 else ([], self)
  | KeyRelease keysym =>
      if key_bindings (capture self) then ([], _on_key_release keysym self) else ([], self)
  | ClickMappingButton btn =>
      match MappingConfigFrame.BUTTON_LABELS !! btn with
      | Some _ => ([], set_capture (start_key_capture btn (capture self)).1 self)
      | None => ([], self)
      end
  | ClickMapWithController =>
      ([], set_capture (start_controller_mapping (capture self)) self)
  end.


End poll.


End MainWindow.

(** ** Sample reports *)

(** A snapshot that carries only digital state. *)
Definition digital_only (btns : gmap string bool) (direction : string) : ControllerData :=
  {| left_stick := {| stick_x := 0; stick_y := 0; raw_x := 128; raw_y := 128 |};
     right_stick := {| stick_x := 0; stick_y := 0; raw_x := 128; raw_y := 128 |};
     l2 := {| value := 0; raw := 0 |};
     r2 := {| value := 0; raw := 0 |};
     buttons := btns;
     dpad := direction;
     dpad_raw := 8;
     ps_button := false;
     touchpad_pressed := false;
     gyro := {| vec_x := 0; vec_y := 0; vec_z := 0 |};
     accelerometer := {| vec_x := 0; vec_y := 0; vec_z := 0 |};
     touchpad := {| active := false; id := 0; touch_x := 0; touch_y := 0 |};
     battery := 0 |}.

(** A 64-byte USB report with centred sticks and the given bytes 5 and 6. *)
Definition report_with (byte5 byte6 : Byte.byte) : list Byte.byte :=
  [Byte.x01; Byte.x80; Byte.x80; Byte.x80; Byte.x80; byte5; byte6]
  ++ replicate 57 Byte.x00.

(** The decoded snapshot of a report that decodes. *)
Definition data_of (report : list Byte.byte) : ControllerData :=
  match parse_controller_data report with
  | Ok data => data
  | Raise _ => digital_only ∅ "none"
  end.

(** A 64-byte USB report with everything at rest but the two analog
    triggers (bytes 8 and 9). *)
Definition trigger_report (byte8 byte9 : Byte.byte) : list Byte.byte :=
  [Byte.x01; Byte.x80; Byte.x80; Byte.x80; Byte.x80; Byte.x08; Byte.x00; Byte.x00;
   byte8; byte9] ++ replicate 54 Byte.x00.

(** A 64-byte report, all zero but byte 35 (the first touch point's
    flag and id). *)
Definition touch_report (byte35 : Byte.byte) : list Byte.byte :=
  replicate 35 Byte.x00 ++ [byte35] ++ replicate 28 Byte.x00.

(** A stand-in for [bytes.decode]: the payload read as Latin-1. *)
Definition sample_decode (data : list Byte.byte) : option string :=
  Some (foldr (λ b text, String (Ascii.ascii_of_byte b) text) EmptyString data).

(** A stand-in for [json.loads] that knows two payloads: the plain word
    [toggle_window] is not JSON, and ["lightbar"] abbreviates the object
    with command [set_lightbar], [r = 255] and [b = 128]. *)
Definition sample_object : gmap string UDPManager.json :=
  list_to_map [ ("command", UDPManager.JString "set_lightbar");
                ("r", UDPManager.JInt 255);
                ("b", UDPManager.JInt 128) ]%string.

Definition sample_loads (message : string) : option UDPManager.json :=
  if bool_decide (message = "lightbar"%string)
  then Some (UDPManager.JObject sample_object)
  else None.

(** A manager with both call-backs registered, neither of which raises. *)
Definition sample_manager : UDPManager.t :=
  {| UDPManager.toggle_window_callback := Some (Ok ());
     UDPManager._lightbar_callback := Some (λ _ _ _, Ok ()) |}.

(** The rumble tab as the window creates it, tactile feedback switched on. *)
Definition tactile_tab : RumbleTab.t :=
  RumbleTab._on_toggle_tactile_feedback true
    (RumbleTab.__init__ DS4ControlUI.rumble_callbacks).

(** The same tab with a tactile intensity of 300, as a settings file can
    ask for. *)
Definition loud_tab : RumbleTab.t :=
  {| RumbleTab.tactile :=
       {| RumbleTab.enabled := true;
          RumbleTab.threshold1_enabled := true; RumbleTab.threshold1_value := 64;
          RumbleTab.threshold2_enabled := true; RumbleTab.threshold2_value := 128;
          RumbleTab.threshold3_enabled := true; RumbleTab.threshold3_value := 192;
          RumbleTab.duration := 50; RumbleTab.intensity := 300 |};
     RumbleTab.prev_l2_value := 0;
     RumbleTab.prev_r2_value := 0;
     RumbleTab.l2_last_rumble_threshold := None;
     RumbleTab.r2_last_rumble_threshold := None;
     RumbleTab.hysteresis_margin := 2;
     RumbleTab.rumble_callbacks := DS4ControlUI.rumble_callbacks |}.

(** The tab after L2 went from 0 to 130 (thresholds 1 and 2 fire), then,
    with threshold 2 switched off, down to 100, and threshold 2 was
    switched on again. *)
Definition rearmed_tab : RumbleTab.t :=
  RumbleTab._on_threshold2_enabled true
    (RumbleTab.check_tactile_feedback
       (RumbleTab._on_threshold2_enabled false
          (RumbleTab.check_tactile_feedback tactile_tab 130 0).2)
       100 0).2.

(** Cross held, d-pad at rest; everything released; d-pad up. *)
Definition cross_held : ControllerData := data_of (report_with Byte.x28 Byte.x00).
Definition all_released : ControllerData := data_of (report_with Byte.x08 Byte.x00).
Definition dpad_up_cross : ControllerData := data_of (report_with Byte.x20 Byte.x00).

(** A 64-byte USB report with centred sticks, the given byte 5 and the
    given position of R2 (byte 9). *)
Definition report_with_r2 (byte5 byte9 : Byte.byte) : list Byte.byte :=
  [Byte.x01; Byte.x80; Byte.x80; Byte.x80; Byte.x80; byte5; Byte.x00; Byte.x00;
   Byte.x00; byte9] ++ replicate 54 Byte.x00.

(** Cross and Circle held, d-pad at rest, R2 pulled to 200; the d-pad
    pushed to the upper right, no button held, R2 pulled to 200. *)
Definition squeeze_report : list Byte.byte := report_with_r2 Byte.x68 Byte.xc8.

(** Stand-ins for [json.dumps] and [str.encode]: of an event only the
    button name is kept, byte by byte. *)
Definition sample_dumps (value : UDPManager.json) : string :=
  match value with
  | UDPManager.JObject o =>
      match o !! "button"%string with
      | Some (UDPManager.JString button) => button
      | _ => ""%string
      end
  | _ => ""%string
  end.

Definition sample_encode (text : string) : list Byte.byte := String.list_byte_of_string text.

(** The window at start-up with an empty mappings file and the tabs'
    own defaults; the same after a click on the mapping button of
    Cross. *)
Definition sample_window : MainWindow.t :=
  MainWindow.__init__ ∅ (VisualizationTab.__init__ 0%R)
    (RumbleTab.__init__ DS4ControlUI.rumble_callbacks).


(** The window with the tactile feedback switched on; the same after a
    click on "Map with Controller". *)
Definition tactile_window : MainWindow.t :=
  MainWindow.__init__ ∅ (VisualizationTab.__init__ 0%R) tactile_tab.

Definition tactile_mapping_window : MainWindow.t :=
  (MainWindow.deliver sample_dumps sample_encode MainWindow.ClickMapWithController
     tactile_window).2.

(** * Properties *)

(** ** The edge detector *)

Section edge_detector.

Implicit Types (self : DigitalState) (new_data : ControllerData) (button : string).

(** What the button loop leaves in [changes['buttons']] and in
    [has_changes]. *)
Lemma button_loop_spec self (new_buttons : gmap string bool) :
  let r := map_fold (button_step self) (∅, false) new_buttons in
  (∀ button, r.1 !! button =
     if rising_edge self new_buttons button then Some true else None)
  ∧ (r.2 = true ↔ ∃ button, rising_edge self new_buttons button = true).
Proof.
  apply (map_fold_weak_ind
    (λ r m, (∀ button, r.1 !! button = if rising_edge self m button then Some true else None)
            ∧ (r.2 = true ↔ ∃ button, rising_edge self m button = true))).
  - split.
    + intros button. unfold rising_edge. by rewrite !lookup_empty.
    + split; [done|]. intros [button H]. unfold rising_edge in H.
      by rewrite lookup_empty in H.
  - intros i x m r Hi [IH1 IH2].
    assert (Hother : ∀ button, button ≠ i →
              rising_edge self (<[i:=x]> m) button = rising_edge self m button).
    { intros button Hne. unfold rising_edge. by rewrite lookup_insert_ne. }
    assert (Hsame : rising_edge self (<[i:=x]> m) i
                    = x && negb (default false (prev_buttons self !! i))).
    { unfold rising_edge. by rewrite lookup_insert_eq. }
    assert (Hfresh : rising_edge self m i = false).
    { unfold rising_edge. by rewrite Hi. }
    unfold button_step.
    destruct (x && negb (default false (prev_buttons self !! i))) eqn:Hx; simpl.
    + split.
      * intros button. destruct (decide (button = i)) as [->|Hne].
        -- by rewrite lookup_insert_eq, Hsame.
        -- rewrite lookup_insert_ne by done. rewrite Hother by done. apply IH1.
      * split; [|done]. intros _. exists i. by rewrite Hsame.
    + split.
      * intros button. destruct (decide (button = i)) as [->|Hne].
        -- rewrite Hsame. rewrite IH1. by rewrite Hfresh.
        -- rewrite Hother by done. apply IH1.
      * rewrite IH2. split; intros [button H]; exists button.
        -- destruct (decide (button = i)) as [->|Hne]; [congruence|].
           by rewrite Hother.
        -- destruct (decide (button = i)) as [->|Hne]; [congruence|].
           by rewrite <- Hother.
Qed.

Lemma check_digital_changes_state self new_data :
  (check_digital_changes self new_data).2
  = {| prev_buttons := buttons new_data; prev_dpad := dpad new_data |}.
Proof.
  unfold check_digital_changes.
  destruct (map_fold _ _ _) as [btn_changes has_changes].
  by destruct (_ && _).
Qed.

Lemma check_digital_changes_press self new_data button :
  reports_press (check_digital_changes self new_data).1 button
  ↔ rising_edge self (buttons new_data) button = true.
Proof.
  pose proof (button_loop_spec self (buttons new_data)) as [Hlook Hflag].
  unfold check_digital_changes, reports_press.
  destruct (map_fold _ _ _) as [btn_changes has_changes]. simpl in *.
  specialize (Hlook button).
  split.
  - intros (c & Hc & Hb).
    destruct (_ && _), has_changes; simplify_eq/=;
      destruct (rising_edge _ _ _); congruence.
  - intros Hr. rewrite Hr in Hlook.
    assert (has_changes = true) as -> by (apply Hflag; eauto).
    destruct (_ && _); eexists; (split; [reflexivity|done]).
Qed.

Lemma check_digital_changes_dpad self new_data direction :
  reports_dpad (check_digital_changes self new_data).1 direction
  ↔ direction = dpad new_data ∧ dpad_edge self (dpad new_data) = true.
Proof.
  unfold check_digital_changes, reports_dpad, dpad_edge.
  destruct (map_fold _ _ _) as [btn_changes has_changes].
  destruct (_ && _); simpl.
  - split.
    + intros (c & Hc & Hd). by simplify_eq/=.
    + intros [-> _]. eexists. split; [reflexivity|done].
  - split.
    + intros (c & Hc & Hd). destruct has_changes; by simplify_eq/=.
    + by intros [_ ?].
Qed.

Lemma check_digital_changes_None self new_data :
  (check_digital_changes self new_data).1 = None
  ↔ (∀ button, rising_edge self (buttons new_data) button = false)
    ∧ dpad_edge self (dpad new_data) = false.
Proof.
  pose proof (button_loop_spec self (buttons new_data)) as [_ Hflag].
  unfold check_digital_changes, dpad_edge.
  destruct (map_fold _ _ _) as [btn_changes has_changes]. simpl in *.
  destruct (_ && _); simpl.
  - split; [done|]. by intros [_ ?].
  - destruct has_changes; simpl.
    + split; [done|]. intros [Hno _].
      destruct Hflag as [[button Hb] _]; [done|]. by rewrite Hno in Hb.
    + split; [|done]. intros _. split; [|done].
      intros button. destruct (rising_edge _ _ _) eqn:Hr; [|done].
      destruct Hflag as [_ Hflag]. by rewrite Hflag by eauto.
Qed.

(** A returned change dictionary is never empty. *)
Lemma check_digital_changes_Some self new_data c :
  (check_digital_changes self new_data).1 = Some c →
  (∃ button, changed_buttons c !! button = Some true) ∨ is_Some (changed_dpad c).
Proof.
  pose proof (button_loop_spec self (buttons new_data)) as [Hlook Hflag].
  unfold check_digital_changes.
  destruct (map_fold _ _ _) as [btn_changes has_changes]. simpl in *.
  destruct (_ && _); simpl.
  - intros [= <-]. right. by eexists.
  - destruct has_changes; [|done]. intros [= <-]. left. simpl.
    destruct Hflag as [[button Hb] _]; [done|].
    exists button. by rewrite Hlook, Hb.
Qed.

End edge_detector.

Lemma run_cons (self : DigitalState) (d : ControllerData) (rest : list ControllerData) :
  (run self (d :: rest)).1
  = (check_digital_changes self d).1 :: (run (check_digital_changes self d).2 rest).1.
Proof.
  cbn [run]. destruct (check_digital_changes self d) as [out self'].
  cbn [fst snd]. by destruct (run self' rest).
Qed.

Lemma rising_edge_after (self : DigitalState) (prev new_data : ControllerData)
    (button : string) :
  rising_edge (check_digital_changes self prev).2 (buttons new_data) button = true
  ↔ buttons new_data !! button = Some true
    ∧ default false (buttons prev !! button) = false.
Proof.
  rewrite check_digital_changes_state. unfold rising_edge. simpl.
  destruct (buttons new_data !! button) as [[]|];
    destruct (default false (buttons prev !! button)); simpl;
    intuition congruence.
Qed.

(** C7. Over five successive snapshots in which one button reads
    released, pressed, pressed, released, pressed, the detector reports a
    press of that button at the second and the fifth snapshot and at no
    other.  A call returns [None] exactly when the snapshot has no rising
    edge (no newly pressed button and no d-pad press), so a returned
    change dictionary is never empty; and every call stores the snapshot's
    buttons and d-pad as the previous state. *)
Theorem edge_detector_press_sequence
    (self : DigitalState) (button : string) (d0 d1 d2 d3 d4 : ControllerData) :
  buttons d0 !! button = Some false →
  buttons d1 !! button = Some true →
  buttons d2 !! button = Some true →
  buttons d3 !! button = Some false →
  buttons d4 !! button = Some true →
  (∃ o0 o1 o2 o3 o4,
      (run self [d0; d1; d2; d3; d4]).1 = [o0; o1; o2; o3; o4]
      ∧ ¬ reports_press o0 button
      ∧ reports_press o1 button
      ∧ ¬ reports_press o2 button
      ∧ ¬ reports_press o3 button
      ∧ reports_press o4 button)
  ∧ (∀ s d, (check_digital_changes s d).1 = None
            ↔ (∀ b, rising_edge s (buttons d) b = false)
              ∧ dpad_edge s (dpad d) = false)
  ∧ (∀ s d c, (check_digital_changes s d).1 = Some c →
              (∃ b, changed_buttons c !! b = Some true) ∨ is_Some (changed_dpad c))
  ∧ (∀ s d, (check_digital_changes s d).2
            = {| prev_buttons := buttons d; prev_dpad := dpad d |}).
Proof.
  intros H0 H1 H2 H3 H4.
  split; [|split; [|split]].
  - do 5 eexists. split.
    { rewrite !run_cons. reflexivity. }
    repeat split.
    + rewrite check_digital_changes_press. unfold rising_edge. by rewrite H0.
    + apply check_digital_changes_press, rising_edge_after. by rewrite H0.
    + rewrite check_digital_changes_press, rising_edge_after. rewrite H1. simpl.
      intuition congruence.
    + rewrite check_digital_changes_press, rising_edge_after. rewrite H3.
      intuition congruence.
    + apply check_digital_changes_press, rising_edge_after. by rewrite H3.
  - apply check_digital_changes_None.
  - apply check_digital_changes_Some.
  - apply check_digital_changes_state.
Qed.

Lemma edge_detector_press_sequence_witness :
  ∃ o0 o1 o2 o3 o4,
    (run DS4DataParser.__init__
       [all_released; cross_held; cross_held; all_released; cross_held]).1
    = [o0; o1; o2; o3; o4]
    ∧ ¬ reports_press o0 "cross"
    ∧ reports_press o1 "cross"
    ∧ ¬ reports_press o2 "cross"
    ∧ ¬ reports_press o3 "cross"
    ∧ reports_press o4 "cross".
Proof.
  apply (edge_detector_press_sequence DS4DataParser.__init__ "cross"
           all_released cross_held cross_held all_released cross_held);
    vm_compute; reflexivity.
Defined.

(** C10. On the first snapshot seen by a fresh parser, and on the first
    one after [reset_digital_state], every button that is held is reported
    as a press, and a d-pad direction other than ['none'] is reported as a
    d-pad press. *)
Theorem first_snapshot_reports_held_inputs
    (self : DigitalState) (new_data : ControllerData) :
  (∀ button, buttons new_data !! button = Some true →
     reports_press (check_digital_changes DS4DataParser.__init__ new_data).1 button
     ∧ reports_press (check_digital_changes (reset_digital_state self) new_data).1 button)
  ∧ (dpad new_data ≠ "none"%string →
     reports_dpad (check_digital_changes DS4DataParser.__init__ new_data).1 (dpad new_data)
     ∧ reports_dpad (check_digital_changes (reset_digital_state self) new_data).1
         (dpad new_data)).
Proof.
  split.
  - intros button Hb.
    split; apply check_digital_changes_press; unfold rising_edge;
      rewrite Hb; simpl; by rewrite lookup_empty.
  - intros Hd.
    split; apply check_digital_changes_dpad; (split; [done|]);
      unfold dpad_edge; simpl; by rewrite !bool_decide_eq_true_2.
Qed.

Lemma first_snapshot_reports_held_inputs_witness :
  reports_press (check_digital_changes DS4DataParser.__init__ dpad_up_cross).1 "cross"
  ∧ reports_dpad (check_digital_changes DS4DataParser.__init__ dpad_up_cross).1 "up".
Proof.
  pose proof (first_snapshot_reports_held_inputs DS4DataParser.__init__ dpad_up_cross)
    as [Hpress Hdpad].
  split.
  - apply (Hpress "cross"%string). vm_compute. reflexivity.
  - apply Hdpad. vm_compute. discriminate.
Defined.

(** ** One parser for all profiles *)

(** C1, as the code has it.  The window owns a single parser whose
    previous state is shared by all profiles: selecting a profile leaves it
    untouched and [check_digital_changes] is not told the profile.  So
    after a snapshot processed under profile [A], a snapshot processed
    under profile [B] reports a press of a button exactly when the button
    is pressed in it and was not pressed in the snapshot processed under
    [A]; a button still held across the switch is not reported again. *)
Theorem edge_state_shared_between_profiles
    (A B : string) (app : DS4ControlUI.App) (d1 d2 : ControllerData) (button : string) :
  let app1 :=
    (DS4ControlUI.poll_digital_changes (DS4ControlUI.on_profile_listbox_select A app) d1).2 in
  let out :=
    (DS4ControlUI.poll_digital_changes (DS4ControlUI.on_profile_listbox_select B app1) d2).1 in
  DS4ControlUI.data_parser (DS4ControlUI.on_profile_listbox_select B app1)
  = {| prev_buttons := buttons d1; prev_dpad := dpad d1 |}
  ∧ (reports_press out button
     ↔ buttons d2 !! button = Some true ∧ default false (buttons d1 !! button) = false)
  ∧ ¬ (buttons d1 !! button = Some true ∧ reports_press out button).
Proof.
  unfold DS4ControlUI.poll_digital_changes, DS4ControlUI.on_profile_listbox_select.
  simpl.
  destruct (check_digital_changes (DS4ControlUI.data_parser app) d1)
    as [out1 parser1] eqn:E1.
  simpl.
  assert (parser1 = {| prev_buttons := buttons d1; prev_dpad := dpad d1 |}) as ->.
  { by rewrite <- (check_digital_changes_state (DS4ControlUI.data_parser app) d1), E1. }
  destruct (check_digital_changes _ d2) as [out2 parser2] eqn:E2. simpl.
  assert (Hiff : reports_press out2 button
                 ↔ buttons d2 !! button = Some true
                   ∧ default false (buttons d1 !! button) = false).
  { change out2 with (out2, parser2).1. rewrite <- E2.
    rewrite check_digital_changes_press. unfold rising_edge. simpl.
    destruct (buttons d2 !! button) as [[]|];
      destruct (default false (buttons d1 !! button)); simpl;
      intuition congruence. }
  split; [done|]. split; [done|].
  intros [Hheld Hpress]. apply Hiff in Hpress as [_ Hprev].
  by rewrite Hheld in Hprev.
Qed.

(** C1, as stated, fails: cross is pressed under profile ["A"] (and
    reported), the profile is switched to ["B"] with cross still held, and
    the snapshot processed under ["B"] reports no press of cross. *)
Lemma held_button_not_reported_under_new_profile :
  let app1 :=
    (DS4ControlUI.poll_digital_changes
       (DS4ControlUI.on_profile_listbox_select "A" DS4ControlUI.__init__) cross_held).2 in
  "A"%string ≠ "B"%string
  ∧ buttons cross_held !! "cross"%string = Some true
  ∧ reports_press
      (DS4ControlUI.poll_digital_changes
         (DS4ControlUI.on_profile_listbox_select "A" DS4ControlUI.__init__) cross_held).1
      "cross"
  ∧ ¬ reports_press
        (DS4ControlUI.poll_digital_changes
           (DS4ControlUI.on_profile_listbox_select "B" app1) cross_held).1
        "cross".
Proof.
  split; [done|]. split; [by vm_compute|]. split.
  - eexists. split; [by vm_compute|]. by vm_compute.
  - intros (c & Hc & _). vm_compute in Hc. discriminate.
Qed.

(** ** The haptic threshold detector *)

Section threshold_crossing.

Variables (trigger : string) (current_value prev_value : Z).

Local Abbreviation step := (RumbleTab.crossing_step trigger current_value prev_value).

Lemma last_rumble_threshold_set (v : option Z) (self : RumbleTab.t) :
  RumbleTab.last_rumble_threshold (RumbleTab.set_last_rumble_threshold trigger v self) trigger
  = v.
Proof.
  unfold RumbleTab.last_rumble_threshold, RumbleTab.set_last_rumble_threshold.
  by destruct (String.eqb trigger "l2").
Qed.

(** The loop only ever appends to the list of fired requests. *)
Lemma crossing_scan_extends (ths : list (Z * Z)) (acc : list (string * Z) * RumbleTab.t) :
  ∃ rest, (foldl step acc ths).1 = acc.1 ++ rest.
Proof.
  revert acc. induction ths as [|[num T] ths IH]; intros [fired self].
  - exists []. simpl. by rewrite app_nil_r.
  - change (foldl step (fired, self) ((num, T) :: ths))
      with (foldl step (step (fired, self) (num, T)) ths).
    destruct (IH (step (fired, self) (num, T))) as [rest ->].
    unfold RumbleTab.crossing_step.
    repeat case_match; simpl; eauto.
    rewrite <- app_assoc. eauto.
Qed.

(** The loop never reads [hysteresis_margin]. *)
Lemma crossing_scan_ignores_margin (margin : Z) (ths : list (Z * Z))
    (fired : list (string * Z)) (self : RumbleTab.t) :
  foldl step (fired, RumbleTab.with_hysteresis_margin margin self) ths
  = ((foldl step (fired, self) ths).1,
     RumbleTab.with_hysteresis_margin margin (foldl step (fired, self) ths).2).
Proof.
  revert fired self. induction ths as [|[num T] ths IH]; intros fired self; [done|].
  change (foldl step ?a ((num, T) :: ths)) with (foldl step (step a (num, T)) ths).
  assert (step (fired, RumbleTab.with_hysteresis_margin margin self) (num, T)
          = ((step (fired, self) (num, T)).1,
             RumbleTab.with_hysteresis_margin margin (step (fired, self) (num, T)).2))
    as ->.
  { unfold RumbleTab.crossing_step, RumbleTab.last_rumble_threshold,
      RumbleTab.set_last_rumble_threshold, RumbleTab.with_hysteresis_margin.
    simpl. repeat case_match; simplify_eq/=; done. }
  destruct (step (fired, self) (num, T)) as [fired1 self1]. apply IH.
Qed.

End threshold_crossing.

(** C2, as the code has it.  Take an enabled threshold at its turn in the
    scan of [_check_threshold_crossing]: [reached] is the state in which
    the loop arrives at it, [left] the state in which the loop leaves it.
    An upward crossing ([prev < T <= cur]) fires a request unless the
    threshold is the trigger's last-fired one, and the threshold is then
    the trigger's last-fired one; a downward crossing ([cur < T <= prev])
    fires nothing and clears the trigger's last-fired threshold; without a
    crossing nothing changes.  What has been fired at that turn stays in
    the call's result, and the value of [hysteresis_margin] has no
    influence on what a call fires. *)
Theorem threshold_crossing_at_its_turn
    (self : RumbleTab.t) (trigger : string) (current_value prev_value : Z)
    (before after : list (Z * Z)) (threshold_num threshold_value : Z) :
  RumbleTab.thresholds self = before ++ (threshold_num, threshold_value) :: after →
  let step := RumbleTab.crossing_step trigger current_value prev_value in
  let reached := foldl step ([], self) before in
  let left := step reached (threshold_num, threshold_value) in
  let last_threshold := RumbleTab.last_rumble_threshold reached.2 trigger in
  RumbleTab._check_threshold_crossing self trigger current_value prev_value
  = foldl step left after
  ∧ (∃ rest,
       (RumbleTab._check_threshold_crossing self trigger current_value prev_value).1
       = left.1 ++ rest)
  ∧ (prev_value < threshold_value ≤ current_value →
       (last_threshold ≠ Some threshold_num →
          left.1 = reached.1 ++ [(trigger, threshold_num)])
       ∧ (last_threshold = Some threshold_num → left.1 = reached.1)
       ∧ RumbleTab.last_rumble_threshold left.2 trigger = Some threshold_num)
  ∧ (current_value < threshold_value ≤ prev_value →
       left.1 = reached.1 ∧ RumbleTab.last_rumble_threshold left.2 trigger = None)
  ∧ (¬ (prev_value < threshold_value ≤ current_value) →
     ¬ (current_value < threshold_value ≤ prev_value) →
       left = reached)
  ∧ (∀ margin,
       (RumbleTab._check_threshold_crossing
          (RumbleTab.with_hysteresis_margin margin self) trigger current_value prev_value).1
       = (RumbleTab._check_threshold_crossing self trigger current_value prev_value).1).
Proof.
  intros Hths step reached left last_threshold.
  assert (Hcall : RumbleTab._check_threshold_crossing self trigger current_value prev_value
                  = foldl step left after).
  { unfold RumbleTab._check_threshold_crossing. rewrite Hths.
    by rewrite foldl_app. }
  split; [done|]. split.
  { rewrite Hcall. apply crossing_scan_extends. }
  subst left last_threshold. destruct reached as [fired0 self0]. subst step.
  unfold RumbleTab.crossing_step. simpl.
  split; [|split; [|split]].
  - intros [Hlo Hhi].
    rewrite (proj2 (Z.ltb_lt _ _) Hlo), (proj2 (Z.leb_le _ _) Hhi). simpl.
    case_bool_decide as Hd; simpl.
    + split; [done|]. split; [done|]. apply last_rumble_threshold_set.
    + split; [done|]. split; done.
  - intros [Hlo Hhi].
    rewrite (proj2 (Z.ltb_ge _ _)) by lia. simpl.
    rewrite (proj2 (Z.ltb_lt _ _) Hlo), (proj2 (Z.leb_le _ _) Hhi). simpl.
    split; [done|]. apply last_rumble_threshold_set.
  - intros Hup Hdown.
    destruct (prev_value <? threshold_value) eqn:E1,
             (threshold_value <=? current_value) eqn:E2; simpl;
      try (apply Z.ltb_lt in E1); try (apply Z.leb_le in E2);
      try (destruct Hup; lia);
      destruct (current_value <? threshold_value) eqn:E3,
               (threshold_value <=? prev_value) eqn:E4; simpl;
      try (apply Z.ltb_lt in E3); try (apply Z.leb_le in E4);
      try (destruct Hdown; lia); done.
  - intros margin. unfold RumbleTab._check_threshold_crossing.
    change (RumbleTab.thresholds (RumbleTab.with_hysteresis_margin margin self))
      with (RumbleTab.thresholds self).
    by rewrite crossing_scan_ignores_margin.
Qed.

Lemma threshold_crossing_at_its_turn_witness :
  ∃ rest, (RumbleTab._check_threshold_crossing tactile_tab "l2" 130 120).1
          = [("l2"%string, 2)] ++ rest.
Proof.
  destruct (threshold_crossing_at_its_turn tactile_tab "l2" 130 120
              [(1, 64)] [(3, 192)] 2 128 eq_refl)
    as (_ & [rest Hrest] & Hup & _).
  destruct Hup as (Hfire & _ & _); [lia|].
  exists rest. rewrite Hrest, Hfire; [reflexivity|]. vm_compute. discriminate.
Defined.

(** C2, as stated, fails, in both of its parts.  (1) With the default
    thresholds L2 goes from 0 to 200 and then down to 100: the value
    crosses threshold 2 (128) downwards, the trigger's last-fired
    threshold is another one (3), so the rule as stated fires a request;
    the call fires none.  (2) In [rearmed_tab] the last-fired threshold of
    L2 is 2 and the previous value is 100; L2 going to 200 crosses
    threshold 2 upwards and ends 72 away from it, far beyond the margin of
    2, so the rule as stated fires a request for threshold 2; the call
    fires one for threshold 3 only. *)
Lemma stated_hysteresis_rule_fails :
  let tab1 := (RumbleTab.check_tactile_feedback tactile_tab 200 0).2 in
  ((2, 128) ∈ RumbleTab.thresholds tab1
   ∧ RumbleTab.spec_crossed (RumbleTab.prev_l2_value tab1) 100 128
   ∧ ¬ RumbleTab.spec_suppressed (RumbleTab.last_rumble_threshold tab1 "l2")
         2 100 128 (RumbleTab.hysteresis_margin tab1)
   ∧ (RumbleTab.check_tactile_feedback tab1 100 0).1 = [])
  ∧ ((2, 128) ∈ RumbleTab.thresholds rearmed_tab
     ∧ RumbleTab.spec_crossed (RumbleTab.prev_l2_value rearmed_tab) 200 128
     ∧ ¬ RumbleTab.spec_suppressed (RumbleTab.last_rumble_threshold rearmed_tab "l2")
           2 200 128 (RumbleTab.hysteresis_margin rearmed_tab)
     ∧ (RumbleTab.check_tactile_feedback rearmed_tab 200 0).1 = [("l2"%string, 3)]).
Proof.
  split; repeat split.
  - vm_compute. set_solver.
  - right. vm_compute. split; congruence.
  - intros [Hlast _]. vm_compute in Hlast. discriminate.
  - vm_compute. set_solver.
  - left. vm_compute. split; congruence.
  - intros [_ Hmargin]. vm_compute in Hmargin. discriminate.
Qed.

(** An instance, the sequence of section 8 of the specification: with
    threshold 128 alone, the L2 readings 120, 130, 129, 131, 126 fire one
    request, at the step from 120 to 130. *)
Example hysteresis_sequence :
  let tab0 :=
    {| RumbleTab.tactile :=
         {| RumbleTab.enabled := true;
            RumbleTab.threshold1_enabled := false; RumbleTab.threshold1_value := 64;
            RumbleTab.threshold2_enabled := true; RumbleTab.threshold2_value := 128;
            RumbleTab.threshold3_enabled := false; RumbleTab.threshold3_value := 192;
            RumbleTab.duration := 50; RumbleTab.intensity := 255 |};
       RumbleTab.prev_l2_value := 120;
       RumbleTab.prev_r2_value := 0;
       RumbleTab.l2_last_rumble_threshold := None;
       RumbleTab.r2_last_rumble_threshold := None;
       RumbleTab.hysteresis_margin := 2;
       RumbleTab.rumble_callbacks := DS4ControlUI.rumble_callbacks |} in
  let '(f1, tab1) := RumbleTab.check_tactile_feedback tab0 130 0 in
  let '(f2, tab2) := RumbleTab.check_tactile_feedback tab1 129 0 in
  let '(f3, tab3) := RumbleTab.check_tactile_feedback tab2 131 0 in
  let '(f4, tab4) := RumbleTab.check_tactile_feedback tab3 126 0 in
  f1 = [("l2"%string, 2)] ∧ f2 = [] ∧ f3 = [] ∧ f4 = [].
Proof. vm_compute. done. Qed.

(** ** From a fired request to the motors *)

Lemma scan_frame_refl (trigger : string) (acc : list (string * Z) * RumbleTab.t) :
  RumbleTab.scan_frame trigger acc acc.
Proof. unfold RumbleTab.scan_frame. by destruct (String.eqb trigger "l2"). Qed.

Lemma scan_frame_trans (trigger : string) (a b c : list (string * Z) * RumbleTab.t) :
  RumbleTab.scan_frame trigger a b → RumbleTab.scan_frame trigger b c → RumbleTab.scan_frame trigger a c.
Proof.
  unfold RumbleTab.scan_frame. intros (-> & -> & -> & -> & Hf1 & Hl1) (-> & -> & -> & -> & Hf2 & Hl2).
  repeat split; auto.
  destruct (String.eqb trigger "l2"); congruence.
Qed.

Lemma crossing_step_frame (trigger : string) (current_value prev_value : Z)
    (acc : list (string * Z) * RumbleTab.t) (th : Z * Z) :
  RumbleTab.scan_frame trigger acc (RumbleTab.crossing_step trigger current_value prev_value acc th).
Proof.
  destruct acc as [fired self], th as [num T].
  unfold RumbleTab.crossing_step.
  destruct (_ && _); [case_bool_decide|destruct (_ && _)];
    try apply scan_frame_refl;
    unfold RumbleTab.scan_frame, RumbleTab.set_last_rumble_threshold;
    destruct (String.eqb trigger "l2"); simpl; repeat split; try done;
    intros Hall; apply Forall_app; split; try done; by constructor.
Qed.

Lemma crossing_scan_frame (trigger : string) (current_value prev_value : Z)
    (ths : list (Z * Z)) (acc : list (string * Z) * RumbleTab.t) :
  RumbleTab.scan_frame trigger acc
    (foldl (RumbleTab.crossing_step trigger current_value prev_value) acc ths).
Proof.
  revert acc. induction ths as [|th ths IH]; intros acc.
  - apply scan_frame_refl.
  - eapply scan_frame_trans; [apply crossing_step_frame|apply IH].
Qed.

Lemma check_tactile_feedback_frame (self : RumbleTab.t) (l2_value r2_value : Z) :
  let r := RumbleTab.check_tactile_feedback self l2_value r2_value in
  RumbleTab.tactile r.2 = RumbleTab.tactile self
  ∧ RumbleTab.rumble_callbacks r.2 = RumbleTab.rumble_callbacks self
  ∧ Forall (λ p, p.1 = "l2"%string ∨ p.1 = "r2"%string) r.1.
Proof.
  unfold RumbleTab.check_tactile_feedback.
  destruct (negb _); [done|].
  unfold RumbleTab._check_threshold_crossing.
  pose proof (crossing_scan_frame "l2" l2_value (RumbleTab.prev_l2_value self)
                (RumbleTab.thresholds self) ([], self)) as Hl.
  destruct (foldl _ _ _) as [fired_l2 self1]. unfold RumbleTab.scan_frame in Hl. simpl in Hl.
  destruct Hl as (Ht1 & Hc1 & _ & _ & Hf1 & _).
  pose proof (crossing_scan_frame "r2" r2_value
                (RumbleTab.prev_r2_value (RumbleTab.set_prev_l2_value l2_value self1))
                (RumbleTab.thresholds (RumbleTab.set_prev_l2_value l2_value self1))
                ([], RumbleTab.set_prev_l2_value l2_value self1)) as Hr.
  destruct (foldl _ _ _) as [fired_r2 self2]. unfold RumbleTab.scan_frame in Hr. simpl in Hr.
  destruct Hr as (Ht2 & Hc2 & _ & _ & Hf2 & _). simpl.
  split; [congruence|]. split; [congruence|].
  apply Forall_app. split.
  - eapply Forall_impl; [by apply Hf1|]. intros p Hp. by left.
  - eapply Forall_impl; [by apply Hf2|]. intros p Hp. by right.
Qed.

(** X5.  The two triggers are scanned one after the other, each against its
    own previous value and its own last-fired threshold: with tactile
    feedback switched on, the requests of a call are those of the scan of
    L2 followed by those of the scan of R2, the latter run on a tab with
    the same thresholds, the same previous R2 value and the same
    last-fired R2 threshold as before the call; the raw values become the
    previous values.  Switched off, a call fires nothing and changes
    nothing. *)
Lemma check_tactile_feedback_per_trigger (self : RumbleTab.t) (l2_value r2_value : Z) :
  let r := RumbleTab.check_tactile_feedback self l2_value r2_value in
  (RumbleTab.enabled (RumbleTab.tactile self) = false → r = ([], self))
  ∧ (RumbleTab.enabled (RumbleTab.tactile self) = true →
     RumbleTab.prev_l2_value r.2 = l2_value
     ∧ RumbleTab.prev_r2_value r.2 = r2_value
     ∧ ∃ mid,
         r.1 = (RumbleTab._check_threshold_crossing self "l2" l2_value
                  (RumbleTab.prev_l2_value self)).1
               ++ (RumbleTab._check_threshold_crossing mid "r2" r2_value
                     (RumbleTab.prev_r2_value self)).1
         ∧ RumbleTab.thresholds mid = RumbleTab.thresholds self
         ∧ RumbleTab.last_rumble_threshold mid "r2"
           = RumbleTab.last_rumble_threshold self "r2").
Proof.
  unfold RumbleTab.check_tactile_feedback. split.
  - by intros ->.
  - intros ->. simpl.
    unfold RumbleTab._check_threshold_crossing.
    pose proof (crossing_scan_frame "l2" l2_value (RumbleTab.prev_l2_value self)
                  (RumbleTab.thresholds self) ([], self)) as Hl.
    destruct (foldl _ _ _) as [fired_l2 self1]. unfold RumbleTab.scan_frame in Hl. simpl in Hl.
    destruct Hl as (Ht1 & _ & _ & Hp1 & _ & Hlast1).
    pose proof (crossing_scan_frame "r2" r2_value
                  (RumbleTab.prev_r2_value (RumbleTab.set_prev_l2_value l2_value self1))
                  (RumbleTab.thresholds (RumbleTab.set_prev_l2_value l2_value self1))
                  ([], RumbleTab.set_prev_l2_value l2_value self1)) as Hr.
    destruct (foldl _ _ _) as [fired_r2 self2] eqn:Hscan.
    unfold RumbleTab.scan_frame in Hr. simpl in Hr.
    destruct Hr as (_ & _ & Hp2 & _ & _ & _). simpl.
    split; [done|]. split; [done|].
    exists (RumbleTab.set_prev_l2_value l2_value self1).
    split; [|split].
    + simpl in Hscan. rewrite <- Hp1. simpl. by rewrite Hscan.
    + unfold RumbleTab.thresholds. simpl. by rewrite Ht1.
    + done.
Qed.

(** X4.  The rumble tab names the triggers ['l2']
    and ['r2'], the window's call-back compares with ["L2"]: every request
    fired by a threshold crossing, of either trigger, writes the report
    that leaves the strong (left) motor at 0 and drives the weak (right)
    motor with the configured intensity. *)
Theorem tactile_requests_drive_weak_motor
    (tab : RumbleTab.t) (data : ControllerData) (e : DS4ControlUI.effect) :
  e ∈ (DS4ControlUI.update_tactile tab data).1 →
  e ∈ DS4ControlUI.set_rumble_simple 0 (RumbleTab.intensity (RumbleTab.tactile tab))
      ++ [DS4ControlUI.After (RumbleTab.duration (RumbleTab.tactile tab))
            "stop_tactile_feedback"].
Proof.
  unfold DS4ControlUI.update_tactile.
  pose proof (check_tactile_feedback_frame tab (raw (l2 data)) (raw (r2 data))) as Hf.
  destruct (RumbleTab.check_tactile_feedback _ _ _) as [fired tab']. simpl in *.
  destruct Hf as (Htac & _ & Hfired).
  intros He. apply list_elem_of_bind in He as ([tr num] & He & Hin).
  apply list_elem_of_bind in He as (tr' & He & Hcb).
  unfold RumbleTab._trigger_tactile_feedback in Hcb.
  case_bool_decide; [|by apply elem_of_nil in Hcb].
  apply list_elem_of_singleton in Hcb as ->.
  rewrite Forall_forall in Hfired. specialize (Hfired _ Hin). simpl in Hfired.
  unfold DS4ControlUI.trigger_tactile_feedback, RumbleTab.get_tactile_settings in He.
  rewrite Htac in He.
  by destruct Hfired as [-> | ->].
Qed.

Lemma tactile_requests_drive_weak_motor_witness :
  DS4ControlUI.HidWrite ([5; 255; 4; 0; 0; 255; 0; 0; 0] ++ replicate 23 0)
  ∈ DS4ControlUI.set_rumble_simple 0 255
    ++ [DS4ControlUI.After 50 "stop_tactile_feedback"].
Proof.
  apply (tactile_requests_drive_weak_motor tactile_tab
           (data_of (trigger_report Byte.x64 Byte.x00))).
  vm_compute. left.
Defined.

(** C3, on the code: L2 pressed from 0 to 100 crosses threshold 1 (64)
    and the request writes [left_rumble = 0], [right_rumble = 255], the
    weak (right) motor, where the specification has L2 drive the strong (left)
    one.  The call-back is reached with the name ['l2'], which is not the
    ["L2"] it tests for; called with ["L2"] it would write
    [left_rumble = 255], [right_rumble = 0]. *)
Lemma l2_crossing_drives_right_motor :
  (DS4ControlUI.update_tactile tactile_tab (data_of (trigger_report Byte.x64 Byte.x00))).1
  = [DS4ControlUI.HidWrite ([5; 255; 4; 0; 0; 255; 0; 0; 0] ++ replicate 23 0);
     DS4ControlUI.After 50 "stop_tactile_feedback"]
  ∧ DS4ControlUI.trigger_tactile_feedback tactile_tab "L2"
    = [DS4ControlUI.HidWrite ([5; 255; 4; 0; 255; 0; 0; 0; 0] ++ replicate 23 0);
       DS4ControlUI.After 50 "stop_tactile_feedback"].
Proof. split; vm_compute; reflexivity. Qed.

(** ** The report decoder *)

Section decoder.

Implicit Types (report : list Byte.byte).

Lemma getitem_Ok report (i : nat) :
  (i < length report)%nat →
  ∃ b, report !! i = Some b ∧ getitem report i = Ok (byte_val b).
Proof.
  intros Hi. destruct (lookup_lt_is_Some_2 report i Hi) as [b Hb].
  exists b. unfold getitem. by rewrite Hb.
Qed.

Lemma length_slice report (a b : nat) :
  length (slice report a b) = ((b - a) `min` (length report - a))%nat.
Proof. unfold slice. by rewrite length_take, length_drop. Qed.

Lemma unpack_h_Ok (bs : list Byte.byte) :
  length bs = 2%nat → ∃ z, unpack_h bs = Ok z.
Proof. destruct bs as [|lo [|hi [|]]]; intros [=]. simpl. eauto. Qed.

Lemma unpack_h_Raise (bs : list Byte.byte) :
  length bs ≠ 2%nat → unpack_h bs = Raise StructError.
Proof. by destruct bs as [|lo [|hi [|]]]. Qed.

Lemma unpack_h_slice_Ok report (a : nat) :
  (a + 2 ≤ length report)%nat → ∃ z, unpack_h (slice report a (a + 2)) = Ok z.
Proof. intros Hl. apply unpack_h_Ok. rewrite length_slice. lia. Qed.

Lemma unpack_h_slice_Raise report (a : nat) :
  (length report < a + 2)%nat → unpack_h (slice report a (a + 2)) = Raise StructError.
Proof. intros Hl. apply unpack_h_Raise. rewrite length_slice. lia. Qed.

Lemma truthy_land_bit (b : Byte.byte) :
  truthy (Z.land (byte_val b) 0x80) = Z.testbit (byte_val b) 7.
Proof. destruct b; reflexivity. Qed.

End decoder.

(** Rewrites the next [report[i]] of the goal to the value it returns. *)
Ltac read_byte :=
  match goal with
  | |- context [getitem ?r ?i] =>
      let b := fresh "b" in
      let Hb := fresh "Hb" in
      let Hg := fresh "Hg" in
      destruct (getitem_Ok r i) as (b & Hb & Hg); [lia|];
      rewrite Hg; clear Hg;
      cbn [mbind mret result_bind result_ret]
  end.

(** Rewrites the next 16-bit field of the goal to the value it returns. *)
Ltac read_short a :=
  let z := fresh "z" in
  let Hz := fresh "Hz" in
  match goal with
  | |- context [unpack_h (slice ?r ?a' ?b)] =>
      constr_eq a a';
      destruct (unpack_h_slice_Ok r a) as [z Hz]; [lia|];
      change (a + 2)%nat with b in Hz; rewrite Hz; clear Hz;
      cbn [mbind mret result_bind result_ret]
  end.

(** The fixed part of the report, bytes 0 to 24, decodes for every report
    that [validate_report] accepts. *)
Ltac read_fixed_part :=
  unfold parse_controller_data;
  cbn [mbind mret result_bind result_ret];
  do 9 read_byte;
  read_short 13%nat; read_short 15%nat; read_short 17%nat;
  read_short 19%nat; read_short 21%nat; read_short 23%nat;
  cbn [mbind mret result_bind result_ret].

(** X1.  Decoding succeeds for a validated report that is shorter than
    36 bytes or has at least 40: touch and battery are zero when the
    report is too short to carry them. *)
Lemma parse_controller_data_Ok (report : list Byte.byte) :
  (25 ≤ length report ≤ 35 ∨ 40 ≤ length report)%nat →
  ∃ data, parse_controller_data report = Ok data
          ∧ ((length report ≤ 35)%nat →
               touchpad data = {| active := false; id := 0; touch_x := 0; touch_y := 0 |})
          ∧ ((length report ≤ 30)%nat → battery data = 0).
Proof.
  intros Hlen.
  remember (parse_controller_data report) as r eqn:Hr. revert Hr.
  read_fixed_part.
  destruct (decide (35 < length report)%nat) as [Htouch|Htouch].
  - repeat read_byte. read_short 36%nat. read_short 38%nat.
    rewrite !decide_True by lia. repeat read_byte.
    cbn [mbind mret result_bind result_ret].
    intros ->. eexists. split; [reflexivity|]. split; intros; lia.
  - cbn [mbind mret result_bind result_ret].
    destruct (decide (30 < length report)%nat) as [Hbat|Hbat].
    + repeat read_byte. cbn [mbind mret result_bind result_ret].
      intros ->. eexists. split; [reflexivity|]. split; [done|]. intros; lia.
    + cbn [mbind mret result_bind result_ret].
      intros ->. eexists. split; [reflexivity|]. done.
Qed.

(** X2.  A validated report of 36 to 39 bytes takes the touch branch
    ([len(report) > 35]) and fails in [struct.unpack]: the slices
    [report[36:38]] and [report[38:40]] are not both two bytes long. *)
Lemma parse_controller_data_Raise (report : list Byte.byte) :
  (36 ≤ length report ≤ 39)%nat →
  validate_report report = true
  ∧ parse_controller_data report = Raise StructError.
Proof.
  intros Hlen. split.
  { unfold validate_report. rewrite decide_False by lia. done. }
  read_fixed_part.
  rewrite !decide_True by lia. repeat read_byte.
  destruct (decide (38 ≤ length report)%nat).
  - read_short 36%nat.
    change (slice report 38 40) with (slice report 38 (38 + 2)).
    by rewrite (unpack_h_slice_Raise report 38) by lia.
  - change (slice report 36 38) with (slice report 36 (36 + 2)).
    by rewrite (unpack_h_slice_Raise report 36) by lia.
Qed.

(** X3.  The touch fields of a report of at least 40 bytes: [active] is
    bit 7 of byte 35 as it stands, [id] its low seven bits. *)
Lemma parse_controller_data_touch (report : list Byte.byte) :
  (40 ≤ length report)%nat →
  ∃ data b35, parse_controller_data report = Ok data
              ∧ report !! 35%nat = Some b35
              ∧ active (touchpad data) = Z.testbit (byte_val b35) 7
              ∧ id (touchpad data) = Z.land (byte_val b35) 0x7F.
Proof.
  intros Hlen.
  remember (parse_controller_data report) as r eqn:Hr. revert Hr.
  read_fixed_part.
  rewrite !decide_True by lia. repeat read_byte.
  read_short 36%nat. read_short 38%nat.
  cbn [mbind mret result_bind result_ret].
  intros ->. eexists _, _. split; [reflexivity|]. split; [eassumption|]. simpl.
  split; [apply truthy_land_bit|]. congruence.
Qed.

Lemma parse_controller_data_Ok_witness :
  ∃ data, parse_controller_data (replicate 25 Byte.xff) = Ok data
          ∧ touchpad data = {| active := false; id := 0; touch_x := 0; touch_y := 0 |}
          ∧ battery data = 0.
Proof.
  destruct (parse_controller_data_Ok (replicate 25 Byte.xff)) as (data & Hd & Ht & Hb).
  { vm_compute. lia. }
  exists data. split; [exact Hd|]. split; [apply Ht|apply Hb]; vm_compute; lia.
Defined.

Lemma parse_controller_data_Raise_witness :
  parse_controller_data (replicate 38 Byte.xff) = Raise StructError.
Proof.
  apply (parse_controller_data_Raise (replicate 38 Byte.xff)). vm_compute. lia.
Defined.

Lemma parse_controller_data_touch_witness :
  ∃ data, parse_controller_data (touch_report Byte.x85) = Ok data
          ∧ active (touchpad data) = true ∧ id (touchpad data) = 5.
Proof.
  destruct (parse_controller_data_touch (touch_report Byte.x85))
    as (data & b35 & Hd & Hb & Ha & Hi).
  { vm_compute. lia. }
  exists data. injection Hb as <-. split; [exact Hd|]. split; [exact Ha|exact Hi].
Defined.

(** C4, on the code: a report of 36 zero bytes passes
    [validate_report], and decoding it raises [struct.error] where the
    specification promises a complete snapshot. *)
Lemma validated_report_fails_to_decode :
  validate_report (replicate 36 Byte.x00) = true
  ∧ parse_controller_data (replicate 36 Byte.x00) = Raise StructError.
Proof. split; vm_compute; reflexivity. Qed.

(** C5, on the code: with bit 7 of byte 35 set the decoded touch is
    active, with bit 7 clear it is not, where the specification has the
    flag negated; the id is the low seven bits, as specified. *)
Lemma touch_active_is_bit7 :
  (∃ data, parse_controller_data (touch_report Byte.x85) = Ok data
           ∧ active (touchpad data) = true ∧ id (touchpad data) = 5)
  ∧ (∃ data, parse_controller_data (touch_report Byte.x05) = Ok data
             ∧ active (touchpad data) = false ∧ id (touchpad data) = 5).
Proof. split; eexists; (split; [vm_compute; reflexivity|]); split; reflexivity. Qed.

(** ** The orientation estimator *)

Section orientation.

Import VisualizationTab.
Local Open Scope R_scope.

Lemma py_div_Ok (x : Z) (y : R) : y ≠ 0 → py_div x y = Ok (IZR x / y).
Proof. intros Hy. unfold py_div. by destruct (Req_dec_T y 0). Qed.

(** C6. One update of the filter, for a non-zero sensitivity.  The roll
    rate comes from the x gyro channel, the pitch rate from the z channel,
    the yaw rate from the y channel.  A locked axis keeps its value.  An
    unlocked roll or pitch becomes the blend of the integrated rate and
    the accelerometer angle, multiplied by the damping factor exactly when
    the magnitude of its rate is below 0.01; an unlocked yaw becomes
    [yaw + rate * dt], without accelerometer term and without damping.
    Offset and locks are left as they were. *)
Theorem orientation_update_axes
    (self : VisualizationTab.t) (gyro_x gyro_y gyro_z accel_x accel_y accel_z : Z)
    (current_time : R) :
  gyro_sensitivity self ≠ 0 →
  let dt := current_time - last_time self in
  let rate (channel : Z) := radians (IZR channel / gyro_sensitivity self) in
  let accel_roll := arctan2 (IZR accel_y) (IZR accel_z) in
  let accel_pitch :=
    arctan2 (IZR (- accel_x)) (sqrt (IZR (accel_y ^ 2 + accel_z ^ 2))) in
  let blend (angle rate_ accel_angle : R) :=
    alpha self * (angle + rate_ * dt) + (1 - alpha self) * accel_angle in
  let damped (rate_ angle : R) :=
    if bool_decide (Rabs rate_ < 1 / 100) then angle * damping_factor self else angle in
  ∃ self' shown,
    update_orientation_with_fusion self gyro_x gyro_y gyro_z accel_x accel_y accel_z
      current_time = Ok (self', shown)
    ∧ roll (orientation self')
      = (if roll (axis_locks self) then roll (orientation self)
         else damped (rate gyro_x) (blend (roll (orientation self)) (rate gyro_x) accel_roll))
    ∧ pitch (orientation self')
      = (if pitch (axis_locks self) then pitch (orientation self)
         else damped (rate gyro_z) (blend (pitch (orientation self)) (rate gyro_z) accel_pitch))
    ∧ yaw (orientation self')
      = (if yaw (axis_locks self) then yaw (orientation self)
         else yaw (orientation self) + rate gyro_y * dt)
    ∧ orientation_offset self' = orientation_offset self
    ∧ axis_locks self' = axis_locks self
    ∧ shown = update_gyro_triangle self (roll (orientation self'))
                (pitch (orientation self')) (yaw (orientation self')).
Proof.
  intros Hs dt rate accel_roll accel_pitch blend damped.
  unfold update_orientation_with_fusion.
  change (gyro_sensitivity (set_last_time current_time self)) with (gyro_sensitivity self).
  rewrite !py_div_Ok by done.
  cbn [mbind mret result_bind result_ret].
  eexists _, _. split; [reflexivity|].
  subst damped blend rate dt accel_roll accel_pitch.
  destruct self as [[r p y] off lt [lr lp ly] a s d].
  cbn [orientation orientation_offset last_time axis_locks alpha gyro_sensitivity
       damping_factor set_last_time set_orientation roll pitch yaw] in *.
  destruct lr, lp, ly; cbn [negb andb roll pitch yaw];
    rewrite ?andb_true_r, ?andb_false_r;
    repeat case_bool_decide; cbn [roll pitch yaw]; done.
Qed.

Lemma orientation_update_axes_witness :
  ∃ self' shown,
    update_orientation_with_fusion (VisualizationTab.__init__ 0) 100 200 300 0 0 1000
      (1 / 100) = Ok (self', shown)
    ∧ yaw (orientation self') = 0 + radians (IZR 200 / 500) * (1 / 100 - 0).
Proof.
  destruct (orientation_update_axes (VisualizationTab.__init__ 0) 100 200 300 0 0 1000
              (1 / 100))
    as (self' & shown & Hrun & _ & _ & Hyaw & _).
  { simpl. lra. }
  exists self', shown. split; [exact Hrun|]. exact Hyaw.
Defined.

(** C8. Capturing the neutral orientation twice in a row, with no filter
    update in between.  A capture stores the filter's current roll, pitch
    and yaw as the offset and changes nothing else, so the second capture
    leaves the tab as the first did; the angles it draws are the
    orientation less the stored offset, which is zero on the three axes
    after each capture; and from then on every drawing shows the angles
    less the captured orientation. *)
Theorem neutral_capture_idempotent (self : VisualizationTab.t) :
  let zero := {| roll := 0; pitch := 0; yaw := 0 |} in
  let first := _set_neutral_orientation self in
  let second := _set_neutral_orientation first.1 in
  first.2 = zero
  ∧ second.2 = zero
  ∧ orientation first.1 = orientation self
  ∧ orientation second.1 = orientation self
  ∧ orientation_offset second.1 = orientation_offset first.1
  ∧ orientation_offset first.1 = orientation self
  ∧ second.1 = first.1
  ∧ first.2
    = {| roll := roll (orientation first.1) - roll (orientation_offset first.1);
         pitch := pitch (orientation first.1) - pitch (orientation_offset first.1);
         yaw := yaw (orientation first.1) - yaw (orientation_offset first.1) |}
  ∧ second.2
    = {| roll := roll (orientation second.1) - roll (orientation_offset second.1);
         pitch := pitch (orientation second.1) - pitch (orientation_offset second.1);
         yaw := yaw (orientation second.1) - yaw (orientation_offset second.1) |}
  ∧ (∀ roll_ pitch_ yaw_,
       update_gyro_triangle first.1 roll_ pitch_ yaw_
       = {| roll := roll_ - roll (orientation self);
            pitch := pitch_ - pitch (orientation self);
            yaw := yaw_ - yaw (orientation self) |})
  ∧ last_time first.1 = last_time self
  ∧ axis_locks first.1 = axis_locks self
  ∧ alpha first.1 = alpha self
  ∧ gyro_sensitivity first.1 = gyro_sensitivity self
  ∧ damping_factor first.1 = damping_factor self.
Proof.
  unfold _set_neutral_orientation, update_gyro_triangle. simpl.
  rewrite !Rminus_diag.
  by destruct self as [[r p y] off lt locks a s d].
Qed.

End orientation.

(** ** The inbound command channel *)

Section ipc.

Import UDPManager.

Variable utf8_decode : list Byte.byte → option string.
Variable json_loads : string → option json.

Local Abbreviation check := (check_ipc_socket utf8_decode json_loads).

(** Whatever the body of the outer [try] did, its two [except] clauses
    leave no exception. *)
Lemma outer_handlers_return (body : io unit) :
  (try_except body (λ _, true)
     (λ e, match e with
           | BlockingIOError => io_ret ()
           | _ => io_print "IPC Socket Error"
           end)).2 = Ok ().
Proof.
  destruct body as [eff [[]|e]]; [done|].
  by destruct e.
Qed.

Lemma calls_app (eff1 eff2 : list effect) : calls (eff1 ++ eff2) = calls eff1 ++ calls eff2.
Proof. unfold calls. apply List.filter_app. Qed.

(** The call-backs invoked by a call are those of the body of its [try]. *)
Lemma outer_handlers_calls (body : io unit) :
  calls (try_except body (λ _, true)
           (λ e, match e with
                 | BlockingIOError => io_ret ()
                 | _ => io_print "IPC Socket Error"
                 end)).1
  = calls body.1.
Proof.
  destruct body as [eff [[]|e]]; [done|].
  destruct e; simpl; rewrite ?calls_app, ?app_nil_r; simpl; by rewrite ?app_nil_r.
Qed.

(** C9. A call of [check_ipc_socket] never raises, whatever the socket
    delivers and whatever the call-backs do.  A payload that is not UTF-8,
    or is neither JSON nor the word [toggle_window], or is JSON without the
    command [set_lightbar], invokes no call-back.  The plain word
    [toggle_window], which is not JSON, invokes the registered
    toggle-window call-back.  A JSON object whose command is
    [set_lightbar] invokes the registered lightbar call-back, first of
    all, with the object's [r], [g] and [b] (0 for a missing one). *)
Theorem ipc_command_dispatch (self : UDPManager.t) :
  (∀ recvfrom, (check self recvfrom).2 = Ok ())
  ∧ (∀ data, utf8_decode data = None → calls (check self (Ok data)).1 = [])
  ∧ (∀ data message,
       utf8_decode data = Some message →
       json_loads message = None →
       message ≠ "toggle_window"%string →
       calls (check self (Ok data)).1 = [])
  ∧ (∀ data message value,
       utf8_decode data = Some message →
       json_loads message = Some value →
       is_set_lightbar value = false →
       calls (check self (Ok data)).1 = [])
  ∧ (∀ data callback,
       utf8_decode data = Some "toggle_window"%string →
       json_loads "toggle_window" = None →
       toggle_window_callback self = Some callback →
       calls (check self (Ok data)).1 = [CallToggleWindow])
  ∧ (∀ data message o callback,
       utf8_decode data = Some message →
       json_loads message = Some (JObject o) →
       o !! "command"%string = Some (JString "set_lightbar") →
       _lightbar_callback self = Some callback →
       ∃ rest,
         calls (check self (Ok data)).1
         = CallLightbar (default (JInt 0) (o !! "r"%string))
                        (default (JInt 0) (o !! "g"%string))
                        (default (JInt 0) (o !! "b"%string)) :: rest).
Proof.
  split; [|split; [|split; [|split; [|split]]]].
  - intros recvfrom. apply outer_handlers_return.
  - intros data Hdec. unfold check_ipc_socket.
    rewrite outer_handlers_calls. simpl. by rewrite Hdec.
  - intros data message Hdec Hjson Hne. unfold check_ipc_socket.
    rewrite outer_handlers_calls. simpl. rewrite Hdec. simpl.
    unfold dispatch_json, legacy_command. rewrite Hjson. simpl.
    rewrite bool_decide_eq_false_2 by done. done.
  - intros data message value Hdec Hjson Hcmd. unfold check_ipc_socket.
    rewrite outer_handlers_calls. simpl. rewrite Hdec. simpl.
    unfold dispatch_json. rewrite Hjson. simpl.
    destruct value as [| | | | | |o]; try done. simpl in *.
    destruct (o !! "command"%string) as [command|]; simpl.
    + by rewrite Hcmd.
    + done.
  - intros data callback Hdec Hjson Hcb. unfold check_ipc_socket.
    rewrite outer_handlers_calls. simpl. rewrite Hdec. simpl.
    unfold dispatch_json, legacy_command. rewrite Hjson, Hcb. simpl.
    by destruct callback as [[]|e].
  - intros data message o callback Hdec Hjson Hcmd Hcb. unfold check_ipc_socket.
    rewrite outer_handlers_calls. simpl. rewrite Hdec. simpl.
    unfold dispatch_json. rewrite Hjson. simpl. rewrite Hcmd, Hcb. simpl.
    destruct (callback _ _ _) as [[]|e]; simpl; [by eauto|].
    destruct e; simpl; eauto.
    unfold legacy_command. case_bool_decide; [|by eauto].
    destruct (toggle_window_callback self) as [[[]|e]|]; simpl; eauto.
Qed.

End ipc.

Lemma ipc_command_dispatch_witness :
  UDPManager.calls
    (UDPManager.check_ipc_socket sample_decode sample_loads sample_manager
       (Ok [Byte.x74; Byte.x6f; Byte.x67; Byte.x67; Byte.x6c; Byte.x65; Byte.x5f;
            Byte.x77; Byte.x69; Byte.x6e; Byte.x64; Byte.x6f; Byte.x77])).1
  = [UDPManager.CallToggleWindow]
  ∧ ∃ rest,
      UDPManager.calls
        (UDPManager.check_ipc_socket sample_decode sample_loads sample_manager
           (Ok [Byte.x6c; Byte.x69; Byte.x67; Byte.x68; Byte.x74; Byte.x62;
                Byte.x61; Byte.x72])).1
      = UDPManager.CallLightbar (UDPManager.JInt 255) (UDPManager.JInt 0)
          (UDPManager.JInt 128) :: rest.
Proof.
  destruct (ipc_command_dispatch sample_decode sample_loads sample_manager)
    as (_ & _ & _ & _ & Htoggle & Hlightbar).
  split.
  - apply (Htoggle _ (Ok ())); reflexivity.
  - destruct (Hlightbar
                [Byte.x6c; Byte.x69; Byte.x67; Byte.x68; Byte.x74; Byte.x62;
                 Byte.x61; Byte.x72]
                "lightbar"%string sample_object (λ _ _ _, Ok ())
                eq_refl eq_refl eq_refl eq_refl) as [rest Hrest].
    exists rest. exact Hrest.
Defined.

(** * Further properties of the code *)

(** ** The decoder, field by field *)

Lemma byte_val_range (b : Byte.byte) : 0 ≤ byte_val b < 256.
Proof. destruct b; vm_compute; split; congruence. Qed.

Lemma lor_shiftl_bytes (lo hi : Z) :
  0 ≤ lo < 256 → Z.lor lo (Z.shiftl hi 8) = lo + 256 * hi.
Proof.
  intros Hlo.
  assert (Hdisj : Z.land lo (Z.shiftl hi 8) = 0).
  { apply Z.bits_inj'. intros n Hn. rewrite Z.land_spec, Z.bits_0.
    destruct (Z.lt_ge_cases n 8).
    - rewrite Z.shiftl_spec_low by lia. apply andb_false_r.
    - rewrite (Z.bits_above_log2 lo n); [done|lia|].
      destruct (Z.eq_dec lo 0) as [->|]; [simpl; lia|].
      apply Z.log2_lt_pow2; [lia|].
      assert (2 ^ 8 ≤ 2 ^ n) by (apply Z.pow_le_mono_r; lia). lia. }
  rewrite <- Z.lxor_lor, <- Z.add_nocarry_lxor by done.
  rewrite Z.shiftl_mul_pow2 by lia. lia.
Qed.

(** [struct.unpack('<h', ...)] reads two's complement, low byte first *)
Lemma unpack_h_twos_complement (lo hi : Byte.byte) :
  ∃ z, unpack_h [lo; hi] = Ok z
       ∧ -32768 ≤ z < 32768
       ∧ z mod 256 = byte_val lo
       ∧ (z / 256) mod 256 = byte_val hi
       ∧ (z < 0 ↔ 128 ≤ byte_val hi).
Proof.
  pose proof (byte_val_range lo) as Hlo. pose proof (byte_val_range hi) as Hhi.
  unfold unpack_h. rewrite lor_shiftl_bytes by done.
  set (u := byte_val lo + 256 * byte_val hi).
  destruct (Z.testbit u 15) eqn:E.
  - apply Z.testbit_true in E; [|lia]. change (2 ^ 15) with 32768 in E.
    eexists. split; [done|]. subst u.
    repeat split; Z.to_euclidean_division_equations; lia.
  - apply Z.testbit_false in E; [|lia]. change (2 ^ 15) with 32768 in E.
    eexists. split; [done|]. subst u.
    repeat split; Z.to_euclidean_division_equations; lia.
Qed.

(* ---- lemmas ---- *)
Lemma getitem_byte_at (report : list Byte.byte) (i : nat) :
  (i < length report)%nat → getitem report i = Ok (byte_at report i).
Proof.
  intros Hi. destruct (getitem_Ok report i Hi) as (b & Hb & ->).
  unfold byte_at. by rewrite Hb.
Qed.

Lemma getitem_Raise (report : list Byte.byte) (i : nat) :
  (length report ≤ i)%nat → getitem report i = Raise IndexError.
Proof.
  intros Hi. unfold getitem. by rewrite lookup_ge_None_2.
Qed.

Lemma unpack_h_slice_int16 (report : list Byte.byte) (a : nat) :
  (a + 2 ≤ length report)%nat →
  unpack_h (slice report a (a + 2)) = Ok (int16_at report a).
Proof.
  intros Hl. unfold slice.
  replace (a + 2 - a)%nat with 2%nat by lia.
  destruct (lookup_lt_is_Some_2 report a) as [lo Hlo]; [lia|].
  destruct (lookup_lt_is_Some_2 report (S a)) as [hi Hhi]; [lia|].
  rewrite (drop_S _ _ _ Hlo). rewrite (drop_S _ _ _ Hhi). cbn [take].
  unfold unpack_h, int16_at, byte_at. rewrite Hlo, Hhi.
  cbn -[Z.testbit Z.lor Z.shiftl Z.mul Z.add Z.sub].
  rewrite lor_shiftl_bytes by apply byte_val_range.
  pose proof (byte_val_range lo). pose proof (byte_val_range hi).
  set (u := byte_val lo + 256 * byte_val hi).
  f_equal. destruct (Z.testbit u 15) eqn:E.
  - apply Z.testbit_true in E; [|lia]. change (2 ^ 15) with 32768 in E.
    rewrite bool_decide_eq_true_2; [done|]. subst u.
    Z.to_euclidean_division_equations; lia.
  - apply Z.testbit_false in E; [|lia]. change (2 ^ 15) with 32768 in E.
    rewrite bool_decide_eq_false_2; [done|]. subst u.
    Z.to_euclidean_division_equations; lia.
Qed.

Lemma truthy_land_testbit (x k : Z) :
  0 ≤ k → truthy (Z.land x (2 ^ k)) = Z.testbit x k.
Proof.
  intros Hk. unfold truthy.
  destruct (Z.testbit x k) eqn:E.
  - apply negb_true_iff, Z.eqb_neq. intros H0.
    assert (Z.testbit (Z.land x (2 ^ k)) k = false) as Hb by (by rewrite H0, Z.bits_0).
    rewrite Z.land_spec, E, Z.pow2_bits_true in Hb by done. discriminate Hb.
  - apply negb_false_iff, Z.eqb_eq. apply Z.bits_inj'. intros n Hn.
    rewrite Z.land_spec, Z.bits_0.
    destruct (Z.eq_dec n k) as [->|Hne].
    + by rewrite E.
    + rewrite Z.pow2_bits_false by lia. apply andb_false_r.
Qed.

Lemma land_ones_mod (x : Z) (k : Z) : 0 ≤ k → Z.land x (2 ^ k - 1) = x `mod` 2 ^ k.
Proof.
  intros Hk. replace (2 ^ k - 1) with (Z.ones k) by (rewrite Z.ones_equiv; lia).
  by apply Z.land_ones.
Qed.

Lemma buttons_decoded (b5 b6 : Z) (report : list Byte.byte) :
  byte_at report 5 = b5 → byte_at report 6 = b6 →
  (list_to_map
      [ ("square", truthy (Z.land b5 0x10));
        ("cross", truthy (Z.land b5 0x20));
        ("circle", truthy (Z.land b5 0x40));
        ("triangle", truthy (Z.land b5 0x80));
        ("l1", truthy (Z.land b6 0x01));
        ("r1", truthy (Z.land b6 0x02));
        ("l2_pressed", truthy (Z.land b6 0x04));
        ("r2_pressed", truthy (Z.land b6 0x08));
        ("share", truthy (Z.land b6 0x10));
        ("options", truthy (Z.land b6 0x20));
        ("l3", truthy (Z.land b6 0x40));
        ("r3", truthy (Z.land b6 0x80)) ]%string : gmap string bool)
  = buttons (decoded report).
Proof.
  intros <- <-. unfold decoded, button_bits. cbn [buttons fmap list_fmap].
  change 0x10 with (2 ^ 4). change 0x20 with (2 ^ 5). change 0x40 with (2 ^ 6).
  change 0x80 with (2 ^ 7). change 0x01 with (2 ^ 0). change 0x02 with (2 ^ 1).
  change 0x04 with (2 ^ 2). change 0x08 with (2 ^ 3).
  by rewrite !truthy_land_testbit by lia.
Qed.

Lemma dpad_decoded (b5 : Z) :
  0 ≤ b5 →
  default "none"%string (DPAD_STATES !! Z.land b5 0x0F)
  = default "none"%string (dpad_names !! Z.to_nat (b5 `mod` 16)).
Proof.
  intros Hb. change 0x0F with (2 ^ 4 - 1). rewrite land_ones_mod by lia.
  change (2 ^ 4) with 16.
  assert (0 ≤ b5 `mod` 16 < 16) as Hr by (apply Z.mod_pos_bound; lia).
  set (n := b5 `mod` 16) in *. clearbody n.
  assert (n = 0 ∨ n = 1 ∨ n = 2 ∨ n = 3 ∨ n = 4 ∨ n = 5 ∨ n = 6 ∨ n = 7 ∨ n = 8
          ∨ n = 9 ∨ n = 10 ∨ n = 11 ∨ n = 12 ∨ n = 13 ∨ n = 14 ∨ n = 15) as Hn by lia.
  repeat (destruct Hn as [->|Hn]; [by vm_compute|]). subst. by vm_compute.
Qed.

Lemma byte_at_range (report : list Byte.byte) (i : nat) : 0 ≤ byte_at report i < 256.
Proof.
  unfold byte_at. destruct (report !! i) as [b|]; simpl; [apply byte_val_range|lia].
Qed.

Ltac decode_step :=
  first
    [ match goal with
      | |- context [getitem ?r ?i] => rewrite (getitem_byte_at r i) by lia
      end
    | match goal with
      | |- context [unpack_h (slice ?r ?a ?b)] =>
          change (slice r a b) with (slice r a (a + 2));
          rewrite (unpack_h_slice_int16 r a) by lia
      end ];
  cbn [mbind mret result_bind result_ret].

Lemma parse_controller_data_decoded (report : list Byte.byte) :
  (25 ≤ length report ≤ 35 ∨ 40 ≤ length report)%nat →
  parse_controller_data report = Ok (decoded report).
Proof.
  intros Hlen. unfold parse_controller_data.
  cbn [mbind mret result_bind result_ret].
  do 15 decode_step.
  assert (Htouch :
    (if decide (35 < length report)%nat
     then
       getitem report 35 ≫= λ b35,
       getitem report 35 ≫= λ b35',
       unpack_h (slice report 36 38) ≫= λ tx,
       unpack_h (slice report 38 40) ≫= λ ty,
       mret {| active := truthy (Z.land b35 128); id := Z.land b35' 127;
               touch_x := tx; touch_y := ty |}
     else mret {| active := false; id := 0; touch_x := 0; touch_y := 0 |})
    = Ok (touchpad (decoded report))).
  { unfold decoded. cbn [touchpad]. destruct (decide (35 < length report)%nat).
    - rewrite ?bool_decide_eq_true_2 by done. repeat decode_step.
      change 128 with (2 ^ 7). rewrite truthy_land_testbit by lia.
      change 127 with (2 ^ 7 - 1). rewrite land_ones_mod by lia. reflexivity.
    - by rewrite ?bool_decide_eq_false_2 by done. }
  rewrite Htouch. cbn [mbind mret result_bind result_ret].
  assert (Hbat :
    (if decide (30 < length report)%nat
     then getitem report 30 ≫= λ b30, mret (Z.land b30 15)
     else mret 0)
    = Ok (battery (decoded report))).
  { unfold decoded. cbn [battery]. destruct (decide (30 < length report)%nat).
    - rewrite ?bool_decide_eq_true_2 by done. repeat decode_step.
      change 15 with (2 ^ 4 - 1). rewrite land_ones_mod by lia. reflexivity.
    - by rewrite ?bool_decide_eq_false_2 by done. }
  rewrite Hbat. cbn [mbind mret result_bind result_ret].
  rewrite (buttons_decoded _ _ report eq_refl eq_refl).
  rewrite dpad_decoded by apply byte_at_range.
  change (Z.land (byte_at report 5) 15) with (Z.land (byte_at report 5) (2 ^ 4 - 1)).
  rewrite land_ones_mod by lia.
  change (Z.land (byte_at report 7) 1) with (Z.land (byte_at report 7) (2 ^ 0)).
  change (Z.land (byte_at report 7) 2) with (Z.land (byte_at report 7) (2 ^ 1)).
  rewrite !truthy_land_testbit by lia.
  reflexivity.
Qed.

Ltac getitem_cases :=
  match goal with
  | |- mbind _ (getitem ?r ?i) = _ =>
      destruct (decide (i < length r)%nat);
      [ rewrite (getitem_byte_at r i) by lia;
        cbn [mbind mret result_bind result_ret]
      | rewrite (getitem_Raise r i) by lia;
        cbn [mbind mret result_bind result_ret] ]
  end.

Ltac unpack_cases :=
  match goal with
  | |- mbind _ (unpack_h (slice ?r ?a ?b)) = _ =>
      change (slice r a b) with (slice r a (a + 2));
      destruct (decide (a + 2 ≤ length r)%nat);
      [ rewrite (unpack_h_slice_int16 r a) by lia;
        cbn [mbind mret result_bind result_ret]
      | rewrite (unpack_h_slice_Raise r a) by lia;
        cbn [mbind mret result_bind result_ret] ]
  end.

Lemma parse_controller_data_short (report : list Byte.byte) :
  (length report < 10)%nat → parse_controller_data report = Raise IndexError.
Proof.
  intros Hlen. unfold parse_controller_data.
  cbn [mbind mret result_bind result_ret].
  repeat (getitem_cases; [|reflexivity]). lia.
Qed.

Lemma parse_controller_data_truncated (report : list Byte.byte) :
  (10 ≤ length report < 25 ∨ 36 ≤ length report ≤ 39)%nat →
  parse_controller_data report = Raise StructError.
Proof.
  intros Hlen. unfold parse_controller_data.
  cbn [mbind mret result_bind result_ret].
  do 9 decode_step.
  repeat (unpack_cases; [|reflexivity]).
  destruct (decide (35 < length report)%nat); [|lia].
  rewrite !(getitem_byte_at report 35) by lia.
  cbn [mbind mret result_bind result_ret].
  change (slice report 36 38) with (slice report 36 (36 + 2)).
  change (slice report 38 40) with (slice report 38 (38 + 2)).
  destruct (decide (38 ≤ length report)%nat).
  - rewrite (unpack_h_slice_int16 report 36) by lia.
    rewrite (unpack_h_slice_Raise report 38) by lia. reflexivity.
  - rewrite (unpack_h_slice_Raise report 36) by lia. reflexivity.
Qed.

Lemma parse_controller_data_cases (report : list Byte.byte) :
  parse_controller_data report
  = if decide (length report < 10)%nat then Raise IndexError
    else if decide (length report < 25 ∨ 36 ≤ length report ≤ 39)%nat
         then Raise StructError
         else Ok (decoded report).
Proof.
  destruct (decide (length report < 10)%nat).
  { by apply parse_controller_data_short. }
  destruct (decide (length report < 25 ∨ 36 ≤ length report ≤ 39)%nat).
  { apply parse_controller_data_truncated. lia. }
  apply parse_controller_data_decoded. lia.
Qed.

Lemma parse_controller_data_inv (report : list Byte.byte) (data : ControllerData) :
  parse_controller_data report = Ok data →
  (25 ≤ length report ≤ 35 ∨ 40 ≤ length report)%nat ∧ data = decoded report.
Proof.
  rewrite parse_controller_data_cases. repeat case_decide; try done.
  intros [= <-]. split; [lia|done].
Qed.

(* ===================== decoder properties ===================== *)

Lemma int16_at_spec (report : list Byte.byte) (a : nat) :
  is_int16 (int16_at report a)
  ∧ int16_at report a `mod` 65536 = byte_at report a + 256 * byte_at report (S a).
Proof.
  pose proof (byte_at_range report a). pose proof (byte_at_range report (S a)).
  unfold is_int16, int16_at. cbv zeta.
  case_bool_decide; split; try lia.
  - rewrite <- (Z.mod_add _ 1) by lia.
    rewrite Z.mod_small; lia.
  - rewrite Z.mod_small; lia.
Qed.

Lemma normalize_stick_range (v : Z) :
  is_byte v → (-1 <= normalize_stick v)%Q ∧ (normalize_stick v < 1)%Q.
Proof.
  unfold is_byte, normalize_stick, Qle, Qlt. simpl. lia.
Qed.

Lemma normalize_trigger_range (v : Z) :
  is_byte v → (0 <= normalize_trigger v)%Q ∧ (normalize_trigger v <= 1)%Q.
Proof.
  unfold is_byte, normalize_trigger, Qle, Qlt. simpl. lia.
Qed.

Lemma is_byte_byte_at (report : list Byte.byte) (i : nat) : is_byte (byte_at report i).
Proof. pose proof (byte_at_range report i). unfold is_byte. lia. Qed.

(** X7.  The outcome of decoding by the length of the report: fewer than
    10 bytes raise [IndexError], 10 to 24 bytes raise [struct.error], and
    a snapshot is returned exactly for 25 to 35 bytes and for 40 bytes or
    more.  A report that decodes is one that [get_report_info] calls
    valid (the converse fails for 36 to 39 bytes). *)
Theorem parse_controller_data_outcome (report : list Byte.byte) :
  ((length report < 10)%nat → parse_controller_data report = Raise IndexError)
  ∧ ((10 ≤ length report < 25)%nat → parse_controller_data report = Raise StructError)
  ∧ ((∃ data, parse_controller_data report = Ok data)
     ↔ (25 ≤ length report ≤ 35 ∨ 40 ≤ length report)%nat)
  ∧ ((∃ data, parse_controller_data report = Ok data) →
     is_valid (get_report_info report) = true).
Proof.
  split; [apply parse_controller_data_short|].
  split; [intros; apply parse_controller_data_truncated; lia|].
  split; [split|].
  - intros [data Hd]. by apply parse_controller_data_inv in Hd as [? _].
  - intros Hlen. exists (decoded report). by apply parse_controller_data_decoded.
  - intros [data Hd]. apply parse_controller_data_inv in Hd as [Hlen _].
    unfold get_report_info, validate_report. cbn [is_valid].
    destruct (decide (length report < 25)%nat); [lia|done].
Qed.

(** X8.  The ranges of a decoded snapshot.  The raw stick and trigger
    values are bytes; each normalised value is the function of its raw
    value ([(raw - 128) / 128], [raw / 255]), so sticks lie in [-1, 1) and
    triggers in [0, 1]; the d-pad code and the battery level lie in
    0 .. 15 and the touch id in 0 .. 127. *)
Theorem parse_controller_data_ranges (report : list Byte.byte) (data : ControllerData) :
  parse_controller_data report = Ok data →
  Forall (λ s : Stick,
            is_byte (raw_x s) ∧ is_byte (raw_y s)
            ∧ stick_x s = normalize_stick (raw_x s)
            ∧ stick_y s = normalize_stick (raw_y s)
            ∧ (-1 <= stick_x s)%Q ∧ (stick_x s < 1)%Q
            ∧ (-1 <= stick_y s)%Q ∧ (stick_y s < 1)%Q)
    [left_stick data; right_stick data]
  ∧ Forall (λ t : Trigger,
              is_byte (raw t) ∧ value t = normalize_trigger (raw t)
              ∧ (0 <= value t)%Q ∧ (value t <= 1)%Q)
      [l2 data; r2 data]
  ∧ 0 ≤ dpad_raw data ≤ 15
  ∧ 0 ≤ battery data ≤ 15
  ∧ 0 ≤ id (touchpad data) ≤ 127.
Proof.
  intros Hd. apply parse_controller_data_inv in Hd as [_ ->].
  unfold decoded. cbn [left_stick right_stick l2 r2 dpad_raw battery touchpad].
  split; [|split; [|split; [|split]]].
  - repeat constructor; cbn [raw_x raw_y stick_x stick_y];
      try apply is_byte_byte_at; apply normalize_stick_range, is_byte_byte_at.
  - repeat constructor; cbn [raw value];
      try apply is_byte_byte_at; apply normalize_trigger_range, is_byte_byte_at.
  - pose proof (Z.mod_pos_bound (byte_at report 5) 16). lia.
  - case_bool_decide; [|lia].
    pose proof (Z.mod_pos_bound (byte_at report 30) 16). lia.
  - case_bool_decide; cbn [id]; [|lia].
    pose proof (Z.mod_pos_bound (byte_at report 35) 128). lia.
Qed.

Lemma parse_controller_data_ranges_witness :
  0 ≤ dpad_raw (data_of (replicate 64 Byte.xff)) ≤ 15
  ∧ 0 ≤ battery (data_of (replicate 64 Byte.xff)) ≤ 15
  ∧ 0 ≤ id (touchpad (data_of (replicate 64 Byte.xff))) ≤ 127.
Proof.
  apply (parse_controller_data_ranges (replicate 64 Byte.xff)). vm_compute. reflexivity.
Defined.

(** X9.  The button layout.  In a decoded snapshot each of the twelve
    buttons is one bit of byte 5 or byte 6 as listed in [button_bits],
    the dictionary has these twelve keys and no other, no two buttons
    read the same bit, and the PS button and the touchpad click are bits
    0 and 1 of byte 7. *)
Theorem parse_controller_data_buttons (report : list Byte.byte) (data : ControllerData) :
  parse_controller_data report = Ok data →
  (∀ name i k, (name, (i, k)) ∈ button_bits →
     buttons data !! name = Some (Z.testbit (byte_at report i) k))
  ∧ dom (buttons data) = list_to_set button_bits.*1
  ∧ size (buttons data) = 12%nat
  ∧ NoDup button_bits.*2
  ∧ ps_button data = Z.testbit (byte_at report 7) 0
  ∧ touchpad_pressed data = Z.testbit (byte_at report 7) 1.
Proof.
  intros Hd. apply parse_controller_data_inv in Hd as [_ ->].
  unfold decoded. cbn [buttons ps_button touchpad_pressed].
  split; [|split; [|split; [|split; [|done]]]].
  - intros name i k Hin. unfold button_bits in Hin.
    repeat (apply elem_of_cons in Hin as [[= -> -> ->]|Hin]; [by vm_compute|]).
    by apply elem_of_nil in Hin.
  - rewrite dom_list_to_map_L. f_equal.
  - rewrite <- size_dom, dom_list_to_map_L. by vm_compute.
  - apply (bool_decide_unpack _). by vm_compute.
Qed.

Lemma parse_controller_data_buttons_witness :
  buttons (data_of (report_with Byte.x28 Byte.x00)) !! "cross"%string
  = Some (Z.testbit (byte_at (report_with Byte.x28 Byte.x00) 5) 5).
Proof.
  apply (parse_controller_data_buttons (report_with Byte.x28 Byte.x00)).
  - vm_compute. reflexivity.
  - vm_compute. set_solver.
Defined.

(** X10.  The d-pad.  The code is the low nibble of byte 5; the codes
    0 .. 7 name the eight directions in clockwise order from ['up'] and
    count as pressed, and every code from 8 to 15 (not only 8) decodes to
    ['none'] and counts as not pressed. *)
Theorem parse_controller_data_dpad (report : list Byte.byte) (data : ControllerData) :
  parse_controller_data report = Ok data →
  dpad_raw data = byte_at report 5 `mod` 16
  ∧ (dpad_raw data < 8 →
       dpad_names !! Z.to_nat (dpad_raw data) = Some (dpad data)
       ∧ is_dpad_pressed data = true)
  ∧ (8 ≤ dpad_raw data → dpad data = "none"%string ∧ is_dpad_pressed data = false).
Proof.
  intros Hd. apply parse_controller_data_inv in Hd as [_ ->].
  unfold is_dpad_pressed, decoded. cbn [dpad dpad_raw].
  pose proof (Z.mod_pos_bound (byte_at report 5) 16) as Hr.
  set (n := byte_at report 5 `mod` 16) in *. clearbody n.
  split; [done|]. split.
  - intros Hn.
    assert (n = 0 ∨ n = 1 ∨ n = 2 ∨ n = 3 ∨ n = 4 ∨ n = 5 ∨ n = 6 ∨ n = 7) as Hc by lia.
    repeat (destruct Hc as [->|Hc]; [by vm_compute|]). subst. by vm_compute.
  - intros Hn.
    assert (dpad_names !! Z.to_nat n = None) as ->.
    { apply lookup_ge_None_2. unfold dpad_names. cbn [length]. lia. }
    done.
Qed.

Lemma parse_controller_data_dpad_witness :
  dpad (data_of (replicate 64 Byte.xff)) = "none"%string
  ∧ is_dpad_pressed (data_of (replicate 64 Byte.xff)) = false.
Proof.
  apply (parse_controller_data_dpad (replicate 64 Byte.xff)); vm_compute; [reflexivity|discriminate].
Defined.

(** X11.  The motion and touch coordinates.  Each gyro and accelerometer
    component of a decoded snapshot is the signed 16-bit number whose
    two's complement is stored low byte first at its offset (13, 15, 17,
    19, 21, 23): it lies in -32768 .. 32767 and is congruent modulo 65536
    to [low + 256 * high].  The same holds for the touch coordinates at
    offsets 36 and 38 when the report has them; otherwise they are 0. *)
Theorem parse_controller_data_sensors (report : list Byte.byte) (data : ControllerData) :
  parse_controller_data report = Ok data →
  let twos_complement_at (z : Z) (offset : nat) :=
    is_int16 z
    ∧ z `mod` 65536 = byte_at report offset + 256 * byte_at report (S offset) in
  twos_complement_at (vec_x (gyro data)) 13%nat
  ∧ twos_complement_at (vec_y (gyro data)) 15%nat
  ∧ twos_complement_at (vec_z (gyro data)) 17%nat
  ∧ twos_complement_at (vec_x (accelerometer data)) 19%nat
  ∧ twos_complement_at (vec_y (accelerometer data)) 21%nat
  ∧ twos_complement_at (vec_z (accelerometer data)) 23%nat
  ∧ ((35 < length report)%nat →
       twos_complement_at (touch_x (touchpad data)) 36%nat
       ∧ twos_complement_at (touch_y (touchpad data)) 38%nat)
  ∧ is_int16 (touch_x (touchpad data)) ∧ is_int16 (touch_y (touchpad data)).
Proof.
  intros Hd. apply parse_controller_data_inv in Hd as [_ ->].
  unfold decoded. cbn [gyro accelerometer touchpad vec_x vec_y vec_z].
  repeat (split; [apply int16_at_spec|]).
  case_bool_decide; cbn [touch_x touch_y].
  - split; [intros _; split; apply int16_at_spec|]. split; apply int16_at_spec.
  - split; [lia|]. unfold is_int16. lia.
Qed.

Lemma parse_controller_data_sensors_witness :
  is_int16 (vec_x (gyro (data_of (replicate 64 Byte.xff))))
  ∧ vec_x (gyro (data_of (replicate 64 Byte.xff))) `mod` 65536
    = byte_at (replicate 64 Byte.xff) 13 + 256 * byte_at (replicate 64 Byte.xff) 14.
Proof.
  apply (parse_controller_data_sensors (replicate 64 Byte.xff)). vm_compute. reflexivity.
Defined.

(** ** The query helpers and the edge detector on sequences *)

Lemma List_filter_sublist {A} (f : A → bool) (l : list A) : List.filter f l `sublist_of` l.
Proof.
  induction l as [|x l IH]; simpl; [constructor|].
  destruct (f x); by constructor.
Qed.

Lemma elem_of_get_pressed_buttons (data : ControllerData) (name : string) :
  name ∈ get_pressed_buttons data ↔ buttons data !! name = Some true.
Proof.
  unfold get_pressed_buttons. rewrite list_elem_of_fmap. split.
  - intros ([k v] & -> & Hin). apply list_elem_of_In, List.filter_In in Hin as [Hin Hv].
    apply list_elem_of_In, elem_of_map_to_list in Hin. simpl in *. by rewrite Hin, Hv.
  - intros Hl. exists (name, true). split; [done|].
    apply list_elem_of_In, List.filter_In. split; [|done].
    by apply list_elem_of_In, elem_of_map_to_list.
Qed.

Lemma is_button_pressed_true (data : ControllerData) (name : string) :
  is_button_pressed data name = true ↔ buttons data !! name = Some true.
Proof.
  unfold is_button_pressed. destruct (buttons data !! name) as [[]|]; simpl; naive_solver.
Qed.

(** X12.  The three queries on the buttons agree.  [get_pressed_buttons]
    lists, each once, exactly the names for which [is_button_pressed] is
    true; a name that is not a key counts as not pressed;
    [is_any_button_pressed] is true exactly when some button is pressed,
    that is when the list is not empty.  And a fresh parser reports a
    press exactly for the names in the list. *)
Theorem pressed_button_queries_agree (data : ControllerData) :
  (∀ name, name ∈ get_pressed_buttons data ↔ is_button_pressed data name = true)
  ∧ (∀ name, buttons data !! name = None → is_button_pressed data name = false)
  ∧ NoDup (get_pressed_buttons data)
  ∧ (is_any_button_pressed data = true ↔ ∃ name, is_button_pressed data name = true)
  ∧ (is_any_button_pressed data = false ↔ get_pressed_buttons data = [])
  ∧ (∀ name, reports_press (check_digital_changes DS4DataParser.__init__ data).1 name
             ↔ name ∈ get_pressed_buttons data).
Proof.
  assert (Hany : is_any_button_pressed data = true
                 ↔ ∃ name, is_button_pressed data name = true).
  { unfold is_any_button_pressed. rewrite List.existsb_exists. split.
    - intros ([k v] & Hin & Hv). exists k. apply is_button_pressed_true.
      apply list_elem_of_In, elem_of_map_to_list in Hin. simpl in Hv. by rewrite Hin, Hv.
    - intros [name Hn]. apply is_button_pressed_true in Hn.
      exists (name, true). split; [|done].
      by apply list_elem_of_In, elem_of_map_to_list. }
  split; [|split; [|split; [|split; [|split]]]].
  - intros name. by rewrite elem_of_get_pressed_buttons, is_button_pressed_true.
  - intros name Hn. unfold is_button_pressed. by rewrite Hn.
  - unfold get_pressed_buttons.
    eapply sublist_NoDup; [apply (NoDup_fst_map_to_list (buttons data))|].
    apply fmap_sublist, List_filter_sublist.
  - exact Hany.
  - rewrite <- not_true_iff_false, Hany. split.
    + intros Hno. apply elem_of_nil_inv. intros name Hin. apply Hno. exists name.
      by apply is_button_pressed_true, elem_of_get_pressed_buttons.
    + intros Hnil [name Hn].
      apply is_button_pressed_true, elem_of_get_pressed_buttons in Hn.
      rewrite Hnil in Hn. by apply elem_of_nil in Hn.
  - intros name. rewrite check_digital_changes_press, elem_of_get_pressed_buttons.
    unfold rising_edge. cbn [DS4DataParser.__init__ prev_buttons].
    rewrite lookup_empty. cbn [default negb].
    destruct (buttons data !! name) as [[]|]; simpl; split; congruence.
Qed.

(** X13.  What a change dictionary can hold.  Every entry of
    [changes['buttons']] has the value [True] and names a button that is
    pressed in the new snapshot and was not pressed in the remembered one;
    a button that is not pressed in the new snapshot has no entry (a
    release is never reported); and [changes['dpad']], when set, is the
    new direction, is not ['none'] and differs from the remembered
    direction. *)
Theorem check_digital_changes_only_presses
    (self : DigitalState) (new_data : ControllerData) (c : Changes) :
  (check_digital_changes self new_data).1 = Some c →
  (∀ button was_reported, changed_buttons c !! button = Some was_reported →
     was_reported = true
     ∧ buttons new_data !! button = Some true
     ∧ default false (prev_buttons self !! button) = false)
  ∧ (∀ button, buttons new_data !! button ≠ Some true → changed_buttons c !! button = None)
  ∧ (∀ direction, changed_dpad c = Some direction →
       direction = dpad new_data
       ∧ direction ≠ "none"%string
       ∧ direction ≠ prev_dpad self).
Proof.
  intros Hc.
  pose proof (button_loop_spec self (buttons new_data)) as [Hlook _].
  unfold check_digital_changes in Hc.
  destruct (map_fold _ _ _) as [btn_changes has_changes]. simpl in Hlook.
  assert (Hrise : ∀ button, rising_edge self (buttons new_data) button = true →
            buttons new_data !! button = Some true
            ∧ default false (prev_buttons self !! button) = false).
  { intros button. unfold rising_edge.
    destruct (buttons new_data !! button) as [[]|]; simpl; [|done..].
    intros ?%negb_true_iff. done. }
  assert (Hbtn : changed_buttons c = btn_changes
                 ∧ changed_dpad c
                   = if bool_decide (dpad new_data ≠ "none"%string)
                        && bool_decide (dpad new_data ≠ prev_dpad self)
                     then Some (dpad new_data) else None).
  { destruct (_ && _), has_changes; simplify_eq/=; done. }
  destruct Hbtn as [Hb Hd]. rewrite Hb, Hd. clear Hc Hb Hd.
  split; [|split].
  - intros button v. rewrite Hlook.
    destruct (rising_edge self (buttons new_data) button) eqn:E; [|done].
    intros [= <-]. split; [done|]. by apply Hrise.
  - intros button Hnot. rewrite Hlook.
    destruct (rising_edge self (buttons new_data) button) eqn:E; [|done].
    by apply Hrise in E as [? _].
  - intros direction.
    destruct (bool_decide (dpad new_data ≠ "none"%string)) eqn:E1; [|done].
    destruct (bool_decide (dpad new_data ≠ prev_dpad self)) eqn:E2; [|done].
    simpl. intros [= <-].
    apply bool_decide_eq_true in E1, E2. done.
Qed.

Lemma check_digital_changes_only_presses_witness :
  buttons cross_held !! "cross"%string = Some true
  ∧ default false (prev_buttons DS4DataParser.__init__ !! "cross"%string) = false.
Proof.
  destruct (check_digital_changes_only_presses DS4DataParser.__init__ cross_held
              {| changed_buttons := {[ "cross"%string := true ]}; changed_dpad := None |})
    as (Hentries & _).
  - vm_compute. reflexivity.
  - destruct (Hentries "cross"%string true) as (_ & Hnow & Hbefore).
    + vm_compute. reflexivity.
    + split; [exact Hnow|exact Hbefore].
Defined.

(** X14.  Held inputs are not reported again.  After any snapshot
    [held], a snapshot in which every pressed button was already pressed
    in [held] and whose d-pad is at rest or where it was in [held] makes
    [check_digital_changes] return [None]; in particular the same snapshot
    twice. *)
Theorem held_inputs_not_repeated
    (self : DigitalState) (held new_data : ControllerData) :
  (∀ button, buttons new_data !! button = Some true → buttons held !! button = Some true) →
  dpad new_data = "none"%string ∨ dpad new_data = dpad held →
  (check_digital_changes (check_digital_changes self held).2 new_data).1 = None.
Proof.
  intros Hbtn Hdpad. apply check_digital_changes_None. split.
  - intros button. apply not_true_iff_false. rewrite rising_edge_after.
    intros [Hnew Hold]. apply Hbtn in Hnew. by rewrite Hnew in Hold.
  - rewrite check_digital_changes_state. unfold dpad_edge. cbn [prev_dpad].
    destruct Hdpad as [-> | ->].
    + by rewrite bool_decide_eq_false_2 by (by intros []).
    + rewrite (bool_decide_eq_false_2 (dpad held ≠ dpad held)) by (by intros []).
      apply andb_false_r.
Qed.

Lemma held_inputs_not_repeated_witness :
  (check_digital_changes (check_digital_changes DS4DataParser.__init__ cross_held).2
     cross_held).1 = None.
Proof.
  apply (held_inputs_not_repeated DS4DataParser.__init__ cross_held cross_held).
  - intros button Hb. exact Hb.
  - right. reflexivity.
Defined.

Lemma run_length (self : DigitalState) (snapshots : list ControllerData) :
  length (run self snapshots).1 = length snapshots.
Proof.
  revert self. induction snapshots as [|d rest IH]; intros self; [done|].
  rewrite run_cons. cbn [length]. by rewrite IH.
Qed.

Lemma dpad_edge_after (self : DigitalState) (prev new_data : ControllerData) :
  dpad_edge (check_digital_changes self prev).2 (dpad new_data) = true
  ↔ dpad new_data ≠ "none"%string ∧ dpad new_data ≠ dpad prev.
Proof.
  rewrite check_digital_changes_state. unfold dpad_edge. cbn [prev_dpad].
  rewrite andb_true_iff, !bool_decide_eq_true. done.
Qed.

(** X15.  The edge detector on a sequence of snapshots of any length.
    There is one result per snapshot, and the result for a snapshot that
    has a predecessor depends on these two only: it reports a press of a
    button exactly when the button is pressed now and was not pressed (or
    not present) before, and a d-pad press exactly for the new direction,
    when that is not ['none'] and differs from the direction before. *)
Theorem run_reports_rising_edges
    (self : DigitalState) (snapshots : list ControllerData) (i : nat)
    (before now : ControllerData) :
  snapshots !! i = Some before →
  snapshots !! S i = Some now →
  length (run self snapshots).1 = length snapshots
  ∧ ∃ out,
      (run self snapshots).1 !! S i = Some out
      ∧ (∀ button,
           reports_press out button
           ↔ buttons now !! button = Some true
             ∧ default false (buttons before !! button) = false)
      ∧ (∀ direction,
           reports_dpad out direction
           ↔ direction = dpad now
             ∧ dpad now ≠ "none"%string ∧ dpad now ≠ dpad before).
Proof.
  intros Hi HSi. split; [apply run_length|].
  revert self snapshots Hi HSi. induction i as [|i IH]; intros self snapshots Hi HSi.
  - destruct snapshots as [|d0 [|d1 rest]]; simpl in Hi, HSi; simplify_eq.
    rewrite !run_cons. eexists. split; [done|]. split.
    + intros button. rewrite check_digital_changes_press. apply rising_edge_after.
    + intros direction. rewrite check_digital_changes_dpad, dpad_edge_after. done.
  - destruct snapshots as [|d0 rest]; [done|].
    rewrite run_cons. cbn [lookup list_lookup] in *.
    apply (IH (check_digital_changes self d0).2 rest Hi HSi).
Qed.

Lemma run_reports_rising_edges_witness :
  ∃ out,
    (run DS4DataParser.__init__ [all_released; cross_held; cross_held]).1 !! 2%nat = Some out
    ∧ (∀ button,
         reports_press out button
         ↔ buttons cross_held !! button = Some true
           ∧ default false (buttons cross_held !! button) = false)
    ∧ (∀ direction,
         reports_dpad out direction
         ↔ direction = dpad cross_held
           ∧ dpad cross_held ≠ "none"%string ∧ dpad cross_held ≠ dpad cross_held).
Proof.
  apply (run_reports_rising_edges DS4DataParser.__init__
           [all_released; cross_held; cross_held] 1 cross_held cross_held);
    reflexivity.
Defined.

(** ** The threshold scan *)

Section crossing_scan.

Variables (trigger : string) (current_value prev_value : Z).

Local Abbreviation step := (RumbleTab.crossing_step trigger current_value prev_value).
Local Abbreviation last_of := (λ self : RumbleTab.t, RumbleTab.last_rumble_threshold self trigger).

Lemma crossing_step_cases (fired : list (string * Z)) (self : RumbleTab.t)
    (threshold_num threshold_value : Z) :
  let r := step (fired, self) (threshold_num, threshold_value) in
  (prev_value < threshold_value ≤ current_value
   ∧ last_of self ≠ Some threshold_num
   ∧ r.1 = fired ++ [(trigger, threshold_num)]
   ∧ last_of r.2 = Some threshold_num)
  ∨ (prev_value < threshold_value ≤ current_value
     ∧ last_of self = Some threshold_num
     ∧ r = (fired, self))
  ∨ (current_value < threshold_value ≤ prev_value
     ∧ r.1 = fired
     ∧ last_of r.2 = None)
  ∨ (¬ prev_value < threshold_value ≤ current_value
     ∧ ¬ current_value < threshold_value ≤ prev_value
     ∧ r = (fired, self)).
Proof.
  cbv zeta. unfold RumbleTab.crossing_step.
  destruct (decide (prev_value < threshold_value ≤ current_value)) as [Hup|Hup].
  - assert ((prev_value <? threshold_value) && (threshold_value <=? current_value) = true)
      as -> by (apply andb_true_iff; split; [apply Z.ltb_lt|apply Z.leb_le]; lia).
    case_bool_decide as Hlast.
    + left. cbn [fst snd]. by rewrite last_rumble_threshold_set.
    + right; left. done.
  - assert ((prev_value <? threshold_value) && (threshold_value <=? current_value) = false)
      as ->.
    { destruct (Z.ltb_spec prev_value threshold_value),
               (Z.leb_spec threshold_value current_value); simpl; try done; lia. }
    destruct (decide (current_value < threshold_value ≤ prev_value)) as [Hdown|Hdown].
    + assert ((current_value <? threshold_value) && (threshold_value <=? prev_value) = true)
        as -> by (apply andb_true_iff; split; [apply Z.ltb_lt|apply Z.leb_le]; lia).
      right; right; left. cbn [fst snd]. by rewrite last_rumble_threshold_set.
    + assert ((current_value <? threshold_value) && (threshold_value <=? prev_value) = false)
        as ->.
      { destruct (Z.ltb_spec current_value threshold_value),
                 (Z.leb_spec threshold_value prev_value); simpl; try done; lia. }
      right; right; right. done.
Qed.

(** A scan fires nothing unless the value rose. *)
Lemma crossing_scan_no_rise (ths : list (Z * Z)) (acc : list (string * Z) * RumbleTab.t) :
  current_value ≤ prev_value → (foldl step acc ths).1 = acc.1.
Proof.
  intros Hle. revert acc. induction ths as [|[n T] ths IH]; intros [fired self]; [done|].
  cbn [foldl]. rewrite IH.
  destruct (crossing_step_cases fired self n T)
    as [(? & _)|[(? & _)|[(_ & -> & _)|(_ & _ & ->)]]]; [lia|lia|done|done].
Qed.

(** What a scan fires is fired for an upward crossing of a listed threshold. *)
Lemma crossing_scan_sound (ths : list (Z * Z)) (acc : list (string * Z) * RumbleTab.t)
    (p : string * Z) :
  p ∈ (foldl step acc ths).1 →
  p ∈ acc.1
  ∨ (p.1 = trigger
     ∧ ∃ threshold_value,
         (p.2, threshold_value) ∈ ths ∧ prev_value < threshold_value ≤ current_value).
Proof.
  revert acc. induction ths as [|[n T] ths IH]; intros [fired self]; [by left|].
  cbn [foldl]. intros Hp. apply IH in Hp as [Hp|(Ht & T' & Hin & Hup)].
  - destruct (crossing_step_cases fired self n T)
      as [(Hup & _ & Hf & _)|[(_ & _ & Hr)|[(_ & Hf & _)|(_ & _ & Hr)]]].
    + rewrite Hf in Hp. apply elem_of_app in Hp as [Hp|Hp]; [by left|].
      apply list_elem_of_singleton in Hp as ->. right. split; [done|].
      exists T. split; [left|done].
    + rewrite Hr in Hp. by left.
    + rewrite Hf in Hp. by left.
    + rewrite Hr in Hp. by left.
  - right. split; [done|]. exists T'. split; [by right|done].
Qed.

(** The numbers fired by a scan are pairwise distinct. *)
Lemma crossing_scan_NoDup (ths : list (Z * Z)) (acc : list (string * Z) * RumbleTab.t) :
  NoDup ths.*1 → NoDup acc.1 →
  (∀ p, p ∈ acc.1 → p.2 ∉ ths.*1) →
  NoDup (foldl step acc ths).1.
Proof.
  revert acc. induction ths as [|[n T] ths IH]; intros [fired self] Hnd Hacc Hfresh; [done|].
  cbn [foldl]. apply NoDup_cons in Hnd as [Hn Hnd]. cbn [fst] in Hn.
  assert (Hrest : ∀ p, p ∈ fired → p.2 ∉ ths.*1).
  { intros p Hp Hin. apply (Hfresh p Hp). cbn [fmap list_fmap fst]. by right. }
  apply IH; [done|..];
    destruct (crossing_step_cases fired self n T)
      as [(_ & _ & Hf & _)|[(_ & _ & Hr)|[(_ & Hf & _)|(_ & _ & Hr)]]];
    rewrite ?Hf, ?Hr; cbn [fst snd]; try done.
  - apply NoDup_app. split; [done|]. split; [|apply NoDup_singleton].
    intros p Hp ->%list_elem_of_singleton.
    apply (Hfresh _ Hp). cbn [fmap list_fmap fst snd]. by left.
  - intros p [Hp| ->%list_elem_of_singleton]%elem_of_app; [by apply Hrest|done].
Qed.

(** When the value rose and the last-fired threshold is not among the
    crossed ones, a scan fires every upward crossing, in order. *)
Lemma crossing_scan_rising (ths : list (Z * Z)) (fired : list (string * Z))
    (self : RumbleTab.t) :
  prev_value < current_value →
  NoDup ths.*1 →
  (∀ n T, last_of self = Some n → (n, T) ∈ ths → ¬ prev_value < T ≤ current_value) →
  (foldl step (fired, self) ths).1
  = fired ++ ((λ th : Z * Z, (trigger, th.1))
                <$> filter (λ th : Z * Z, prev_value < th.2 ≤ current_value) ths).
Proof.
  intros Hrise. revert fired self.
  induction ths as [|[n T] ths IH]; intros fired self Hnd Hlast.
  { cbn. by rewrite app_nil_r. }
  apply NoDup_cons in Hnd as [Hn Hnd]. cbn [fst] in Hn.
  cbn [foldl]. rewrite filter_cons. cbn [snd].
  destruct (crossing_step_cases fired self n T)
    as [(Hup & _ & Hf & Hl)|[(Hup & Hl & _)|[(? & _)|(Hno & _ & Hr)]]].
  - destruct (step (fired, self) (n, T)) as [fired' self'] eqn:E. cbn [fst snd] in *. subst fired'.
    rewrite IH; [|done|].
    + rewrite decide_True by done. cbn [fmap list_fmap fst]. by rewrite <- app_assoc.
    + intros n' T' Hn' Hin. rewrite Hl in Hn'. injection Hn' as <-.
      destruct Hn. apply list_elem_of_fmap. by exists (n, T').
  - destruct (Hlast n T Hl); [left|done].
  - lia.
  - rewrite Hr, decide_False by done. apply IH; [done|].
    intros n' T' Hn' Hin. apply (Hlast n' T' Hn'). by right.
Qed.

(** The last-fired threshold after a scan lies at or below the new value. *)
Lemma crossing_scan_armed (all ths done_ : list (Z * Z))
    (acc : list (string * Z) * RumbleTab.t) :
  (∀ n T T', (n, T) ∈ all → (n, T') ∈ all → T = T') →
  (∀ th, th ∈ ths → th ∈ all) →
  (∀ n T, last_of acc.2 = Some n → (n, T) ∈ all →
     (T ≤ prev_value ∨ T ≤ current_value) ∧ ((n, T) ∈ done_ → T ≤ current_value)) →
  ∀ n T, last_of (foldl step acc ths).2 = Some n → (n, T) ∈ all →
    (T ≤ prev_value ∨ T ≤ current_value) ∧ ((n, T) ∈ done_ ++ ths → T ≤ current_value).
Proof.
  intros Hfun. revert done_ acc.
  induction ths as [|[m Tm] ths IH]; intros done_ [fired self] Hsub Hinv.
  { rewrite app_nil_r. exact Hinv. }
  cbn [foldl]. intros n T Hn Hin.
  assert (Hm : (m, Tm) ∈ all) by (apply Hsub; left).
  replace (done_ ++ (m, Tm) :: ths) with ((done_ ++ [(m, Tm)]) ++ ths)
    by (by rewrite <- app_assoc).
  revert n T Hn Hin. apply IH; [intros th Hth; apply Hsub; by right|].
  cbn [snd] in Hinv.
  destruct (crossing_step_cases fired self m Tm)
    as [(Hup & _ & _ & Hl)|[(Hup & Hl & Hr)|[(_ & _ & Hl)|(Hnu & Hnd & Hr)]]].
  - intros n T Hn Hin. rewrite Hl in Hn. injection Hn as <-.
    rewrite (Hfun m T Tm Hin Hm). split; [right; lia|lia].
  - rewrite Hr. cbn [snd]. intros n T Hn Hin.
    destruct (Hinv n T Hn Hin) as [H1 H2]. split; [done|].
    intros [Hd| [= -> ->]%list_elem_of_singleton]%elem_of_app; [by apply H2|lia].
  - intros n T Hn. by rewrite Hl in Hn.
  - rewrite Hr. cbn [snd]. intros n T Hn Hin.
    destruct (Hinv n T Hn Hin) as [H1 H2]. split; [done|].
    intros [Hd| [= -> ->]%list_elem_of_singleton]%elem_of_app; [by apply H2|lia].
Qed.

End crossing_scan.

Lemma thresholds_NoDup (self : RumbleTab.t) : NoDup (RumbleTab.thresholds self).*1.
Proof.
  unfold RumbleTab.thresholds.
  destruct (RumbleTab.threshold1_enabled _), (RumbleTab.threshold2_enabled _),
           (RumbleTab.threshold3_enabled _); cbn;
    apply (bool_decide_unpack _); by vm_compute.
Qed.

Lemma thresholds_functional (self : RumbleTab.t) (n T T' : Z) :
  (n, T) ∈ RumbleTab.thresholds self → (n, T') ∈ RumbleTab.thresholds self → T = T'.
Proof.
  unfold RumbleTab.thresholds.
  destruct (RumbleTab.threshold1_enabled _), (RumbleTab.threshold2_enabled _),
           (RumbleTab.threshold3_enabled _); cbn;
    rewrite ?elem_of_cons, ?elem_of_nil; intuition congruence.
Qed.

Lemma thresholds_tactile (self self' : RumbleTab.t) :
  RumbleTab.tactile self' = RumbleTab.tactile self →
  RumbleTab.thresholds self' = RumbleTab.thresholds self.
Proof. unfold RumbleTab.thresholds. by intros ->. Qed.

Lemma check_tactile_feedback_scans (self : RumbleTab.t) (l2_value r2_value : Z) :
  RumbleTab.enabled (RumbleTab.tactile self) = true →
  ∃ f1 s1 f2 s2,
    foldl (RumbleTab.crossing_step "l2" l2_value (RumbleTab.prev_l2_value self))
      ([], self) (RumbleTab.thresholds self) = (f1, s1)
    ∧ foldl (RumbleTab.crossing_step "r2" r2_value (RumbleTab.prev_r2_value self))
        ([], RumbleTab.set_prev_l2_value l2_value s1) (RumbleTab.thresholds self) = (f2, s2)
    ∧ RumbleTab.check_tactile_feedback self l2_value r2_value
      = (f1 ++ f2, RumbleTab.set_prev_r2_value r2_value s2)
    ∧ RumbleTab.tactile s1 = RumbleTab.tactile self
    ∧ RumbleTab.r2_last_rumble_threshold s1 = RumbleTab.r2_last_rumble_threshold self
    ∧ RumbleTab.tactile s2 = RumbleTab.tactile self
    ∧ RumbleTab.l2_last_rumble_threshold s2 = RumbleTab.l2_last_rumble_threshold s1
    ∧ RumbleTab.prev_l2_value s2 = l2_value
    ∧ Forall (λ p, p.1 = "l2"%string) f1
    ∧ Forall (λ p, p.1 = "r2"%string) f2.
Proof.
  intros Hen.
  pose proof (crossing_scan_frame "l2" l2_value (RumbleTab.prev_l2_value self)
                (RumbleTab.thresholds self) ([], self)) as Hl.
  destruct (foldl (RumbleTab.crossing_step "l2" l2_value (RumbleTab.prev_l2_value self))
              ([], self) (RumbleTab.thresholds self)) as [f1 s1] eqn:E1.
  unfold RumbleTab.scan_frame in Hl.
  cbn [fst snd String.eqb Ascii.eqb Bool.eqb] in Hl.
  destruct Hl as (Ht1 & _ & _ & Hp1 & Hf1 & Hlast1).
  pose proof (crossing_scan_frame "r2" r2_value (RumbleTab.prev_r2_value self)
                (RumbleTab.thresholds self)
                ([], RumbleTab.set_prev_l2_value l2_value s1)) as Hr.
  destruct (foldl (RumbleTab.crossing_step "r2" r2_value (RumbleTab.prev_r2_value self))
              ([], RumbleTab.set_prev_l2_value l2_value s1) (RumbleTab.thresholds self))
    as [f2 s2] eqn:E2.
  unfold RumbleTab.scan_frame in Hr.
  cbn [fst snd String.eqb Ascii.eqb Bool.eqb RumbleTab.set_prev_l2_value
       RumbleTab.tactile RumbleTab.prev_l2_value RumbleTab.l2_last_rumble_threshold] in Hr.
  destruct Hr as (Ht2 & _ & Hp2 & _ & Hf2 & Hlast2).
  exists f1, s1, f2, s2.
  split; [done|]. split; [done|]. split.
  { unfold RumbleTab.check_tactile_feedback. rewrite Hen. cbn [negb].
    unfold RumbleTab._check_threshold_crossing. rewrite E1.
    rewrite (thresholds_tactile self (RumbleTab.set_prev_l2_value l2_value s1)) by done.
    cbn [RumbleTab.prev_r2_value RumbleTab.set_prev_l2_value]. rewrite Hp1.
    by rewrite E2. }
  repeat split; try done; try congruence.
  - by apply Hf1.
  - by apply Hf2.
Qed.

Lemma upward_crossings_no_rise (self : RumbleTab.t) (trigger : string)
    (current_value prev_value : Z) :
  current_value ≤ prev_value →
  RumbleTab.upward_crossings self trigger current_value prev_value = [].
Proof.
  intros Hle. unfold RumbleTab.upward_crossings.
  induction (RumbleTab.thresholds self) as [|th ths IH]; [done|].
  rewrite filter_cons, decide_False by lia. exact IH.
Qed.

Lemma crossing_scan_fires_upward_crossings (self : RumbleTab.t) (trigger : string)
    (current_value prev_value : Z) (start : RumbleTab.t) :
  RumbleTab.thresholds start = RumbleTab.thresholds self →
  (∀ n T, RumbleTab.last_rumble_threshold start trigger = Some n →
          (n, T) ∈ RumbleTab.thresholds self → T ≤ prev_value) →
  (foldl (RumbleTab.crossing_step trigger current_value prev_value) ([], start)
     (RumbleTab.thresholds self)).1
  = RumbleTab.upward_crossings self trigger current_value prev_value.
Proof.
  intros Hths Harmed.
  destruct (decide (prev_value < current_value)) as [Hrise|Hno].
  - rewrite crossing_scan_rising; [done|done|apply thresholds_NoDup|].
    intros n T Hn Hin [Hup _]. specialize (Harmed n T Hn Hin). lia.
  - rewrite crossing_scan_no_rise by lia.
    by rewrite upward_crossings_no_rise by lia.
Qed.

(** X16.  When the settings are left alone the last-fired bookkeeping
    never hides a crossing.  Call a tab armed when, for each trigger, the
    last-fired threshold (if it is enabled) lies at or below the previous
    value.  A new tab is armed, toggling tactile feedback keeps it armed,
    and [check_tactile_feedback] keeps it armed; and on an armed tab with
    tactile feedback on, a call fires exactly one request for every
    enabled threshold [T] with [prev < T <= value], for L2 and then for
    R2, each in the order of the threshold numbers. *)
Theorem armed_crossings_all_fire :
  (∀ callbacks, RumbleTab.armed (RumbleTab.__init__ callbacks))
  ∧ (∀ self checked,
       RumbleTab.armed self →
       RumbleTab.armed (RumbleTab._on_toggle_tactile_feedback checked self))
  ∧ (∀ self l2_value r2_value,
       RumbleTab.armed self →
       let r := RumbleTab.check_tactile_feedback self l2_value r2_value in
       RumbleTab.armed r.2
       ∧ (RumbleTab.enabled (RumbleTab.tactile self) = true →
          r.1 = RumbleTab.upward_crossings self "l2" l2_value (RumbleTab.prev_l2_value self)
                ++ RumbleTab.upward_crossings self "r2" r2_value
                     (RumbleTab.prev_r2_value self))).
Proof.
  split; [|split].
  - intros callbacks. split; intros n T Hn; discriminate Hn.
  - intros self checked [H1 H2]. split; intros n T Hn Hin; [apply (H1 n T)|apply (H2 n T)];
      done.
  - intros self l2_value r2_value [Hl2 Hr2]. cbv zeta.
    destruct (RumbleTab.enabled (RumbleTab.tactile self)) eqn:Hen.
    2:{ unfold RumbleTab.check_tactile_feedback. rewrite Hen. cbn [negb snd]. done. }
    destruct (check_tactile_feedback_scans self l2_value r2_value Hen)
      as (f1 & s1 & f2 & s2 & E1 & E2 & -> & Ht1 & Hlast1 & Ht2 & Hlast2 & Hp2 & _ & _).
    cbn [fst snd]. split.
    + assert (Hths : RumbleTab.thresholds (RumbleTab.set_prev_r2_value r2_value s2)
                     = RumbleTab.thresholds self) by (by apply thresholds_tactile).
      split; intros n T Hn Hin; rewrite Hths in Hin;
        cbn [RumbleTab.set_prev_r2_value RumbleTab.prev_l2_value RumbleTab.prev_r2_value
             RumbleTab.l2_last_rumble_threshold RumbleTab.r2_last_rumble_threshold] in *.
      * rewrite Hp2.
        pose proof (crossing_scan_armed "l2" l2_value (RumbleTab.prev_l2_value self)
                      (RumbleTab.thresholds self) (RumbleTab.thresholds self) []
                      ([], self) (thresholds_functional self) (λ _ H, H)) as Hscan.
        rewrite E1 in Hscan. cbn [snd app] in Hscan.
        apply (Hscan (λ n T Hn Hin, conj (or_introl (Hl2 n T Hn Hin))
                                         (λ H, False_ind _ (proj1 (elem_of_nil _) H)))
                 n T); [|done|done].
        unfold RumbleTab.last_rumble_threshold. cbn [String.eqb Ascii.eqb Bool.eqb].
        by rewrite <- Hlast2.
      * pose proof (crossing_scan_armed "r2" r2_value (RumbleTab.prev_r2_value self)
                      (RumbleTab.thresholds self) (RumbleTab.thresholds self) []
                      ([], RumbleTab.set_prev_l2_value l2_value s1)
                      (thresholds_functional self) (λ _ H, H)) as Hscan.
        rewrite E2 in Hscan. cbn [snd app] in Hscan.
        apply (Hscan (λ n T Hn Hin,
                        conj (or_introl (Hr2 n T (eq_trans (eq_sym Hlast1) Hn) Hin))
                             (λ H, False_ind _ (proj1 (elem_of_nil _) H)))
                 n T); done.
    + intros _. f_equal.
      * rewrite <- (crossing_scan_fires_upward_crossings self "l2" l2_value
                      (RumbleTab.prev_l2_value self) self eq_refl Hl2).
        by rewrite E1.
      * rewrite <- (crossing_scan_fires_upward_crossings self "r2" r2_value
                      (RumbleTab.prev_r2_value self)
                      (RumbleTab.set_prev_l2_value l2_value s1)).
        -- by rewrite E2.
        -- by apply thresholds_tactile.
        -- intros n T Hn Hin. apply (Hr2 n T); [|done]. by rewrite <- Hlast1.
Qed.

(** X6.  A call of [check_tactile_feedback] fires a request only for an
    upward crossing: every fired request names a trigger and an enabled
    threshold [T] with [prev < T <= value] for that trigger's previous and
    new raw value, and tactile feedback is switched on.  No request is
    fired twice in a call, and a call in which neither trigger rose fires
    nothing. *)
Theorem tactile_requests_need_upward_crossing
    (self : RumbleTab.t) (l2_value r2_value : Z) :
  let r := RumbleTab.check_tactile_feedback self l2_value r2_value in
  (∀ trigger threshold_num,
     (trigger, threshold_num) ∈ r.1 →
     RumbleTab.enabled (RumbleTab.tactile self) = true
     ∧ ∃ threshold_value,
         (threshold_num, threshold_value) ∈ RumbleTab.thresholds self
         ∧ ((trigger = "l2"%string
             ∧ RumbleTab.prev_l2_value self < threshold_value ≤ l2_value)
            ∨ (trigger = "r2"%string
               ∧ RumbleTab.prev_r2_value self < threshold_value ≤ r2_value)))
  ∧ NoDup r.1
  ∧ (l2_value ≤ RumbleTab.prev_l2_value self →
     r2_value ≤ RumbleTab.prev_r2_value self →
     r.1 = []).
Proof.
  cbv zeta.
  destruct (RumbleTab.enabled (RumbleTab.tactile self)) eqn:Hen.
  2:{ unfold RumbleTab.check_tactile_feedback. rewrite Hen. cbn [negb fst].
      split; [|split; [constructor|done]].
      intros trigger n Hin. by apply elem_of_nil in Hin. }
  destruct (check_tactile_feedback_scans self l2_value r2_value Hen)
    as (f1 & s1 & f2 & s2 & E1 & E2 & -> & _ & _ & _ & _ & _ & Hf1 & Hf2).
  cbn [fst].
  assert (Hs1 : ∀ p, p ∈ f1 → p.1 = "l2"%string
            ∧ ∃ T, (p.2, T) ∈ RumbleTab.thresholds self
                   ∧ RumbleTab.prev_l2_value self < T ≤ l2_value).
  { intros p Hp.
    destruct (crossing_scan_sound "l2" l2_value (RumbleTab.prev_l2_value self)
                (RumbleTab.thresholds self) ([], self) p) as [Hnil|H]; [by rewrite E1| |done].
    by apply elem_of_nil in Hnil. }
  assert (Hs2 : ∀ p, p ∈ f2 → p.1 = "r2"%string
            ∧ ∃ T, (p.2, T) ∈ RumbleTab.thresholds self
                   ∧ RumbleTab.prev_r2_value self < T ≤ r2_value).
  { intros p Hp.
    destruct (crossing_scan_sound "r2" r2_value (RumbleTab.prev_r2_value self)
                (RumbleTab.thresholds self)
                ([], RumbleTab.set_prev_l2_value l2_value s1) p) as [Hnil|H];
      [by rewrite E2| |done].
    by apply elem_of_nil in Hnil. }
  split; [|split].
  - intros trigger n [Hin|Hin]%elem_of_app; split; try done.
    + destruct (Hs1 _ Hin) as (Ht & T & HT & Hup). exists T. split; [done|]. left. done.
    + destruct (Hs2 _ Hin) as (Ht & T & HT & Hup). exists T. split; [done|]. right. done.
  - apply NoDup_app. split; [|split].
    + pose proof (crossing_scan_NoDup "l2" l2_value (RumbleTab.prev_l2_value self)
                    (RumbleTab.thresholds self) ([], self) (thresholds_NoDup self)) as Hnd.
      rewrite E1 in Hnd. apply Hnd; [constructor|].
      intros p Hp. by apply elem_of_nil in Hp.
    + intros p Hp1 Hp2. apply Hs1 in Hp1 as [Hp1 _]. apply Hs2 in Hp2 as [Hp2 _].
      rewrite Hp1 in Hp2. discriminate Hp2.
    + pose proof (crossing_scan_NoDup "r2" r2_value (RumbleTab.prev_r2_value self)
                    (RumbleTab.thresholds self)
                    ([], RumbleTab.set_prev_l2_value l2_value s1)
                    (thresholds_NoDup self)) as Hnd.
      rewrite E2 in Hnd. apply Hnd; [constructor|].
      intros p Hp. by apply elem_of_nil in Hp.
  - intros Hl Hr.
    pose proof (crossing_scan_no_rise "l2" l2_value (RumbleTab.prev_l2_value self)
                  (RumbleTab.thresholds self) ([], self) Hl) as H1.
    pose proof (crossing_scan_no_rise "r2" r2_value (RumbleTab.prev_r2_value self)
                  (RumbleTab.thresholds self)
                  ([], RumbleTab.set_prev_l2_value l2_value s1) Hr) as H2.
    rewrite E1 in H1. rewrite E2 in H2. cbn [fst] in H1, H2. by rewrite H1, H2.
Qed.

(** ** The orientation filter on sequences, the drawing, the axis locks *)

Section orientation_runs.

Import VisualizationTab.
Local Open Scope R_scope.

(** One update for a non-zero sensitivity, on the attributes. *)
Lemma update_orientation_with_fusion_Ok
    (self : VisualizationTab.t) (gyro_x gyro_y gyro_z accel_x accel_y accel_z : Z)
    (current_time : R) :
  gyro_sensitivity self ≠ 0 →
  ∃ self' shown,
    update_orientation_with_fusion self gyro_x gyro_y gyro_z accel_x accel_y accel_z
      current_time = Ok (self', shown)
    ∧ last_time self' = current_time
    ∧ axis_locks self' = axis_locks self
    ∧ alpha self' = alpha self
    ∧ gyro_sensitivity self' = gyro_sensitivity self
    ∧ damping_factor self' = damping_factor self
    ∧ (yaw (axis_locks self) = false →
       yaw (orientation self')
       = yaw (orientation self)
         + radians (IZR gyro_y / gyro_sensitivity self) * (current_time - last_time self))
    ∧ (roll (axis_locks self) = false →
       Rabs (radians (IZR gyro_x / gyro_sensitivity self)) < 1 / 100 →
       roll (orientation self')
       = (alpha self
          * (roll (orientation self)
             + radians (IZR gyro_x / gyro_sensitivity self)
               * (current_time - last_time self))
          + (1 - alpha self) * arctan2 (IZR accel_y) (IZR accel_z))
         * damping_factor self)
    ∧ (pitch (axis_locks self) = false →
       Rabs (radians (IZR gyro_z / gyro_sensitivity self)) < 1 / 100 →
       pitch (orientation self')
       = (alpha self
          * (pitch (orientation self)
             + radians (IZR gyro_z / gyro_sensitivity self)
               * (current_time - last_time self))
          + (1 - alpha self)
            * arctan2 (IZR (- accel_x)) (sqrt (IZR (accel_y ^ 2 + accel_z ^ 2))))
         * damping_factor self).
Proof.
  intros Hs.
  unfold update_orientation_with_fusion.
  change (gyro_sensitivity (set_last_time current_time self)) with (gyro_sensitivity self).
  rewrite !py_div_Ok by done.
  cbn [mbind mret result_bind result_ret].
  eexists _, _. split; [reflexivity|].
  destruct self as [[r p y] off lt [lr lp ly] a s d].
  cbn [orientation orientation_offset last_time axis_locks alpha gyro_sensitivity
       damping_factor set_last_time set_orientation roll pitch yaw] in *.
  repeat split; try done.
  - intros ->. destruct lr, lp; cbn [negb andb roll pitch yaw];
      rewrite ?andb_true_r, ?andb_false_r; repeat case_bool_decide; done.
  - intros -> Hsmall. rewrite (bool_decide_eq_true_2 _ Hsmall).
    destruct lp, ly; cbn [negb andb roll pitch yaw];
      rewrite ?andb_true_r, ?andb_false_r; repeat case_bool_decide; done.
  - intros -> Hsmall. rewrite (bool_decide_eq_true_2 _ Hsmall).
    destruct lr, ly; cbn [negb andb roll pitch yaw];
      rewrite ?andb_true_r, ?andb_false_r; repeat case_bool_decide; done.
Qed.

Lemma run_fusion_cons (self : VisualizationTab.t) (reading : Reading)
    (rest : list Reading) (self' : VisualizationTab.t) (shown : Axes R) :
  update_orientation_with_fusion self
    (vec_x (reading_gyro reading)) (vec_y (reading_gyro reading))
    (vec_z (reading_gyro reading))
    (vec_x (reading_accel reading)) (vec_y (reading_accel reading))
    (vec_z (reading_accel reading))
    (reading_time reading) = Ok (self', shown) →
  run_fusion self (reading :: rest) = run_fusion self' rest.
Proof. intros H. cbn [run_fusion]. by rewrite H. Qed.

(** X17.  Yaw is the integral of the y gyro channel alone.  Over any
    sequence of updates with the yaw axis unlocked, a non-zero
    sensitivity and the same y reading, the yaw grows by the rate times
    the time from the tab's [last_time] to the last update: it does not
    depend on how the interval is cut into updates, nor on the other gyro
    channels or the accelerometer, and it is not damped. *)
Theorem yaw_integrates_gyro
    (self : VisualizationTab.t) (readings : list Reading) (gyro_y : Z) :
  gyro_sensitivity self ≠ 0 →
  yaw (axis_locks self) = false →
  Forall (λ reading, vec_y (reading_gyro reading) = gyro_y) readings →
  ∃ self',
    run_fusion self readings = Ok self'
    ∧ last_time self' = default (last_time self) (last (reading_time <$> readings))
    ∧ yaw (orientation self')
      = yaw (orientation self)
        + radians (IZR gyro_y / gyro_sensitivity self) * (last_time self' - last_time self).
Proof.
  intros Hs Hy Hall. revert self Hs Hy.
  induction Hall as [|reading rest Hg _ IH]; intros self Hs Hy.
  - exists self. split; [done|]. split; [done|]. lra.
  - destruct (update_orientation_with_fusion_Ok self
                (vec_x (reading_gyro reading)) (vec_y (reading_gyro reading))
                (vec_z (reading_gyro reading))
                (vec_x (reading_accel reading)) (vec_y (reading_accel reading))
                (vec_z (reading_accel reading)) (reading_time reading) Hs)
      as (self1 & shown & Hrun & Ht & Hl & _ & Hsens & _ & Hyaw & _).
    destruct (IH self1) as (self' & Hrun' & Ht' & Hyaw').
    { by rewrite Hsens. }
    { by rewrite Hl. }
    exists self'. split; [by rewrite (run_fusion_cons _ _ _ _ _ Hrun)|]. split.
    + rewrite Ht', Ht. rewrite fmap_cons, last_cons.
      by destruct (last (reading_time <$> rest)).
    + rewrite Hyaw', (Hyaw Hy), Hsens, Ht, Hg. lra.
Qed.

Lemma yaw_integrates_gyro_witness :
  ∃ self',
    run_fusion (VisualizationTab.__init__ 0)
      [ {| reading_gyro := {| vec_x := 5; vec_y := 200; vec_z := -7 |};
           reading_accel := {| vec_x := 0; vec_y := 0; vec_z := 8000 |};
           reading_time := 1 |};
        {| reading_gyro := {| vec_x := 0; vec_y := 200; vec_z := 0 |};
           reading_accel := {| vec_x := 100; vec_y := 0; vec_z := 8000 |};
           reading_time := 3 |} ] = Ok self'
    ∧ last_time self' = 3
    ∧ yaw (orientation self') = 0 + radians (IZR 200 / 500) * (last_time self' - 0).
Proof.
  destruct (yaw_integrates_gyro (VisualizationTab.__init__ 0)
              [ {| reading_gyro := {| vec_x := 5; vec_y := 200; vec_z := -7 |};
                   reading_accel := {| vec_x := 0; vec_y := 0; vec_z := 8000 |};
                   reading_time := 1 |};
                {| reading_gyro := {| vec_x := 0; vec_y := 200; vec_z := 0 |};
                   reading_accel := {| vec_x := 100; vec_y := 0; vec_z := 8000 |};
                   reading_time := 3 |} ] 200)
    as (self' & Hrun & Ht & Hyaw).
  - simpl. lra.
  - reflexivity.
  - repeat constructor.
  - exists self'. split; [exact Hrun|]. split; [exact Ht|exact Hyaw].
Defined.

Lemma arctan2_0_pos (x : R) : 0 < x → arctan2 0 x = 0.
Proof.
  intros Hx. unfold arctan2. destruct (Rlt_dec 0 x); [|done].
  replace (0 / x) with 0 by (field; lra). apply atan_0.
Qed.

(** X18.  Return to neutral at rest.  Over any sequence of updates with
    roll and pitch unlocked, a non-zero sensitivity, no rotation about the
    x and z axes and gravity along the positive z axis alone, each update
    multiplies roll and pitch by [alpha * damping_factor], whatever the
    clock readings: after [n] updates they are the initial angles times
    [(alpha * damping_factor) ^ n]. *)
Theorem orientation_decays_at_rest
    (self : VisualizationTab.t) (readings : list Reading) :
  gyro_sensitivity self ≠ 0 →
  roll (axis_locks self) = false →
  pitch (axis_locks self) = false →
  Forall (λ reading,
            vec_x (reading_gyro reading) = 0%Z ∧ vec_z (reading_gyro reading) = 0%Z
            ∧ vec_x (reading_accel reading) = 0%Z ∧ vec_y (reading_accel reading) = 0%Z
            ∧ (0 < vec_z (reading_accel reading))%Z) readings →
  ∃ self',
    run_fusion self readings = Ok self'
    ∧ roll (orientation self')
      = roll (orientation self) * (alpha self * damping_factor self) ^ length readings
    ∧ pitch (orientation self')
      = pitch (orientation self) * (alpha self * damping_factor self) ^ length readings.
Proof.
  intros Hs Hr Hp Hall. revert self Hs Hr Hp.
  induction Hall as [|reading rest (Hgx & Hgz & Hax & Hay & Haz) _ IH]; intros self Hs Hr Hp.
  - exists self. split; [done|]. cbn [length pow]. split; lra.
  - destruct (update_orientation_with_fusion_Ok self
                (vec_x (reading_gyro reading)) (vec_y (reading_gyro reading))
                (vec_z (reading_gyro reading))
                (vec_x (reading_accel reading)) (vec_y (reading_accel reading))
                (vec_z (reading_accel reading)) (reading_time reading) Hs)
      as (self1 & shown & Hrun & _ & Hl & Ha & Hsens & Hd & _ & Hroll & Hpitch).
    assert (Hrate : Rabs (radians (IZR 0 / gyro_sensitivity self)) < 1 / 100).
    { unfold radians. replace (IZR 0 / gyro_sensitivity self * (PI / 180)) with 0
        by (field; done).
      rewrite Rabs_R0. lra. }
    rewrite Hgx in Hroll. rewrite Hgz in Hpitch.
    specialize (Hroll Hr Hrate). specialize (Hpitch Hp Hrate).
    rewrite Hay in Hroll. rewrite Hax, Hay in Hpitch.
    assert (0 < IZR (vec_z (reading_accel reading))) as Hz by (by apply IZR_lt).
    rewrite arctan2_0_pos in Hroll by done.
    change (IZR (- 0)) with 0 in Hpitch.
    rewrite arctan2_0_pos in Hpitch.
    2:{ apply sqrt_lt_R0. apply IZR_lt. lia. }
    destruct (IH self1) as (self' & Hrun' & Hroll' & Hpitch').
    { by rewrite Hsens. }
    { by rewrite Hl. }
    { by rewrite Hl. }
    exists self'. split; [by rewrite (run_fusion_cons _ _ _ _ _ Hrun)|].
    rewrite Hroll', Hpitch', Hroll, Hpitch, Ha, Hd. cbn [length pow].
    unfold radians. split; field; done.
Qed.

Lemma orientation_decays_at_rest_witness :
  ∃ self',
    run_fusion (VisualizationTab.__init__ 0)
      [ {| reading_gyro := {| vec_x := 0; vec_y := 200; vec_z := 0 |};
           reading_accel := {| vec_x := 0; vec_y := 0; vec_z := 8000 |};
           reading_time := 1 |} ] = Ok self'
    ∧ roll (orientation self') = 0 * (95 / 100 * (95 / 100)) ^ 1
    ∧ pitch (orientation self') = 0 * (95 / 100 * (95 / 100)) ^ 1.
Proof.
  destruct (orientation_decays_at_rest (VisualizationTab.__init__ 0)
              [ {| reading_gyro := {| vec_x := 0; vec_y := 200; vec_z := 0 |};
                   reading_accel := {| vec_x := 0; vec_y := 0; vec_z := 8000 |};
                   reading_time := 1 |} ])
    as (self' & Hrun & Hroll & Hpitch).
  - simpl. lra.
  - reflexivity.
  - reflexivity.
  - repeat constructor.
  - exists self'. split; [exact Hrun|]. split; [exact Hroll|exact Hpitch].
Defined.

Lemma rotation_preserves_squares (a b angle : R) :
  (a * cos angle - b * sin angle) * (a * cos angle - b * sin angle)
  + (a * sin angle + b * cos angle) * (a * sin angle + b * cos angle)
  = a * a + b * b.
Proof.
  pose proof (sin2_cos2 angle) as H. unfold Rsqr in H.
  replace (_ + _) with ((a * a + b * b) * (sin angle * sin angle + cos angle * cos angle))
    by ring.
  rewrite H. ring.
Qed.

Lemma gated_rotation_preserves_squares (a b angle : R) :
  let q := if bool_decide (1 / 1000 < Rabs angle)
           then (a * cos angle - b * sin angle, a * sin angle + b * cos angle)
           else (a, b) in
  q.1 * q.1 + q.2 * q.2 = a * a + b * b.
Proof.
  cbv zeta. case_bool_decide; cbn [fst snd]; [|lra].
  apply rotation_preserves_squares.
Qed.

Lemma gated_pitch_preserves_squares (a b angle : R) :
  let q := if bool_decide (1 / 1000 < Rabs angle)
           then (a * cos angle + b * sin angle, - a * sin angle + b * cos angle)
           else (a, b) in
  q.1 * q.1 + q.2 * q.2 = a * a + b * b.
Proof.
  cbv zeta. case_bool_decide; cbn [fst snd]; [|lra].
  pose proof (rotation_preserves_squares b a angle) as Hsq. lra.
Qed.

(** X19.  [rotate_point] moves a point without changing its distance
    from the origin (on the reals), for all three angles; and with the
    three angles at most 0.001 in absolute value it returns the point
    itself. *)
Theorem rotate_point_preserves_length :
  (∀ x y z roll_ pitch_ yaw_,
     let p := rotate_point (x, y, z) roll_ pitch_ yaw_ in
     p.1.1 * p.1.1 + p.1.2 * p.1.2 + p.2 * p.2 = x * x + y * y + z * z)
  ∧ (∀ point roll_ pitch_ yaw_,
       Rabs roll_ <= 1 / 1000 → Rabs pitch_ <= 1 / 1000 → Rabs yaw_ <= 1 / 1000 →
       rotate_point point roll_ pitch_ yaw_ = point).
Proof.
  split.
  - intros x y z roll_ pitch_ yaw_. cbv zeta. unfold rotate_point.
    pose proof (gated_rotation_preserves_squares x y yaw_) as Hyaw. cbv zeta in Hyaw.
    destruct (if bool_decide (1 / 1000 < Rabs yaw_) then _ else _) as [x1 y1].
    pose proof (gated_rotation_preserves_squares y1 z roll_) as Hroll. cbv zeta in Hroll.
    destruct (if bool_decide (1 / 1000 < Rabs roll_) then _ else _) as [y2 z2].
    pose proof (gated_pitch_preserves_squares x1 z2 pitch_) as Hpitch. cbv zeta in Hpitch.
    destruct (if bool_decide (1 / 1000 < Rabs pitch_) then _ else _) as [x3 z3].
    cbn [fst snd] in *. lra.
  - intros [[x y] z] roll_ pitch_ yaw_ Hr Hp Hy. unfold rotate_point.
    rewrite !bool_decide_eq_false_2 by lra. done.
Qed.

Lemma locks_consistent_flags (self : LockState) :
  locks_consistent self →
  lock_flags self
  = {| roll := bool_decide (locked_axis self = Some Roll);
       pitch := bool_decide (locked_axis self = Some Pitch);
       yaw := bool_decide (locked_axis self = Some Yaw) |}.
Proof.
  intros H. pose proof (H Roll) as Hr. pose proof (H Pitch) as Hp. pose proof (H Yaw) as Hy.
  destruct self as [[r p y] la]. cbn [get_lock lock_flags locked_axis roll pitch yaw] in *.
  by rewrite Hr, Hp, Hy.
Qed.

(** X20.  The axis locks exclude each other.  Call the two attributes
    consistent when exactly the axis named by [locked_axis] is locked.
    They are consistent at start and [_toggle_axis_lock] keeps them so;
    then at most one axis is locked.  Locking a free axis makes them
    consistent from any state; with nothing locked, toggling an axis
    twice changes nothing.  [update_from_settings] can leave them
    inconsistent, with several locks set; the next lock of a free axis
    repairs that. *)
Theorem axis_locks_mutually_exclusive :
  locks_consistent unlocked
  ∧ (∀ axis self,
       locks_consistent self → locks_consistent (_toggle_axis_lock axis self))
  ∧ (∀ self a b,
       locks_consistent self →
       get_lock (lock_flags self) a = true → get_lock (lock_flags self) b = true → a = b)
  ∧ (∀ axis self,
       get_lock (lock_flags self) axis = false →
       locks_consistent (_toggle_axis_lock axis self)
       ∧ locked_axis (_toggle_axis_lock axis self) = Some axis)
  ∧ (∀ axis self,
       locks_consistent self → locked_axis self = None →
       _toggle_axis_lock axis (_toggle_axis_lock axis self) = self)
  ∧ (∃ saved, ¬ locks_consistent (update_from_settings saved unlocked))
  ∧ (∀ saved axis self,
       get_lock saved axis = false →
       locks_consistent (_toggle_axis_lock axis (update_from_settings saved self))).
Proof.
  assert (Hlock : ∀ axis self,
            get_lock (lock_flags self) axis = false →
            locks_consistent (_toggle_axis_lock axis self)
            ∧ locked_axis (_toggle_axis_lock axis self) = Some axis).
  { intros axis [[r p y] la] Hfree. unfold _toggle_axis_lock. rewrite Hfree.
    split; [|done]. intros other. destruct axis, other; reflexivity. }
  split; [intros []; reflexivity|].
  split; [|split; [|split; [exact Hlock|split; [|split]]]].
  - intros axis self Hc.
    destruct (get_lock (lock_flags self) axis) eqn:Hl; [|by apply Hlock].
    unfold _toggle_axis_lock. rewrite Hl.
    rewrite (locks_consistent_flags self Hc) in Hl |- *.
    intros other. destruct self as [flags [[]|]], axis, other; try reflexivity; done.
  - intros self a b Hc. rewrite !Hc. intros Ha%bool_decide_eq_true Hb%bool_decide_eq_true.
    congruence.
  - intros axis self Hc Hnone.
    pose proof (locks_consistent_flags self Hc) as Hf. destruct self as [flags la].
    cbn [locked_axis lock_flags] in Hf, Hnone. subst la flags.
    destruct axis; reflexivity.
  - exists {| roll := true; pitch := true; yaw := false |}.
    intros Hc. specialize (Hc Roll). discriminate Hc.
  - intros saved axis self Hfree.
    by apply (Hlock axis (update_from_settings saved self)).
Qed.

End orientation_runs.

(** ** The outbound events and the polling loop *)

Lemma changes_facts (parser : DigitalState) (data : ControllerData) (changes : Changes) :
  (check_digital_changes parser data).1 = Some changes →
  (∀ button, changed_buttons changes !! button = Some true
             ↔ rising_edge parser (buttons data) button = true)
  ∧ (∀ button v, changed_buttons changes !! button = Some v → v = true)
  ∧ (∀ direction, changed_dpad changes = Some direction
                  ↔ direction = dpad data ∧ dpad_edge parser (dpad data) = true).
Proof.
  intros Hc. split; [|split].
  - intros button.
    pose proof (check_digital_changes_press parser data button) as Hpress.
    rewrite Hc in Hpress. unfold reports_press in Hpress. rewrite <- Hpress. split.
    + intros H. by exists changes.
    + by intros (c & [= <-] & H).
  - intros button v Hv.
    pose proof (button_loop_spec parser (buttons data)) as [Hlook _].
    unfold check_digital_changes in Hc.
    destruct (map_fold _ _ _) as [btn_changes has_changes]. simpl in Hlook.
    assert (changed_buttons changes = btn_changes) as Hb.
    { destruct (_ && _), has_changes; simplify_eq/=; done. }
    rewrite Hb, Hlook in Hv. destruct (rising_edge _ _ _); congruence.
  - intros direction.
    pose proof (check_digital_changes_dpad parser data direction) as Hd.
    rewrite Hc in Hd. unfold reports_dpad in Hd. rewrite <- Hd. split.
    + intros H. by exists changes.
    + by intros (c & [= <-] & H).
Qed.

Lemma elem_of_changed_keys (keys : list string) (parser : DigitalState)
    (data : ControllerData) (button : string) :
  button ∈ changed_keys keys parser data
  ↔ button ∈ keys ∧ rising_edge parser (buttons data) button = true.
Proof. unfold changed_keys. rewrite list_elem_of_filter. tauto. Qed.

Lemma dict_items_changed_keys (keys : list string) (parser : DigitalState)
    (data : ControllerData) (changes : Changes) :
  (check_digital_changes parser data).1 = Some changes →
  UDPManager.dict_items (changed_keys keys parser data) (changed_buttons changes)
  = (λ button, (button, true)) <$> changed_keys keys parser data.
Proof.
  intros Hc. destruct (changes_facts parser data changes Hc) as (Hb & _ & _).
  unfold UDPManager.dict_items.
  assert (Hall : Forall (λ button, changed_buttons changes !! button = Some true)
                   (changed_keys keys parser data)).
  { apply Forall_forall. intros button [_ Hrise]%elem_of_changed_keys. by apply Hb. }
  induction Hall as [|button rest Hbutton _ IH]; [done|].
  cbn [omap list_omap]. rewrite Hbutton. cbn [fmap option_fmap option_map list_fmap].
  by rewrite <- IH.
Qed.

Section outbound.

Import UDPManager.

Variable json_dumps : json → string.
Variable utf8_encode : string → list Byte.byte.

Local Abbreviation payload :=
  (λ ev : string * Q, utf8_encode (json_dumps (press_event ev.1 ev.2))).

Local Abbreviation send_step time_time :=
  (λ (acc : sender * nat) (item : string * bool),
     let '(self, readings) := acc in
     let '(button, pressed) := item in
     if pressed
     then ((send_json json_dumps utf8_encode
              (press_event button (time_time readings)) self).2, S readings)
     else (self, readings)).

Lemma send_loop_spec (time_time : nat → Q) (items : list (string * bool))
    (self : sender) (readings : nat) :
  let names := (List.filter (λ kv, kv.2) items).*1 in
  let r := foldl (send_step time_time) (self, readings) items in
  udp_queue r.1
  = udp_queue self
    ++ (payload <$> zip names (time_time <$> seq readings (length names)))
  ∧ packets_sent r.1 = packets_sent self
  ∧ packets_saved r.1 = packets_saved self
  ∧ r.2 = (readings + length names)%nat.
Proof.
  cbv zeta. revert self readings.
  induction items as [|[button pressed] items IH]; intros self readings.
  { cbn. rewrite app_nil_r. repeat split; lia. }
  cbn [foldl List.filter snd]. destruct pressed.
  - destruct (IH (send_json json_dumps utf8_encode
                    (press_event button (time_time readings)) self).2 (S readings))
      as (Hq & Hs & Hv & Hk).
    rewrite Hq, Hs, Hv, Hk.
    cbn [send_json send_packet snd udp_queue packets_sent packets_saved
         fmap list_fmap fst length seq zip zip_with].
    rewrite <- app_assoc. repeat split; try done. lia.
  - apply IH.
Qed.

Lemma send_digital_changes_spec (self : sender) (changes : Changes) (keys : list string)
    (time_time : nat → Q) :
  let names := (List.filter (λ kv, kv.2) (dict_items keys (changed_buttons changes))).*1
               ++ dpad_event_names changes in
  send_digital_changes json_dumps utf8_encode self changes keys time_time
  = (true,
     {| udp_queue := udp_queue self
                     ++ (payload <$> zip names (time_time <$> seq 0 (length names)));
        packets_sent := packets_sent self + 1;
        packets_saved := packets_saved self |}).
Proof.
  cbv zeta. unfold send_digital_changes.
  pose proof (send_loop_spec time_time (dict_items keys (changed_buttons changes)) self 0)
    as Hloop. cbv zeta in Hloop.
  destruct (foldl _ _ _) as [self1 readings]. cbn [fst snd] in Hloop.
  destruct Hloop as (Hq & Hs & Hv & Hk). cbn [Nat.add] in Hk.
  set (pressed := (List.filter (λ kv, kv.2) (dict_items keys (changed_buttons changes))).*1)
    in *.
  unfold dpad_event_names.
  assert (Hzip : ∀ extra : list string,
            zip (pressed ++ extra) (time_time <$> seq 0 (length (pressed ++ extra)))
            = zip pressed (time_time <$> seq 0 (length pressed))
              ++ zip extra (time_time <$> seq (length pressed) (length extra))).
  { intros extra. rewrite length_app, seq_app, fmap_app.
    rewrite zip_with_app; [done|]. by rewrite length_fmap, length_seq. }
  destruct (changed_dpad changes) as [dpad_direction|].
  - destruct (bool_decide (dpad_direction ≠ ""%string)
              && bool_decide (dpad_direction ≠ "none"%string)).
    + cbn [send_json send_packet snd udp_queue packets_sent packets_saved].
      rewrite Hzip, fmap_app, Hq, Hs, Hv, Hk, app_assoc. done.
    + rewrite app_nil_r, Hq, Hs, Hv. done.
  - rewrite app_nil_r, Hq, Hs, Hv. done.
Qed.

Lemma pressed_names_changed_keys (keys : list string) :
  (List.filter (λ kv : string * bool, kv.2) ((λ button, (button, true)) <$> keys)).*1 = keys.
Proof. induction keys as [|button keys IH]; [done|]. cbn. by rewrite IH. Qed.

Lemma dpad_event_names_spec (parser : DigitalState) (data : ControllerData)
    (changes : Changes) :
  (check_digital_changes parser data).1 = Some changes →
  dpad_event_names changes
  = if dpad_edge parser (dpad data) && bool_decide (dpad data ≠ ""%string)
    then ["dpad_" +:+ dpad data] else [].
Proof.
  intros Hc. destruct (changes_facts parser data changes Hc) as (_ & _ & Hd).
  unfold dpad_event_names.
  destruct (changed_dpad changes) as [direction|] eqn:Hcd.
  - destruct (proj1 (Hd direction) eq_refl) as [-> Hedge]. rewrite Hedge.
    unfold dpad_edge in Hedge. apply andb_true_iff in Hedge as [Hnone _].
    rewrite Hnone. cbn [andb]. by rewrite andb_true_r.
  - destruct (dpad_edge parser (dpad data)) eqn:Hedge; [|done].
    by pose proof (proj2 (Hd (dpad data)) (conj eq_refl eq_refl)).
Qed.

Lemma send_changed_keys (parser : DigitalState) (data : ControllerData) (changes : Changes)
    (keys : list string) (self : sender) (time_time : nat → Q) :
  (check_digital_changes parser data).1 = Some changes →
  let names :=
    changed_keys keys parser data
    ++ (if dpad_edge parser (dpad data) && bool_decide (dpad data ≠ ""%string)
        then ["dpad_" +:+ dpad data] else []) in
  send_digital_changes json_dumps utf8_encode self changes
    (changed_keys keys parser data) time_time
  = (true,
     {| udp_queue := udp_queue self
                     ++ (payload <$> zip names (time_time <$> seq 0 (length names)));
        packets_sent := packets_sent self + 1;
        packets_saved := packets_saved self |}).
Proof.
  intros Hc. cbv zeta. rewrite send_digital_changes_spec.
  rewrite (dict_items_changed_keys keys parser data changes Hc).
  rewrite pressed_names_changed_keys.
  by rewrite (dpad_event_names_spec parser data changes Hc).
Qed.

(** X21.  From the edge detector to the queue.  Let [keys] be the keys of
    the snapshot's buttons in their order, and [changes] the dictionary
    that [check_digital_changes] returned for it, whose keys in their
    order are [changed]: the buttons that went from not pressed to
    pressed, each once, in the order of [keys].  Then
    [send_digital_changes] puts on the queue exactly one encoded press
    event for each of them, in that order, followed by one for a d-pad
    press as [dpad_<direction>]; the [k]-th event carries the [k]-th
    clock reading.  The call returns [True], adds one to [packets_sent]
    whatever the number of events, and leaves [packets_saved] alone. *)
Theorem digital_changes_become_press_events
    (parser : DigitalState) (data : ControllerData) (changes : Changes)
    (keys : list string) (self : sender) (time_time : nat → Q) :
  NoDup keys →
  (∀ button, button ∈ keys ↔ is_Some (buttons data !! button)) →
  (check_digital_changes parser data).1 = Some changes →
  let changed := changed_keys keys parser data in
  let names :=
    changed
    ++ (if dpad_edge parser (dpad data) && bool_decide (dpad data ≠ ""%string)
        then ["dpad_" +:+ dpad data] else []) in
  send_digital_changes json_dumps utf8_encode self changes changed time_time
  = (true,
     {| udp_queue := udp_queue self
                     ++ (payload <$> zip names (time_time <$> seq 0 (length names)));
        packets_sent := packets_sent self + 1;
        packets_saved := packets_saved self |})
  ∧ NoDup changed
  ∧ changed `sublist_of` keys
  ∧ (∀ button, button ∈ changed ↔ is_Some (changed_buttons changes !! button))
  ∧ (∀ button, button ∈ changed ↔ rising_edge parser (buttons data) button = true).
Proof.
  intros Hnodup Hkeys Hc. cbv zeta.
  destruct (changes_facts parser data changes Hc) as (Hb & Hv & _).
  assert (Hrise : ∀ button,
            button ∈ changed_keys keys parser data
            ↔ rising_edge parser (buttons data) button = true).
  { intros button. rewrite elem_of_changed_keys. split; [by intros [_ ?]|].
    intros Hr. split; [|done]. apply Hkeys. unfold rising_edge in Hr.
    by destruct (buttons data !! button). }
  split; [|split; [|split; [|split]]].
  - by apply send_changed_keys.
  - by apply NoDup_filter.
  - apply sublist_filter.
  - intros button. rewrite Hrise, <- Hb. split; [by intros ->|].
    intros [v Hl]. by rewrite (Hv _ _ Hl) in Hl.
  - done.
Qed.

End outbound.

(** ** The tactile feedback inside the polling loop *)

Section tactile_exceptions.

Import RumbleTab.

Implicit Types (self tab : RumbleTab.t) (trigger : string).

(** What one fired request does to the device when no write fails, as
    [DS4ControlUI.update_tactile] collects it. *)
Local Abbreviation request_effects tab :=
  (λ request : string * Z,
     mbind (M := list) (DS4ControlUI.trigger_tactile_feedback tab)
       (RumbleTab._trigger_tactile_feedback tab request.1 request.2)).

Lemma request_effects_ext tab tab' (request : string * Z) :
  tactile tab' = tactile tab →
  rumble_callbacks tab' = rumble_callbacks tab →
  request_effects tab' request = request_effects tab request.
Proof.
  intros Ht Hc. cbv beta.
  unfold RumbleTab._trigger_tactile_feedback, DS4ControlUI.trigger_tactile_feedback,
    get_tactile_settings.
  by rewrite Ht, Hc.
Qed.

Lemma trigger_tactile_feedback_in_range tab trigger threshold_num :
  0 ≤ intensity (tactile tab) ≤ 255 →
  MainWindow._trigger_tactile_feedback tab trigger threshold_num
  = Ok (request_effects tab (trigger, threshold_num)).
Proof.
  intros Hrange.
  unfold MainWindow._trigger_tactile_feedback, RumbleTab._trigger_tactile_feedback.
  case_bool_decide; [|done].
  unfold MainWindow.trigger_tactile_feedback, DS4ControlUI.trigger_tactile_feedback,
    MainWindow.set_rumble_simple, get_tactile_settings.
  rewrite (bool_decide_eq_true_2 (0 ≤ intensity (tactile tab) ≤ 255)) by done.
  rewrite (bool_decide_eq_true_2 (0 ≤ 0 ≤ 255)) by lia.
  cbn [andb mbind list_bind fst snd]. rewrite app_nil_r.
  by destruct (String.eqb trigger "L2").
Qed.

Lemma set_last_rumble_threshold_settings trigger (v : option Z) self :
  tactile (set_last_rumble_threshold trigger v self) = tactile self
  ∧ rumble_callbacks (set_last_rumble_threshold trigger v self) = rumble_callbacks self.
Proof. unfold set_last_rumble_threshold. by destruct (String.eqb trigger "l2"). Qed.

Lemma crossing_step_in_range tab trigger (current_value prev_value : Z)
    (fired : list (string * Z)) self (th : Z * Z) :
  0 ≤ intensity (tactile tab) ≤ 255 →
  tactile self = tactile tab →
  rumble_callbacks self = rumble_callbacks tab →
  let old := RumbleTab.crossing_step trigger current_value prev_value (fired, self) th in
  MainWindow.crossing_step trigger current_value prev_value
    (fired ≫= request_effects tab, self, None) th
  = (old.1 ≫= request_effects tab, old.2, None)
  ∧ tactile old.2 = tactile tab
  ∧ rumble_callbacks old.2 = rumble_callbacks tab.
Proof.
  intros Hrange Ht Hc. cbv zeta. destruct th as [threshold_num threshold_value].
  unfold MainWindow.crossing_step, RumbleTab.crossing_step.
  destruct ((prev_value <? threshold_value) && (threshold_value <=? current_value)).
  - case_bool_decide; [|done].
    rewrite trigger_tactile_feedback_in_range by (by rewrite Ht).
    rewrite (request_effects_ext tab self) by done.
    destruct (set_last_rumble_threshold_settings trigger (Some threshold_num) self)
      as [Ht' Hc'].
    cbn [fst snd]. rewrite Ht', Hc'. split; [|done].
    rewrite bind_app. cbn [mbind list_bind]. by rewrite app_nil_r.
  - destruct ((current_value <? threshold_value) && (threshold_value <=? prev_value));
      [|done].
    destruct (set_last_rumble_threshold_settings trigger None self) as [Ht' Hc'].
    cbn [fst snd]. by rewrite Ht', Hc'.
Qed.

Lemma crossing_loop_in_range tab trigger (current_value prev_value : Z)
    (ths : list (Z * Z)) (fired : list (string * Z)) self :
  0 ≤ intensity (tactile tab) ≤ 255 →
  tactile self = tactile tab →
  rumble_callbacks self = rumble_callbacks tab →
  let old :=
    foldl (RumbleTab.crossing_step trigger current_value prev_value) (fired, self) ths in
  foldl (MainWindow.crossing_step trigger current_value prev_value)
    (fired ≫= request_effects tab, self, None) ths
  = (old.1 ≫= request_effects tab, old.2, None)
  ∧ tactile old.2 = tactile tab
  ∧ rumble_callbacks old.2 = rumble_callbacks tab.
Proof.
  intros Hrange. cbv zeta. revert fired self.
  induction ths as [|th ths IH]; intros fired self Ht Hc; [done|].
  cbn [foldl].
  destruct (crossing_step_in_range tab trigger current_value prev_value fired self th
              Hrange Ht Hc) as (Hstep & Ht' & Hc').
  cbv zeta in Hstep, Ht', Hc'. rewrite Hstep.
  destruct (RumbleTab.crossing_step trigger current_value prev_value (fired, self) th)
    as [fired' self'].
  by apply IH.
Qed.

Lemma check_threshold_crossing_in_range tab trigger (current_value prev_value : Z) self :
  0 ≤ intensity (tactile tab) ≤ 255 →
  tactile self = tactile tab →
  rumble_callbacks self = rumble_callbacks tab →
  let old := RumbleTab._check_threshold_crossing self trigger current_value prev_value in
  MainWindow._check_threshold_crossing self trigger current_value prev_value
  = (old.1 ≫= request_effects tab, old.2, None)
  ∧ tactile old.2 = tactile tab
  ∧ rumble_callbacks old.2 = rumble_callbacks tab.
Proof.
  intros Hrange Ht Hc.
  apply (crossing_loop_in_range tab trigger current_value prev_value (thresholds self)
           [] self Hrange Ht Hc).
Qed.

(** With a tactile intensity that a report can carry, the tactile
    feedback of the window raises nothing and is the one that
    [DS4ControlUI.update_tactile] describes. *)
Lemma check_tactile_feedback_in_range tab (data : ControllerData) :
  0 ≤ intensity (tactile tab) ≤ 255 →
  MainWindow.check_tactile_feedback tab (raw (l2 data)) (raw (r2 data))
  = ((DS4ControlUI.update_tactile tab data).1, (DS4ControlUI.update_tactile tab data).2, None).
Proof.
  intros Hrange.
  unfold MainWindow.check_tactile_feedback, DS4ControlUI.update_tactile,
    RumbleTab.check_tactile_feedback.
  destruct (negb (enabled (tactile tab))); [done|].
  destruct (check_threshold_crossing_in_range tab "l2" (raw (l2 data)) (prev_l2_value tab)
              tab Hrange eq_refl eq_refl) as (Hl2 & Ht1 & Hc1).
  cbv zeta in Hl2, Ht1, Hc1. rewrite Hl2.
  destruct (RumbleTab._check_threshold_crossing tab "l2" (raw (l2 data)) (prev_l2_value tab))
    as [fired_l2 self1].
  cbn [fst snd] in *.
  destruct (check_threshold_crossing_in_range tab "r2" (raw (r2 data))
              (prev_r2_value (set_prev_l2_value (raw (l2 data)) self1))
              (set_prev_l2_value (raw (l2 data)) self1) Hrange Ht1 Hc1)
    as (Hr2 & Ht2 & Hc2).
  cbv zeta in Hr2, Ht2, Hc2. rewrite Hr2.
  destruct (RumbleTab._check_threshold_crossing (set_prev_l2_value (raw (l2 data)) self1)
              "r2" (raw (r2 data)) (prev_r2_value (set_prev_l2_value (raw (l2 data)) self1)))
    as [fired_r2 self2].
  cbn [fst snd] in *. rewrite bind_app. f_equal. f_equal.
  f_equal; apply list_bind_ext; try done; intros [trigger threshold_num];
    symmetry; by apply (request_effects_ext tab _ (trigger, threshold_num)).
Qed.

End tactile_exceptions.

(** An intensity that does not fit a byte: the first request of the scan
    of R2 raises, nothing reaches the device and R2's previous value is
    not stored. *)
Example out_of_range_intensity_raises :
  MainWindow.check_tactile_feedback loud_tab 0 200
  = ([], loud_tab, Some (OtherException "ValueError")).
Proof. vm_compute. reflexivity. Qed.

(** ** One turn of the polling loop *)

Lemma button_keys_bits : button_keys = button_bits.*1.
Proof. reflexivity. Qed.

Lemma NoDup_button_keys : NoDup button_keys.
Proof. apply (bool_decide_unpack _). by vm_compute. Qed.

Lemma decoded_buttons_dom (report : list Byte.byte) :
  dom (buttons (decoded report)) = list_to_set button_bits.*1.
Proof. unfold decoded. cbn [buttons]. rewrite dom_list_to_map_L. f_equal. Qed.

Lemma parsed_button_keys (report : list Byte.byte) (data : ControllerData)
    (button : string) :
  parse_controller_data report = Ok data →
  button ∈ button_keys ↔ is_Some (buttons data !! button).
Proof.
  intros Hd. apply parse_controller_data_inv in Hd as [_ ->].
  rewrite <- elem_of_dom, decoded_buttons_dom, elem_of_list_to_set.
  by rewrite button_keys_bits.
Qed.

Lemma parsed_button_has_label (report : list Byte.byte) (data : ControllerData)
    (button : string) :
  parse_controller_data report = Ok data →
  is_Some (buttons data !! button) →
  is_Some (MappingConfigFrame.BUTTON_LABELS !! button) ∧ button ≠ ""%string.
Proof.
  intros Hd Hb. apply (parsed_button_keys report data button Hd) in Hb.
  unfold button_keys in Hb.
  repeat (apply elem_of_cons in Hb as [->|Hb];
          [split; [eexists; vm_compute; reflexivity|discriminate]|]).
  by apply elem_of_nil in Hb.
Qed.

Lemma parsed_dpad_not_empty (report : list Byte.byte) (data : ControllerData) :
  parse_controller_data report = Ok data → dpad data ≠ ""%string.
Proof.
  intros Hd. apply parse_controller_data_inv in Hd as [_ ->].
  unfold decoded. cbn [dpad].
  destruct (dpad_names !! Z.to_nat (byte_at report 5 `mod` 16)) as [direction|] eqn:Hl;
    [|done].
  apply list_elem_of_lookup_2 in Hl. unfold dpad_names in Hl. cbn [default].
  repeat (apply elem_of_cons in Hl as [->|Hl]; [discriminate|]).
  by apply elem_of_nil in Hl.
Qed.

Lemma dpad_name_not_button_key (direction : string) :
  "dpad_" +:+ direction ∉ button_keys.
Proof.
  unfold button_keys. intros Hin.
  repeat (apply elem_of_cons in Hin as [Heq|Hin]; [discriminate Heq|]).
  by apply elem_of_nil in Hin.
Qed.

Lemma changed_keys_spec (report : list Byte.byte) (data : ControllerData)
    (parser : DigitalState) :
  parse_controller_data report = Ok data →
  let changed := changed_keys button_keys parser data in
  NoDup changed
  ∧ changed `sublist_of` button_keys
  ∧ (∀ button, button ∈ changed ↔ rising_edge parser (buttons data) button = true)
  ∧ (∀ direction, NoDup (changed ++ ["dpad_" +:+ direction])).
Proof.
  intros Hd. cbv zeta.
  assert (Hsub : changed_keys button_keys parser data `sublist_of` button_keys)
    by apply sublist_filter.
  assert (Hnodup : NoDup (changed_keys button_keys parser data))
    by apply NoDup_filter, NoDup_button_keys.
  split; [done|]. split; [done|]. split.
  - intros button. rewrite elem_of_changed_keys. split; [by intros [_ ?]|].
    intros Hr. split; [|done]. apply (parsed_button_keys report data button Hd).
    unfold rising_edge in Hr. by destruct (buttons data !! button).
  - intros direction. apply NoDup_app. split; [done|]. split; [|apply NoDup_singleton].
    intros button Hin ->%list_elem_of_singleton.
    apply (dpad_name_not_button_key direction).
    by apply (elem_of_sublist _ _ _ Hin Hsub).
Qed.

Lemma changed_keys_nil (keys : list string) (parser : DigitalState) (data : ControllerData) :
  (∀ button, rising_edge parser (buttons data) button = false) →
  changed_keys keys parser data = [].
Proof.
  intros Hno. apply elem_of_nil_inv. intros button [_ Hrise]%elem_of_changed_keys.
  by rewrite Hno in Hrise.
Qed.

Section polling_loop.

Import UDPManager MainWindow.

Variable json_dumps : json → string.
Variable utf8_encode : string → list Byte.byte.

Local Abbreviation payload :=
  (λ ev : string * Q, utf8_encode (json_dumps (press_event ev.1 ev.2))).
Local Abbreviation poll := (poll_controller json_dumps utf8_encode).
Local Abbreviation digital := (poll_digital_part json_dumps utf8_encode).

(** The state in which the visual part of a turn raises nothing: a
    sensitivity to divide by and a tactile intensity that fits a byte. *)
Local Abbreviation visual_part_returns self :=
  (VisualizationTab.gyro_sensitivity (visualization_tab_modular self) ≠ 0%R
   ∧ 0 ≤ RumbleTab.intensity (RumbleTab.tactile (rumble_tab_modular self)) ≤ 255).

Lemma poll_visual_part_Ok (self : MainWindow.t) (data : ControllerData) (current_time : R) :
  visual_part_returns self →
  ∃ self1,
    poll_visual_part self data current_time
    = (Device <$> (DS4ControlUI.update_tactile (rumble_tab_modular self) data).1, self1, None)
    ∧ data_parser self1 = data_parser self
    ∧ capture self1 = capture self
    ∧ udp_manager self1 = udp_manager self
    ∧ mapping_config_frame self1 = mapping_config_frame self
    ∧ rumble_tab_modular self1
      = (DS4ControlUI.update_tactile (rumble_tab_modular self) data).2.
Proof.
  intros [Hs Hrange]. unfold poll_visual_part, update_visualizations.
  destruct (update_orientation_with_fusion_Ok (visualization_tab_modular self)
              (vec_x (gyro data)) (vec_y (gyro data)) (vec_z (gyro data))
              (vec_x (accelerometer data)) (vec_y (accelerometer data))
              (vec_z (accelerometer data)) current_time Hs)
    as (tab & shown & Hrun & _).
  rewrite Hrun. cbn [rumble_tab_modular set_visualization_tab].
  rewrite (check_tactile_feedback_in_range (rumble_tab_modular self) data Hrange).
  eexists. split; [reflexivity|]. done.
Qed.

Lemma poll_decodable (self : MainWindow.t) (report : list Byte.byte) (data : ControllerData)
    (is_visual_tab_active : bool) (current_time : R) (time_time : nat → Q) :
  parse_controller_data report = Ok data →
  (is_visual_tab_active = true → visual_part_returns self) →
  ∃ self1,
    poll self (Some report) is_visual_tab_active current_time time_time
    = ((if is_visual_tab_active
        then Device <$> (DS4ControlUI.update_tactile (rumble_tab_modular self) data).1
        else [])
       ++ (digital self1 data time_time).1,
       (digital self1 data time_time).2)
    ∧ data_parser self1 = data_parser self
    ∧ capture self1 = capture self
    ∧ udp_manager self1 = udp_manager self
    ∧ mapping_config_frame self1 = mapping_config_frame self
    ∧ (is_visual_tab_active = false → self1 = self).
Proof.
  intros Hd Hs. unfold poll_controller.
  assert (report ≠ []) as Hne.
  { intros ->. by vm_compute in Hd. }
  rewrite bool_decide_eq_false_2 by done. rewrite Hd.
  destruct is_visual_tab_active.
  - destruct (poll_visual_part_Ok self data current_time (Hs eq_refl))
      as (self1 & -> & H1 & H2 & H3 & H4 & _).
    exists self1. destruct (poll_digital_part _ _ _ _ _) as [eff' self2]. done.
  - exists self. destruct (poll_digital_part _ _ _ _ _) as [eff' self2]. done.
Qed.

(** A write that fails ends the turn: while the visualization tab is
    showing, an exception of the tactile feedback is printed as the
    polling error and neither the edge detector nor the sender is
    reached. *)
Lemma poll_controller_tactile_failure (self : MainWindow.t) (report : list Byte.byte)
    (data : ControllerData) (current_time : R) (time_time : nat → Q) (e : exception) :
  parse_controller_data report = Ok data →
  VisualizationTab.gyro_sensitivity (visualization_tab_modular self) ≠ 0%R →
  let tactile :=
    check_tactile_feedback (rumble_tab_modular self) (raw (l2 data)) (raw (r2 data)) in
  tactile.2 = Some e →
  let r := poll self (Some report) true current_time time_time in
  r.1 = (Device <$> tactile.1.1) ++ [Print "Polling error"]
  ∧ data_parser r.2 = data_parser self
  ∧ udp_manager r.2 = udp_manager self
  ∧ capture r.2 = capture self
  ∧ text_update_counter r.2 = text_update_counter self
  ∧ rumble_tab_modular r.2 = tactile.1.2.
Proof.
  intros Hd Hs. cbv zeta. intros Hraised. unfold poll_controller.
  assert (report ≠ []) as Hne.
  { intros ->. by vm_compute in Hd. }
  rewrite bool_decide_eq_false_2 by done. rewrite Hd.
  unfold poll_visual_part, update_visualizations.
  destruct (update_orientation_with_fusion_Ok (visualization_tab_modular self)
              (vec_x (gyro data)) (vec_y (gyro data)) (vec_z (gyro data))
              (vec_x (accelerometer data)) (vec_y (accelerometer data))
              (vec_z (accelerometer data)) current_time Hs)
    as (tab & shown & Hrun & _).
  rewrite Hrun. cbn [rumble_tab_modular set_visualization_tab].
  destruct (check_tactile_feedback _ _ _) as [[eff rumble] raised].
  cbn [fst snd] in *. by subst raised.
Qed.

Lemma poll_digital_part_frame (self : MainWindow.t) (data : ControllerData)
    (time_time : nat → Q) :
  let r := digital self data time_time in
  data_parser r.2 = {| prev_buttons := buttons data; prev_dpad := dpad data |}
  ∧ text_update_counter r.2 = text_update_counter self
  ∧ visualization_tab_modular r.2 = visualization_tab_modular self
  ∧ rumble_tab_modular r.2 = rumble_tab_modular self
  ∧ mapping_config_frame r.2 = mapping_config_frame self.
Proof.
  cbv zeta. unfold poll_digital_part.
  pose proof (check_digital_changes_state (data_parser self) data) as Hst.
  destruct (check_digital_changes (data_parser self) data) as [changes parser].
  cbn [snd] in Hst. subst parser.
  destruct changes as [changes|]; [|done].
  cbn [capture set_data_parser].
  destruct (_controller_mapping_active (capture self)); [|done].
  destruct (pressed_button _ changes) as [button_name|]; [|done].
  case_bool_decide; [|done].
  by destruct (handle_controller_press_for_mapping _ _) as [c [e|]].
Qed.

(** X22.  What [poll_controller] drops.  With an empty queue or an empty
    report nothing happens.  A report of fewer than 25 bytes, or of 36 to
    39 bytes, only prints the polling error: the remembered digital
    state, the orientation, the tactile state and the queue are as
    before, so the inputs carried by such a report are lost. *)
Theorem poll_controller_drops_undecodable_reports
    (self : MainWindow.t) (report : list Byte.byte)
    (is_visual_tab_active : bool) (current_time : R) (time_time : nat → Q) :
  poll self None is_visual_tab_active current_time time_time = ([], self)
  ∧ poll self (Some []) is_visual_tab_active current_time time_time = ([], self)
  ∧ (report ≠ [] →
     (length report < 25 ∨ 36 ≤ length report ≤ 39)%nat →
     poll self (Some report) is_visual_tab_active current_time time_time
     = ([Print "Polling error"], self)).
Proof.
  split; [done|]. split; [done|].
  intros Hne Hlen. unfold poll_controller.
  rewrite bool_decide_eq_false_2 by done.
  rewrite parse_controller_data_cases.
  repeat case_decide; try done; lia.
Qed.

(** X23.  One turn of the polling loop outside the mapping mode, for a
    report that decodes; while the visualization tab is showing, the
    sensitivity is not zero and the tactile intensity fits a byte, so
    that the visual part raises nothing.  The parser remembers the
    snapshot's buttons and d-pad.  The queue grows by exactly one press
    event for every button that went from not pressed to pressed, in the
    order of the snapshot's keys, followed by one for a d-pad press (as
    [dpad_<direction>]), the [k]-th event carrying the [k]-th clock
    reading; no name occurs twice.  The mapping flow and the mappings
    are untouched, and the only other effects are those of the tactile
    feedback, which runs only while the visualization tab is showing. *)
Theorem poll_controller_sends_presses
    (self : MainWindow.t) (report : list Byte.byte) (data : ControllerData)
    (is_visual_tab_active : bool) (current_time : R) (time_time : nat → Q) :
  parse_controller_data report = Ok data →
  _controller_mapping_active (capture self) = false →
  (is_visual_tab_active = true →
   VisualizationTab.gyro_sensitivity (visualization_tab_modular self) ≠ 0%R
   ∧ 0 ≤ RumbleTab.intensity (RumbleTab.tactile (rumble_tab_modular self)) ≤ 255) →
  let r := poll self (Some report) is_visual_tab_active current_time time_time in
  let changed := changed_keys button_keys (data_parser self) data in
  let names :=
    changed
    ++ (if dpad_edge (data_parser self) (dpad data) then ["dpad_" +:+ dpad data] else []) in
  data_parser r.2 = {| prev_buttons := buttons data; prev_dpad := dpad data |}
  ∧ capture r.2 = capture self
  ∧ mapping_config_frame r.2 = mapping_config_frame self
  ∧ udp_queue (udp_manager r.2)
    = udp_queue (udp_manager self)
      ++ (payload <$> zip names (time_time <$> seq 0 (length names)))
  ∧ NoDup names
  ∧ changed `sublist_of` button_keys
  ∧ (∀ button,
       button ∈ changed ↔ rising_edge (data_parser self) (buttons data) button = true)
  ∧ r.1 = (if is_visual_tab_active
           then Device <$> (DS4ControlUI.update_tactile (rumble_tab_modular self) data).1
           else []).
Proof.
  intros Hd Hmap Hs. cbv zeta.
  destruct (changed_keys_spec report data (data_parser self) Hd)
    as (Hnodup & Hsub & Hin & Hnames). cbv zeta in Hnodup, Hsub, Hin, Hnames.
  pose proof (parsed_dpad_not_empty report data Hd) as Hdpad.
  destruct (poll_decodable self report data is_visual_tab_active current_time time_time
              Hd Hs) as (self1 & -> & Hp & Hc & Hu & Hf & _).
  cbn [fst snd].
  pose proof (poll_digital_part_frame self1 data time_time) as (Hp' & _ & _ & _ & Hf').
  cbv zeta in Hp', Hf'. rewrite Hp', Hf', Hf. split; [done|].
  assert (Hnd : NoDup (changed_keys button_keys (data_parser self) data
                       ++ (if dpad_edge (data_parser self) (dpad data)
                           then ["dpad_" +:+ dpad data] else []))).
  { destruct (dpad_edge _ _); [apply Hnames|by rewrite app_nil_r]. }
  unfold poll_digital_part. rewrite Hp.
  destruct (check_digital_changes (data_parser self) data) as [changes parser] eqn:Hcheck.
  destruct changes as [changes|].
  - cbn [capture set_data_parser]. rewrite Hc, Hmap. cbn [fst snd capture set_udp_manager
      udp_manager]. split; [done|]. split; [done|].
    split; [|by rewrite app_nil_r].
    change (udp_manager (set_data_parser parser self1)) with (udp_manager self1).
    rewrite Hu.
    rewrite (send_changed_keys json_dumps utf8_encode (data_parser self) data changes)
      by (by rewrite Hcheck).
    cbn [snd udp_queue]. rewrite (bool_decide_eq_true_2 (dpad data ≠ ""%string)) by done.
    by rewrite andb_true_r.
  - cbn [fst snd capture set_data_parser udp_manager]. rewrite Hc, Hu.
    split; [done|]. split; [done|]. split; [|by rewrite app_nil_r].
    pose proof (proj1 (check_digital_changes_None (data_parser self) data)) as Hnone.
    rewrite Hcheck in Hnone. destruct (Hnone eq_refl) as [Hb Hdp].
    rewrite (changed_keys_nil button_keys (data_parser self) data Hb) in *. rewrite Hdp.
    cbn. by rewrite app_nil_r.
Qed.

End polling_loop.

Section mapping_mode.

Import UDPManager MainWindow.

Variable json_dumps : json → string.
Variable utf8_encode : string → list Byte.byte.

Local Abbreviation poll := (poll_controller json_dumps utf8_encode).
Local Abbreviation digital := (poll_digital_part json_dumps utf8_encode).

Lemma handle_controller_press_labelled (button_name : string) (c : KeyCapture) :
  _key_capture_active c = false →
  is_Some (MappingConfigFrame.BUTTON_LABELS !! button_name) →
  handle_controller_press_for_mapping button_name c = (capture_started button_name, None).
Proof.
  intros Hidle [label Hl].
  unfold handle_controller_press_for_mapping, start_key_capture.
  cbn [_key_capture_active]. rewrite Hidle, Hl. done.
Qed.


(** X24.  One turn of the polling loop in the mapping mode, with no key
    capture running, for a report that decodes; while the visualization
    tab is showing, the sensitivity is not zero and the tactile intensity
    fits a byte.  Nothing is put on the queue, and the parser remembers
    the snapshot as usual.  If buttons went from not pressed to pressed,
    the key capture starts for the first of them in the order of the
    snapshot's keys, and the mapping mode ends; without such a button, a
    press of the d-pad up, down, left or right starts the capture for
    [dpad_<direction>]; without any press the mapping mode goes on. *)
Theorem mapping_mode_consumes_press
    (self : MainWindow.t) (report : list Byte.byte) (data : ControllerData)
    (is_visual_tab_active : bool) (current_time : R) (time_time : nat → Q) :
  parse_controller_data report = Ok data →
  _controller_mapping_active (capture self) = true →
  _key_capture_active (capture self) = false →
  (is_visual_tab_active = true →
   VisualizationTab.gyro_sensitivity (visualization_tab_modular self) ≠ 0%R
   ∧ 0 ≤ RumbleTab.intensity (RumbleTab.tactile (rumble_tab_modular self)) ≤ 255) →
  let r := poll self (Some report) is_visual_tab_active current_time time_time in
  let changed := changed_keys button_keys (data_parser self) data in
  udp_manager r.2 = udp_manager self
  ∧ data_parser r.2 = {| prev_buttons := buttons data; prev_dpad := dpad data |}
  ∧ (∀ button rest, changed = button :: rest → capture r.2 = capture_started button)
  ∧ changed `sublist_of` button_keys
  ∧ (∀ button,
       button ∈ changed ↔ rising_edge (data_parser self) (buttons data) button = true)
  ∧ ((∀ button, rising_edge (data_parser self) (buttons data) button = false) →
     dpad_edge (data_parser self) (dpad data) = true →
     dpad data ∈ ["up"; "down"; "left"; "right"]%string →
     capture r.2 = capture_started ("dpad_" +:+ dpad data))
  ∧ ((∀ button, rising_edge (data_parser self) (buttons data) button = false) →
     dpad_edge (data_parser self) (dpad data) = false →
     capture r.2 = capture self).
Proof.
  intros Hd Hmap Hidle Hs. cbv zeta.
  destruct (changed_keys_spec report data (data_parser self) Hd)
    as (_ & Hsub & Hin & _). cbv zeta in Hsub, Hin.
  destruct (poll_decodable json_dumps utf8_encode self report data is_visual_tab_active
              current_time time_time Hd Hs) as (self1 & -> & Hp & Hc & Hu & Hf & _).
  cbn [fst snd].
  pose proof (poll_digital_part_frame json_dumps utf8_encode self1 data time_time)
    as (Hp' & _). cbv zeta in Hp'.
  split; [|split; [done|]].
  { unfold poll_digital_part. rewrite Hp.
    destruct (check_digital_changes (data_parser self) data) as [[changes|] parser];
      [|by rewrite <- Hu].
    cbn [capture set_data_parser]. rewrite Hc, Hmap.
    destruct (pressed_button _ changes) as [button_name|]; [|by rewrite <- Hu].
    case_bool_decide; [|by rewrite <- Hu].
    destruct (handle_controller_press_for_mapping _ _) as [c raised].
    by rewrite <- Hu. }
  clear Hp'. split; [|split; [done|split; [done|]]].
  - intros button rest Hchanged.
    assert (Hrise : rising_edge (data_parser self) (buttons data) button = true).
    { apply Hin. rewrite Hchanged. left. }
    assert (is_Some (buttons data !! button)) as Hsome.
    { unfold rising_edge in Hrise. by destruct (buttons data !! button). }
    destruct (parsed_button_has_label report data button Hd Hsome) as [Hlabel Hne].
    unfold poll_digital_part. rewrite Hp, Hchanged.
    pose proof (proj1 (check_digital_changes_None (data_parser self) data)) as Hnone.
    destruct (check_digital_changes (data_parser self) data) as [[changes|] parser].
    2:{ destruct (Hnone eq_refl) as [Hnb _]. cbn [fst] in Hnb. by rewrite Hnb in Hrise. }
    cbn [capture set_data_parser pressed_button]. rewrite Hc, Hmap.
    rewrite bool_decide_eq_true_2 by done.
    by rewrite (handle_controller_press_labelled button (capture self) Hidle Hlabel).
  - assert (Hnil : (∀ button, rising_edge (data_parser self) (buttons data) button = false) →
              changed_keys button_keys (data_parser self) data = [])
      by apply changed_keys_nil.
    pose proof (changes_facts (data_parser self) data) as Hfacts.
    pose proof (proj1 (check_digital_changes_None (data_parser self) data)) as Hnone.
    unfold poll_digital_part. rewrite Hp.
    destruct (check_digital_changes (data_parser self) data) as [[changes|] parser].
    2:{ cbn [fst snd] in *. destruct (Hnone eq_refl) as [_ Hnd].
        cbn [capture set_data_parser]. rewrite Hc. split; [|done].
        intros _ Hedge. by rewrite Hnd in Hedge. }
    destruct (Hfacts changes eq_refl) as (_ & _ & Hdp). clear Hnone Hfacts.
    cbn [capture set_data_parser]. rewrite Hc, Hmap.
    split.
    + intros Hno Hedge Hdir. rewrite (Hnil Hno) in *. cbn [pressed_button] in *.
      rewrite (proj2 (Hdp (dpad data)) (conj eq_refl Hedge)).
      rewrite bool_decide_eq_true_2
        by (intros Heq; rewrite Heq in Hdir;
            repeat (apply elem_of_cons in Hdir as [?|Hdir]; [done|]);
            by apply elem_of_nil in Hdir).
      rewrite bool_decide_eq_true_2 by done.
      rewrite (handle_controller_press_labelled _ (capture self) Hidle); [done|].
      repeat (apply elem_of_cons in Hdir as [->|Hdir]; [eexists; by vm_compute|]).
      by apply elem_of_nil in Hdir.
    + intros Hno Hedge. rewrite (Hnil Hno) in *. cbn [pressed_button] in *.
      destruct (changed_dpad changes) as [direction|]; [|done].
      destruct (proj1 (Hdp direction) eq_refl) as [_ Hcd]. by rewrite Hedge in Hcd.
Qed.

End mapping_mode.

Section jam.

Import UDPManager MainWindow.

Variable json_dumps : json → string.
Variable utf8_encode : string → list Byte.byte.

Local Abbreviation poll := (poll_controller json_dumps utf8_encode).
Local Abbreviation digital := (poll_digital_part json_dumps utf8_encode).







End jam.

(** ** Profiles and the key capture *)

Section profiles.

Import MappingConfigFrame.

Lemma profile_name_inj : Inj (=) (=) MappingConfigFrame.profile_name.
Proof.
  intros n1 n2 H. unfold profile_name in H.
  apply (inj (String.append "Profile_")) in H. by apply (inj pretty) in H.
Qed.

Lemma profile_names_exhaust (mappings : gmap string profile) :
  ¬ (∀ j, (1 ≤ j ≤ S (size mappings))%nat →
          profile_name (size mappings + j) ∈ dom mappings).
Proof.
  intros Hall.
  set (names := (λ j, profile_name (size mappings + j)) <$> seq 1 (S (size mappings))).
  assert (NoDup names) as Hnd.
  { apply NoDup_fmap_2; [|apply NoDup_seq].
    intros j1 j2 Hj. apply profile_name_inj in Hj. lia. }
  assert ((list_to_set names : gset string) ⊆ dom mappings) as Hsub.
  { intros name Hin. apply elem_of_list_to_set in Hin.
    apply list_elem_of_fmap in Hin as (j & -> & Hj). apply elem_of_seq in Hj.
    apply Hall. lia. }
  apply subseteq_size in Hsub.
  rewrite size_list_to_set, size_dom in Hsub by done.
  unfold names in Hsub. rewrite length_fmap, length_seq in Hsub. lia.
Qed.

Lemma fresh_profile_name_spec (mappings : gmap string profile) (fuel i : nat) :
  (1 ≤ i)%nat →
  (∀ j, (1 ≤ j < i)%nat → profile_name (size mappings + j) ∈ dom mappings) →
  (size mappings + 2 ≤ i + fuel)%nat →
  ∃ new_name,
    fresh_profile_name mappings fuel i = Some new_name ∧ new_name ∉ dom mappings.
Proof.
  revert i. induction fuel as [|fuel IH]; intros i Hi Hseen Hfuel.
  - destruct (profile_names_exhaust mappings). intros j Hj. apply Hseen. lia.
  - cbn [fresh_profile_name].
    destruct (decide (profile_name (size mappings + i) ∈ dom mappings)) as [Hin|Hout].
    + destruct fuel as [|fuel'].
      * destruct (profile_names_exhaust mappings). intros j Hj.
        destruct (decide (j = i)) as [->|]; [done|]. apply Hseen. lia.
      * apply IH; [lia| |lia]. intros j Hj.
        destruct (decide (j = i)) as [->|]; [done|]. apply Hseen. lia.
    + by eexists.
Qed.

(** X27.  Profiles.  The frame starts with a profile ["Default"].
    [add_profile] finds a name within [len(mappings) + 1] turns of its
    loop; the name is new, the new profile is empty and the existing
    profiles are kept.  [delete_profile] never deletes ["Default"]: it
    changes nothing unless another profile is active and the dialog is
    confirmed, and then it removes the active profile only and makes
    ["Default"] the active one. *)
Theorem profiles_keep_default :
  (∀ loaded, "Default"%string ∈ dom (mappings (MappingConfigFrame.__init__ loaded)))
  ∧ (∀ self selection,
       ∃ new_name self',
         add_profile (S (size (mappings self))) selection self = Some self'
         ∧ (new_name ∉ dom (mappings self))
         ∧ mappings self' = <[new_name := new_profile]> (mappings self))
  ∧ (∀ self confirmed self',
       delete_profile confirmed self = Ok self' →
       ("Default"%string ∈ dom (mappings self) →
        "Default"%string ∈ dom (mappings self'))
       ∧ (∀ name p,
            mappings self' !! name = Some p → mappings self !! name = Some p)
       ∧ (∀ name p,
            name ≠ active_profile_name self →
            mappings self !! name = Some p → mappings self' !! name = Some p)
       ∧ (self' = self
          ∨ (active_profile_name self ≠ "Default"%string
             ∧ confirmed = true
             ∧ active_profile_name self' = "Default"%string
             ∧ mappings self' !! active_profile_name self = None))).
Proof.
  split; [|split].
  - intros loaded. unfold MappingConfigFrame.__init__. cbn [mappings].
    case_decide; [done|]. rewrite dom_insert_L. set_solver.
  - intros self selection.
    destruct (fresh_profile_name_spec (mappings self) (S (size (mappings self))) 1)
      as (new_name & Hfresh & Hnew); [lia|intros j Hj; lia|lia|].
    exists new_name. eexists. unfold add_profile. rewrite Hfresh. cbn.
    split; [reflexivity|]. split; [done|]. by destruct selection.
  - intros self confirmed self'. unfold delete_profile.
    case_bool_decide as Hdef.
    { intros [= <-]. repeat split; try done. by left. }
    destruct confirmed.
    2:{ intros [= <-]. repeat split; try done. by left. }
    destruct (mappings self !! active_profile_name self) as [p|] eqn:Hp; [|done].
    intros [= <-]. cbn [mappings active_profile_name].
    split; [|split; [|split]].
    + intros Hin. rewrite dom_delete_L. set_solver.
    + intros name q Hq. by apply lookup_delete_Some in Hq as [_ Hq].
    + intros name q Hne Hq. by rewrite lookup_delete_ne.
    + right. repeat split; try done. apply lookup_delete_eq.
Qed.

End profiles.

Section key_capture.

Import MappingConfigFrame MainWindow.

Variable json_dumps : UDPManager.json → string.
Variable utf8_encode : string → list Byte.byte.





End key_capture.

(** ** Instances on the sample window *)

Lemma digital_changes_become_press_events_witness :
  changed_keys button_keys DS4DataParser.__init__ (data_of squeeze_report)
  = ["cross"; "circle"]%string
  ∧ UDPManager.send_digital_changes sample_dumps sample_encode
      (MainWindow.udp_manager sample_window)
      {| changed_buttons := {[ "cross"%string := true; "circle"%string := true ]};
         changed_dpad := None |}
      ["cross"; "circle"]%string (λ k, inject_Z (Z.of_nat k))
    = (true,
       {| UDPManager.udp_queue := [sample_encode "cross"; sample_encode "circle"];
          UDPManager.packets_sent := 1;
          UDPManager.packets_saved := 0 |}).
Proof.
  assert (Hparsed : parse_controller_data squeeze_report = Ok (data_of squeeze_report))
    by (vm_compute; reflexivity).
  assert (Hchanged : changed_keys button_keys DS4DataParser.__init__ (data_of squeeze_report)
                     = ["cross"; "circle"]%string)
    by (vm_compute; reflexivity).
  destruct (digital_changes_become_press_events sample_dumps sample_encode
              DS4DataParser.__init__ (data_of squeeze_report)
              {| changed_buttons := {[ "cross"%string := true; "circle"%string := true ]};
                 changed_dpad := None |}
              button_keys (MainWindow.udp_manager sample_window)
              (λ k, inject_Z (Z.of_nat k)))
    as (Hsend & _).
  - apply NoDup_button_keys.
  - intros button. apply (parsed_button_keys squeeze_report _ button Hparsed).
  - vm_compute. reflexivity.
  - split; [exact Hchanged|]. rewrite Hchanged in Hsend. rewrite Hsend. reflexivity.
Defined.

Lemma poll_controller_sends_presses_witness :
  UDPManager.udp_queue
    (MainWindow.udp_manager
       (MainWindow.poll_controller sample_dumps sample_encode tactile_window
          (Some squeeze_report) true 1%R (λ k, inject_Z (Z.of_nat k))).2)
  = [sample_encode "cross"; sample_encode "circle"].
Proof.
  destruct (poll_controller_sends_presses sample_dumps sample_encode tactile_window
              squeeze_report (data_of squeeze_report) true 1%R
              (λ k, inject_Z (Z.of_nat k)))
    as (_ & _ & _ & Hqueue & _).
  - vm_compute. reflexivity.
  - reflexivity.
  - intros _. split; [cbn; lra|cbn; lia].
  - rewrite Hqueue. reflexivity.
Defined.

Lemma mapping_mode_consumes_press_witness :
  MainWindow.capture
    (MainWindow.poll_controller sample_dumps sample_encode tactile_mapping_window
       (Some squeeze_report) true 1%R (λ _, 0%Q)).2
  = MainWindow.capture_started "cross".
Proof.
  destruct (mapping_mode_consumes_press sample_dumps sample_encode tactile_mapping_window
              squeeze_report (data_of squeeze_report) true 1%R (λ _, 0%Q))
    as (_ & _ & Hfirst & _).
  - vm_compute. reflexivity.
  - reflexivity.
  - reflexivity.
  - intros _. split; [cbn; lra|cbn; lia].
  - apply (Hfirst "cross"%string ["circle"%string]). reflexivity.
Defined.


